(** * Simple atom interaction simulator

    A shallow embedding of [physics.py], [chemistry.py] and [sim_core.py],
    followed by the properties of the engine that are proved about it.

    Conventions of the embedding.
    - Python floats are modelled by real numbers ([R]); rounding, infinities
      and NaN are not modelled.  Python ints that only count or index are
      [nat]; ints that enter arithmetic with [max]/[min] are [Z].
    - A Python object that is mutated in place (a [Particle], a [Bond]) is
      modelled by its slot in the list that owns it; an update rewrites that
      slot, so every alias observes it.
    - Python exceptions are modelled by the result type [Res]; stateful code
      lives in the monad [M], whose state survives a raised exception, as
      the mutated Python objects do.
    - The global [random] module is an oracle [Rng] with a cursor.
    - [math.sqrt] is [math_sqrt], which raises [ValueError], where its
      argument can be negative; applied to a sum of squares it is written
      [sqrt].  Every divisor of the code is positive where its division is
      reached, so [ZeroDivisionError] has no place in the model.
    - A generator is the list of what it yields, a loop over a list a fold
      over it. *)

From Stdlib Require Import Reals Lra Lia ZArith String.
From stdpp Require Import base option list gmap.

#[local] Open Scope R_scope.

(** ** Decidable comparisons on reals *)

#[global] Instance Rlt_decision (a b : R) : Decision (a < b) := Rlt_dec a b.
#[global] Instance Rgt_decision (a b : R) : Decision (a > b) := Rgt_dec a b.
#[global] Instance Rle_decision (a b : R) : Decision (a <= b) := Rle_dec a b.
#[global] Instance Rge_decision (a b : R) : Decision (a >= b) := Rge_dec a b.

(** ** Exceptions and results *)

Inductive exn : Type :=
| NameError (name : string)
| IndexError
| ValueError.

Inductive Res (A : Type) : Type :=
| Ok (a : A)
| Raise (e : exn).
Arguments Ok {A} a.
Arguments Raise {A} e.

#[global] Instance Res_ret : MRet Res := fun A a => Ok a.
#[global] Instance Res_bind : MBind Res := fun A B f m =>
  match m with Ok a => f a | Raise e => Raise e end.

(** [l[i]] for a non-negative index. *)
Definition py_index {A : Type} (l : list A) (i : nat) : Res A :=
  match l !! i with Some a => Ok a | None => Raise IndexError end.

(** [l[i] += v] on a list of floats. *)
Definition list_iadd (l : list R) (i : nat) (v : R) : Res (list R) :=
  match l !! i with
  | Some a => Ok (<[i := a + v]> l)
  | None => Raise IndexError
  end.

(** [math.sqrt], which raises [ValueError] on a negative argument. *)
Definition math_sqrt (a : R) : Res R :=
  if decide (a < 0) then Raise ValueError else Ok (sqrt a).

(** [list.remove(v)]: drops the first occurrence. *)
Fixpoint list_remove_first (v : nat) (l : list nat) : list nat :=
  match l with
  | [] => []
  | a :: l' => if decide (a = v) then l' else a :: list_remove_first v l'
  end.

(** ** Data model *)

Record Particle : Type := mkParticle {
  p_x : R;
  p_y : R;
  p_vx : R;
  p_vy : R;
  p_type : nat;
  p_bonds : list nat
}.

Inductive BondType : Type := covalent | ionic | metallic.

#[global] Instance BondType_eq_dec : EqDecision BondType.
Proof. solve_decision. Defined.

Record Bond : Type := mkBond {
  b_i : nat;
  b_j : nat;
  b_type : BondType;
  b_order : nat;
  b_length : R;
  b_dipole : R * R;
  b_donor : option nat;
  b_acceptor : option nat;
  b_age : nat
}.

Module SpatialGrid.

Record t : Type := mk {
  cell_size : R;
  grid : gmap (Z * Z) (list nat)
}.

Definition init (cell_size : R) : t := mk cell_size ∅.

Definition clear (g : t) : t := mk (cell_size g) ∅.

Definition cell_of (g : t) (x y : R) : Z * Z :=
  (Zfloor (x / cell_size g), Zfloor (y / cell_size g)).

Definition insert (g : t) (idx : nat) (x y : R) : t :=
  let c := cell_of g x y in
  mk (cell_size g) (<[c := default [] (grid g !! c) ++ [idx]]> (grid g)).

Definition offsets : list Z := [(-1)%Z; 0%Z; 1%Z].

(** The generator is modelled by the list of the indices it yields, in
    the order it yields them. *)
Definition neighbors (g : t) (x y : R) : list nat :=
  let '(cx, cy) := cell_of g x y in
  dx ← offsets;
  dy ← offsets;
  default [] (grid g !! ((cx + dx)%Z, (cy + dy)%Z)).

End SpatialGrid.

(** The shared [random] module: [rng_uniform n] is the value of the n-th
    draw when it is consumed by [random.random()], [rng_normal n] when it is
    consumed as a standard normal deviate, [rng_index n] when it is consumed
    as a raw integer. *)
Record Rng : Type := mkRng {
  rng_uniform : nat → R;
  rng_normal : nat → R;
  rng_index : nat → nat
}.

Record Sim : Type := mkSim {
  temperature : R;
  n_types : nat;
  particles : list Particle;
  bonds : list Bond;
  grid : SpatialGrid.t;
  rng : Rng;
  rng_pos : nat
}.

Definition set_particles (ps : list Particle) (s : Sim) : Sim :=
  mkSim (temperature s) (n_types s) ps (bonds s) (grid s) (rng s) (rng_pos s).
Definition set_bonds (bs : list Bond) (s : Sim) : Sim :=
  mkSim (temperature s) (n_types s) (particles s) bs (grid s) (rng s) (rng_pos s).
Definition set_grid (g : SpatialGrid.t) (s : Sim) : Sim :=
  mkSim (temperature s) (n_types s) (particles s) (bonds s) g (rng s) (rng_pos s).
Definition set_temperature (T : R) (s : Sim) : Sim :=
  mkSim T (n_types s) (particles s) (bonds s) (grid s) (rng s) (rng_pos s).
Definition advance_rng (s : Sim) : Sim :=
  mkSim (temperature s) (n_types s) (particles s) (bonds s) (grid s) (rng s)
        (S (rng_pos s)).

Definition with_velocity (p : Particle) (vx vy : R) : Particle :=
  mkParticle (p_x p) (p_y p) vx vy (p_type p) (p_bonds p).
Definition with_position (p : Particle) (x y : R) : Particle :=
  mkParticle x y (p_vx p) (p_vy p) (p_type p) (p_bonds p).
Definition with_bonds (p : Particle) (l : list nat) : Particle :=
  mkParticle (p_x p) (p_y p) (p_vx p) (p_vy p) (p_type p) l.
Definition with_age (b : Bond) (a : nat) : Bond :=
  mkBond (b_i b) (b_j b) (b_type b) (b_order b) (b_length b) (b_dipole b)
         (b_donor b) (b_acceptor b) a.

(** ** The state-and-exception monad *)

Definition M (A : Type) : Type := Sim → Sim * Res A.

Definition ret {A : Type} (a : A) : M A := fun s => (s, Ok a).

Definition bind {A B : Type} (m : M A) (k : A → M B) : M B := fun s =>
  match m s with
  | (s', Ok a) => k a s'
  | (s', Raise e) => (s', Raise e)
  end.

Definition raise {A : Type} (e : exn) : M A := fun s => (s, Raise e).

Definition reads {A : Type} (f : Sim → A) : M A := fun s => (s, Ok (f s)).

Definition modify (f : Sim → Sim) : M unit := fun s => (f s, Ok tt).

Definition liftR {A : Type} (r : Res A) : M A := fun s => (s, r).

#[global] Instance M_ret : MRet M := @ret.
#[global] Instance M_bind : MBind M := fun A B k m => bind m k.

Fixpoint for_each {A : Type} (l : list A) (body : A → M unit) : M unit :=
  match l with
  | [] => ret tt
  | a :: l' => body a;; for_each l' body
  end.

Fixpoint for_fold {A B : Type} (l : list A) (acc : B) (body : A → B → M B)
  : M B :=
  match l with
  | [] => ret acc
  | a :: l' => acc' ← body a acc; for_fold l' acc' body
  end.

Fixpoint fold_res {A B : Type} (l : list A) (acc : B) (body : A → B → Res B)
  : Res B :=
  match l with
  | [] => Ok acc
  | a :: l' => acc' ← body a acc; fold_res l' acc' body
  end.

(** [particles[i]] and the write-back of a mutated particle object. *)
Definition get_particle (i : nat) : M Particle :=
  fun s => (s, py_index (particles s) i).

Definition set_particle (i : nat) (p : Particle) : M unit :=
  modify (fun s => set_particles (<[i := p]> (particles s)) s).

Definition random_random : M R :=
  fun s => (advance_rng s, Ok (rng_uniform (rng s) (rng_pos s))).

Definition random_uniform (a b : R) : M R :=
  u ← random_random; ret (a + (b - a) * u).

Definition random_gauss (mu sigma : R) : M R :=
  fun s => (advance_rng s, Ok (mu + sigma * rng_normal (rng s) (rng_pos s))).

(** [random.choice(l)]: raises [IndexError] on an empty list. *)
Definition random_choice (l : list nat) : M nat :=
  fun s => (advance_rng s,
            py_index l (rng_index (rng s) (rng_pos s) `mod` length l)%nat).

(** ** physics.py *)

Module physics.

Definition DEFAULT_TEMPERATURE : R := 1.0.
Definition TIME_STEP : R := 0.2.
Definition MAX_SPEED : R := 9.5.

Definition THERMOSTAT_STRENGTH : R := 0.02.
Definition LANGEVIN_GAMMA : R := 0.04.

Definition NONBONDED_REPULSION : R := 140.0.
Definition NONBONDED_SOFT_REPULSION : R := 6.0.
Definition NONBONDED_RANGE : R := 42.0.

Definition BOND_SPRING_CONSTANT : R := 0.32.
Definition BOND_DAMPING : R := 0.03.
Definition BOND_BREAK_THRESHOLD : R := 1.9.
Definition BOND_FORCE_CAP : R := 6.5.
Definition BOND_SOFTSTART_STEPS : nat := 12.

Definition DIPOLE_STRENGTH : R := 0.22.
Definition DIPOLE_VISUAL_SCALE : R := 18.0.

Definition WORLD_WIDTH : R := 800.
Definition WORLD_HEIGHT : R := 800.

(** The float-valued names bound at module level, in the order of their
    assignment.  The other module-level names are the imported modules
    [math] and [random] and the functions defined below. *)
Definition module_globals : list (string * R) :=
  [ ("DEFAULT_TEMPERATURE"%string, DEFAULT_TEMPERATURE);
    ("TIME_STEP"%string, TIME_STEP);
    ("MAX_SPEED"%string, MAX_SPEED);
    ("THERMOSTAT_STRENGTH"%string, THERMOSTAT_STRENGTH);
    ("LANGEVIN_GAMMA"%string, LANGEVIN_GAMMA);
    ("NONBONDED_REPULSION"%string, NONBONDED_REPULSION);
    ("NONBONDED_SOFT_REPULSION"%string, NONBONDED_SOFT_REPULSION);
    ("NONBONDED_RANGE"%string, NONBONDED_RANGE);
    ("BOND_SPRING_CONSTANT"%string, BOND_SPRING_CONSTANT);
    ("BOND_DAMPING"%string, BOND_DAMPING);
    ("BOND_BREAK_THRESHOLD"%string, BOND_BREAK_THRESHOLD);
    ("BOND_FORCE_CAP"%string, BOND_FORCE_CAP);
    ("BOND_SOFTSTART_STEPS"%string, INR BOND_SOFTSTART_STEPS);
    ("DIPOLE_STRENGTH"%string, DIPOLE_STRENGTH);
    ("DIPOLE_VISUAL_SCALE"%string, DIPOLE_VISUAL_SCALE);
    ("WORLD_WIDTH"%string, WORLD_WIDTH);
    ("WORLD_HEIGHT"%string, WORLD_HEIGHT) ].

Fixpoint lookup_name (name : string) (env : list (string * R)) : option R :=
  match env with
  | [] => None
  | (n, v) :: env' =>
      if String.eqb n name then Some v else lookup_name name env'
  end.

(** Reading a name that is neither a local nor a parameter of the function
    that mentions it: found in the module's globals, or [NameError]. *)
Definition load_global (name : string) : Res R :=
  match lookup_name name module_globals with
  | Some v => Ok v
  | None => Raise (NameError name)
  end.

Definition wrap (dx dy : R) : R * R :=
  let dx :=
    if decide (dx > WORLD_WIDTH * 0.5) then dx - WORLD_WIDTH
    else if decide (dx < - WORLD_WIDTH * 0.5) then dx + WORLD_WIDTH
    else dx in
  let dy :=
    if decide (dy > WORLD_HEIGHT * 0.5) then dy - WORLD_HEIGHT
    else if decide (dy < - WORLD_HEIGHT * 0.5) then dy + WORLD_HEIGHT
    else dy in
  (dx, dy).

Definition limit_speed (vx vy max_speed : R) : R * R :=
  let v2 := vx * vx + vy * vy in
  if decide (v2 > max_speed * max_speed) then
    let s := max_speed / sqrt v2 in
    (vx * s, vy * s)
  else (vx, vy).

Definition compute_nonbonded_force (p_i p_j : Particle) : R * R :=
  let dx := p_x p_j - p_x p_i in
  let dy := p_y p_j - p_y p_i in
  let '(dx, dy) := wrap dx dy in
  let r2 := dx * dx + dy * dy in
  if decide (r2 < 1e-9) then (0.0, 0.0) else
  let r := sqrt r2 in
  if decide (r > NONBONDED_RANGE) then (0.0, 0.0) else
  let nx := dx / r in
  let ny := dy / r in
  if decide (r < 7.5) then
    let F := NONBONDED_REPULSION / (r2 + 0.08) in
    (- nx * F, - ny * F)
  else
    let rep := NONBONDED_SOFT_REPULSION / r in
    let F := - rep in
    (nx * F, ny * F).

(** Lines 87-89: the soft-start factor of a bond. *)
Definition soften (bond : Bond) : R :=
  if decide (b_age bond < BOND_SOFTSTART_STEPS)%nat
  then (INR (b_age bond) + 1) / INR BOND_SOFTSTART_STEPS
  else 1.0.

(** Lines 91-94: the effective spring constant. *)
Definition k_eff (p_i p_j : Particle) (bond : Bond) : R :=
  let k := BOND_SPRING_CONSTANT * INR (b_order bond) * soften bond in
  let cooper :=
    1.0 + 0.18 * INR (length (p_bonds p_i) `min` length (p_bonds p_j)) in
  k * cooper.

Definition compute_bond_force (p_i p_j : Particle) (bond : Bond)
  : R * R * bool :=
  let dx := p_x p_j - p_x p_i in
  let dy := p_y p_j - p_y p_i in
  let '(dx, dy) := wrap dx dy in
  let r2 := dx * dx + dy * dy in
  if decide (r2 < 1e-9) then (0.0, 0.0, false) else
  let r := sqrt r2 in
  let nx := dx / r in
  let ny := dy / r in
  let stretch := r - b_length bond in
  let F_spring := k_eff p_i p_j bond * stretch in
  let dvx := p_vx p_j - p_vx p_i in
  let dvy := p_vy p_j - p_vy p_i in
  let F_damp := BOND_DAMPING * (dvx * nx + dvy * ny) * INR (b_order bond) in
  let F_total := F_spring + F_damp in
  let F_total :=
    if decide (F_total > BOND_FORCE_CAP) then BOND_FORCE_CAP
    else if decide (F_total < - BOND_FORCE_CAP) then - BOND_FORCE_CAP
    else F_total in
  let fx := nx * F_total in
  let fy := ny * F_total in
  let broken := bool_decide (r > b_length bond * BOND_BREAK_THRESHOLD) in
  (fx, fy, broken).

Definition compute_dipole_torque (p_i p_j : Particle) (dipole_vector : R * R)
  : R * R * R * R :=
  let dx := p_x p_j - p_x p_i in
  let dy := p_y p_j - p_y p_i in
  let '(dx, dy) := wrap dx dy in
  let r2 := dx * dx + dy * dy in
  if decide (r2 < 1e-9) then (0.0, 0.0, 0.0, 0.0) else
  let r := sqrt r2 in
  let nx := dx / r in
  let ny := dy / r in
  let tx := - ny in
  let ty := nx in
  let desired := dipole_vector.1 * tx + dipole_vector.2 * ty in
  let torque := desired * DIPOLE_STRENGTH in
  let fx_i := tx * torque in
  let fy_i := ty * torque in
  let fx_j := - fx_i in
  let fy_j := - fy_i in
  (fx_i, fy_i, fx_j, fy_j).

(** [p] is the particle object in slot [idx] of the particle list. *)
Definition apply_langevin (idx : nat) (temperature : R) (bond_count : nat)
    (avg_bond_order : R) : M unit :=
  let gamma := LANGEVIN_GAMMA in
  root ← liftR (math_sqrt (2.0 * gamma * temperature));
  bonding_factor ← liftR (load_global "bonding_factor");
  let sigma := root * bonding_factor in
  p ← get_particle idx;
  g ← random_gauss 0.0 sigma;
  set_particle idx (with_velocity p (p_vx p + (- gamma * p_vx p + g)) (p_vy p));;
  p ← get_particle idx;
  g ← random_gauss 0.0 sigma;
  set_particle idx (with_velocity p (p_vx p) (p_vy p + (- gamma * p_vy p + g))).

Definition rescale_velocities (temperature : R) : M unit :=
  ps ← reads particles;
  if decide (ps = []) then ret tt else
  let Ek :=
    foldl (fun acc p => acc + (p_vx p * p_vx p + p_vy p * p_vy p)) 0.0 ps in
  let T_current := Ek / INR (length ps) in
  if decide (T_current < 1e-9) then ret tt else
  scale_target ← liftR (math_sqrt (temperature / T_current));
  let scale := 1.0 + (scale_target - 1.0) * THERMOSTAT_STRENGTH in
  for_each (seq 0 (length ps)) (fun i =>
    p ← get_particle i;
    set_particle i (with_velocity p (p_vx p * scale) (p_vy p * scale))).

Definition integrate (forces : list (R * R)) (temperature : R) : M unit :=
  let dt := TIME_STEP in
  n ← reads (fun s => length (particles s));
  for_each (seq 0 n) (fun i =>
    p ← get_particle i;
    '(fx, fy) ← liftR (py_index forces i);
    let vx := p_vx p + fx * dt in
    let vy := p_vy p + fy * dt in
    let '(vx, vy) := limit_speed vx vy MAX_SPEED in
    set_particle i (with_velocity p vx vy));;
  for_each (seq 0 n) (fun i =>
    p ← get_particle i;
    let bond_count := length (p_bonds p) in
    let avg_order := if decide (bond_count = 0%nat) then 0.0 else 1.5 in
    apply_langevin i temperature bond_count avg_order);;
  rescale_velocities temperature;;
  for_each (seq 0 n) (fun i =>
    p ← get_particle i;
    let x := p_x p + p_vx p * dt in
    let y := p_y p + p_vy p * dt in
    let x :=
      if decide (x < 0) then x + WORLD_WIDTH
      else if decide (x >= WORLD_WIDTH) then x - WORLD_WIDTH
      else x in
    let y :=
      if decide (y < 0) then y + WORLD_HEIGHT
      else if decide (y >= WORLD_HEIGHT) then y - WORLD_HEIGHT
      else y in
    set_particle i (with_position p x y)).

End physics.

(** ** chemistry.py *)

Module chemistry.
Import physics.

Definition TARGET_SHELL : R := 5.
Definition VALENCE_ELECTRONS : list R := [1; 2; 3; 4; 5].

Definition ELECTRONEG : list R := [1.0; 1.6; 2.1; 2.6; 3.1].

Record Pref : Type := mkPref {
  max_bonds : Z;
  mode : string;
  prefer_multiple : bool;
  prefer_branch : bool
}.

(** The dict [TYPE_PREF]; [None] is a missing key. *)
Definition TYPE_PREF (t : nat) : option Pref :=
  match t with
  | 0%nat => Some (mkPref 1 "terminal" false false)
  | 1%nat => Some (mkPref 2 "linear" false false)
  | 2%nat => Some (mkPref 3 "branched" false true)
  | 3%nat => Some (mkPref 4 "multi" true true)
  | 4%nat => Some (mkPref 1 "inertish" false false)
  | _ => None
  end.

Definition MAX_BONDS_BASE : Z := 4.

Definition T_GEOM_MAX : R := 0.9.
Definition T_IONIC_MIN : R := 1.6.

Definition CAPTURE_RADIUS : R := 34.0.
Definition BOND_FORM_RADIUS : R := 26.0.

Definition REL_V2_BASE : R := 6.0.
Definition REL_V2_STABIL_BONUS : R := 8.0.

Definition P_BOND_BASE : R := 0.28.
Definition P_BOND_DEFICIT_GAIN : R := 0.16.
Definition P_BOND_LOW_T_BOOST : R := 0.20.
Definition P_BOND_HIGH_T_BOOST : R := 0.10.

Definition P_DISSOC_BASE : R := 0.005.
Definition P_DISSOC_HIGH_T : R := 0.05.

(** [Bond.__init__] *)
Definition Bond_init (i j : nat) (bond_type : BondType) (order : nat)
    (length : R) : Bond :=
  mkBond i j bond_type order length (0.0, 0.0) None None 0.

(** One iteration of the loop of [shell_fill]. *)
Definition shell_fill_step (p_idx : nat) (fill : R) (b : Bond) : R :=
  if decide (b_i b ≠ p_idx ∧ b_j b ≠ p_idx) then fill else
  match b_type b with
  | covalent => fill + INR (b_order b)
  | ionic =>
      if decide (b_acceptor b = Some p_idx) then fill + INR (b_order b)
      else if decide (b_donor b = Some p_idx) then fill - INR (b_order b)
      else fill
  | metallic => fill + 0.5 * INR (b_order b)
  end.

Definition shell_fill (p_idx : nat) (particles : list Particle)
    (bonds : list Bond) : Res R :=
  p ← py_index particles p_idx;
  fill ← py_index VALENCE_ELECTRONS (p_type p);
  Ok (foldl (shell_fill_step p_idx) fill bonds).

Definition shell_deficit (p_idx : nat) (particles : list Particle)
    (bonds : list Bond) : Res R :=
  fill ← shell_fill p_idx particles bonds;
  Ok (Rmax 0.0 (TARGET_SHELL - fill)).

Definition dynamic_max_bonds (p_idx : nat) (particles : list Particle)
    (bonds : list Bond) : Res Z :=
  p ← py_index particles p_idx;
  let base :=
    match TYPE_PREF (p_type p) with
    | Some pref => max_bonds pref
    | None => MAX_BONDS_BASE
    end in
  d ← shell_deficit p_idx particles bonds;
  let extra := Zceil (d * 0.7) in
  Ok (0 `max` (5 `min` (base + extra)))%Z.

Definition classify_bond_type_temp (p_i p_j : Particle) (temperature : R)
  : Res BondType :=
  e_i ← py_index ELECTRONEG (p_type p_i);
  e_j ← py_index ELECTRONEG (p_type p_j);
  let diff := Rabs (e_i - e_j) in
  if decide (temperature <= T_GEOM_MAX) then
    Ok (if decide (diff < 1.6) then covalent else ionic)
  else if decide (temperature >= T_IONIC_MIN) then
    Ok (if decide (diff > 0.9) then ionic else metallic)
  else if decide (diff < 0.35) then Ok metallic
  else if decide (diff < 1.2) then Ok covalent
  else Ok ionic.

Definition dipole_from_EN (p_i p_j : Particle) : Res (R * R) :=
  e1 ← py_index ELECTRONEG (p_type p_i);
  e2 ← py_index ELECTRONEG (p_type p_j);
  let dx := p_x p_j - p_x p_i in
  let dy := p_y p_j - p_y p_i in
  let '(dx, dy) := wrap dx dy in
  let r2 := dx * dx + dy * dy in
  if decide (r2 < 1e-9) then Ok (0.0, 0.0) else
  let r := sqrt r2 in
  let nx := dx / r in
  let ny := dy / r in
  Ok (if decide (e2 > e1) then (nx, ny) else (- nx, - ny)).

Definition prebond_damp (i j : nat) (temperature : R) : M unit :=
  p_i ← get_particle i;
  p_j ← get_particle j;
  di ← (fun s => (s, shell_deficit i (particles s) (bonds s)));
  dj ← (fun s => (s, shell_deficit j (particles s) (bonds s)));
  if decide (di <= 0 ∧ dj <= 0) then ret tt else
  let dx := p_x p_j - p_x p_i in
  let dy := p_y p_j - p_y p_i in
  let '(dx, dy) := wrap dx dy in
  let r2 := dx * dx + dy * dy in
  if decide (r2 > CAPTURE_RADIUS * CAPTURE_RADIUS) then ret tt else
  let deficit_factor := Rmin 1.0 ((di + dj) / 5.0) in
  let temp_factor := if decide (temperature <= T_GEOM_MAX) then 1.0 else 0.6 in
  let capture := 0.25 * deficit_factor * temp_factor in
  let rvx := p_vx p_j - p_vx p_i in
  let rvy := p_vy p_j - p_vy p_i in
  p ← get_particle i;
  set_particle i (with_velocity p (p_vx p + rvx * capture * 0.5)
                                  (p_vy p + rvy * capture * 0.5));;
  p ← get_particle j;
  set_particle j (with_velocity p (p_vx p - rvx * capture * 0.5)
                                  (p_vy p - rvy * capture * 0.5)).

Definition pref_flag (f : Pref → bool) (t : nat) : bool :=
  match TYPE_PREF t with Some pref => f pref | None => false end.

(** Lines 187-200: the order of a new bond. *)
Definition choose_order (bond_type : BondType) (temperature di dj : R)
    (prefer_multi : bool) : M nat :=
  if decide (bond_type = covalent) then
    order ←
      (if decide (temperature <= T_GEOM_MAX ∧ di + dj >= 3) then
         let base_prob2 := if prefer_multi then 0.35 + 0.20 else 0.35 in
         u ← random_random;
         ret (if decide (u < base_prob2) then 2%nat else 1%nat)
       else ret 1%nat);
    if decide (temperature <= T_GEOM_MAX ∧ di + dj >= 5 ∧ order = 2%nat) then
      let base_prob3 := if prefer_multi then 0.18 else 0.08 in
      u ← random_random;
      ret (if decide (u < base_prob3) then 3%nat else order)
    else ret order
  else ret 1%nat.

Definition try_form_bond (i j : nat) (temperature : R) : M bool :=
  p_i ← get_particle i;
  p_j ← get_particle j;
  max_i ← (fun s => (s, dynamic_max_bonds i (particles s) (bonds s)));
  if decide (Z.of_nat (length (p_bonds p_i)) >= max_i)%Z then ret false else
  max_j ← (fun s => (s, dynamic_max_bonds j (particles s) (bonds s)));
  if decide (Z.of_nat (length (p_bonds p_j)) >= max_j)%Z then ret false else
  di ← (fun s => (s, shell_deficit i (particles s) (bonds s)));
  dj ← (fun s => (s, shell_deficit j (particles s) (bonds s)));
  if decide (di <= 0 ∧ dj <= 0) then ret false else
  let dx := p_x p_j - p_x p_i in
  let dy := p_y p_j - p_y p_i in
  let '(dx, dy) := wrap dx dy in
  let r2 := dx * dx + dy * dy in
  if decide (r2 > BOND_FORM_RADIUS * BOND_FORM_RADIUS) then ret false else
  let rvx := p_vx p_j - p_vx p_i in
  let rvy := p_vy p_j - p_vy p_i in
  let relv2 := rvx * rvx + rvy * rvy in
  let stabil_bonus := REL_V2_STABIL_BONUS * (di + dj) / 3.5 in
  let relv2_limit := REL_V2_BASE * temperature + stabil_bonus in
  if decide (relv2 > relv2_limit) then ret false else
  let p_form := P_BOND_BASE + P_BOND_DEFICIT_GAIN * (di + dj) in
  let p_form :=
    if decide (temperature <= T_GEOM_MAX) then p_form + P_BOND_LOW_T_BOOST
    else if decide (temperature >= T_IONIC_MIN) then p_form + P_BOND_HIGH_T_BOOST
    else p_form in
  let p_form :=
    if pref_flag prefer_branch (p_type p_i) || pref_flag prefer_branch (p_type p_j)
    then p_form + 0.08 else p_form in
  u ← random_random;
  if decide (u > Rmin 0.97 p_form) then ret false else
  bond_type ← liftR (classify_bond_type_temp p_i p_j temperature);
  let prefer_multi :=
    pref_flag prefer_multiple (p_type p_i)
    || pref_flag prefer_multiple (p_type p_j) in
  order ← choose_order bond_type temperature di dj prefer_multi;
  let r := sqrt r2 in
  let length :=
    match bond_type with
    | covalent => Rmax 12.5 (Rmin 18.0 r)
    | ionic => Rmax 14.0 (Rmin 21.0 r)
    | metallic => Rmax 15.0 (Rmin 22.0 r)
    end in
  let b := Bond_init i j bond_type order length in
  dipole ← liftR (dipole_from_EN p_i p_j);
  '(acceptor, donor) ← liftR (
    if decide (bond_type = ionic) then
      e_i ← py_index ELECTRONEG (p_type p_i);
      e_j ← py_index ELECTRONEG (p_type p_j);
      Ok (if decide (e_i > e_j) then (Some i, Some j) else (Some j, Some i))
    else Ok (None, None));
  let b := mkBond (b_i b) (b_j b) (b_type b) (b_order b) (b_length b) dipole
                  donor acceptor (b_age b) in
  modify (fun s => set_bonds (bonds s ++ [b]) s);;
  p ← get_particle i;
  set_particle i (with_bonds p (p_bonds p ++ [j]));;
  p ← get_particle j;
  set_particle j (with_bonds p (p_bonds p ++ [i]));;
  ret true.

Definition try_break_bond (bond : Bond) (particles : list Particle)
    (temperature : R) : Res bool :=
  p_i ← py_index particles (b_i bond);
  p_j ← py_index particles (b_j bond);
  let dx := p_x p_j - p_x p_i in
  let dy := p_y p_j - p_y p_i in
  let '(dx, dy) := wrap dx dy in
  let r2 := dx * dx + dy * dy in
  let r := sqrt r2 in
  if decide (r > b_length bond * BOND_BREAK_THRESHOLD
                 * (1.0 + 0.2 * (INR (b_order bond) - 1)))
  then Ok true else
  let rvx := p_vx p_j - p_vx p_i in
  let rvy := p_vy p_j - p_vy p_i in
  let relv2 := rvx * rvx + rvy * rvy in
  let base := if decide (b_type bond = covalent) then 18.0 else 12.0 in
  let base :=
    if decide (temperature >= T_IONIC_MIN ∧ b_type bond ≠ covalent)
    then base * 0.7 else base in
  let cluster_factor :=
    1.0 + 0.2 * INR (length (p_bonds p_i) `min` length (p_bonds p_j)) in
  let base := base * cluster_factor in
  if decide (relv2 > base * temperature * INR (b_order bond))
  then Ok true else Ok false.

(** The loop of [remove_bond_between]: pop the first matching bond. *)
Fixpoint pop_first_between (i j : nat) (bonds : list Bond) : list Bond :=
  match bonds with
  | [] => []
  | b :: bonds' =>
      if decide ((b_i b = i ∧ b_j b = j) ∨ (b_i b = j ∧ b_j b = i))
      then bonds'
      else b :: pop_first_between i j bonds'
  end.

Definition remove_bond_between (i j : nat) : M unit :=
  modify (fun s => set_bonds (pop_first_between i j (bonds s)) s);;
  p ← get_particle i;
  (if decide (j ∈ p_bonds p)
   then set_particle i (with_bonds p (list_remove_first j (p_bonds p)))
   else ret tt);;
  p ← get_particle j;
  (if decide (i ∈ p_bonds p)
   then set_particle j (with_bonds p (list_remove_first i (p_bonds p)))
   else ret tt).

Definition reaction_addition (i j : nat) (temperature : R) : M bool :=
  p_i ← get_particle i;
  p_j ← get_particle j;
  if xorb (bool_decide (0 < length (p_bonds p_i))%nat)
          (bool_decide (0 < length (p_bonds p_j))%nat)
  then try_form_bond i j temperature
  else ret false.

(** One iteration of the search loop of [reaction_substitution]; the
    accumulator is [(weakest_k, weakest_en)]. *)
Definition weakest_step (particles : list Particle) (k : nat)
    (acc : option nat * R) : Res (option nat * R) :=
  p_k ← py_index particles k;
  e_k ← py_index ELECTRONEG (p_type p_k);
  Ok (if decide (e_k < acc.2) then (Some k, e_k) else acc).

Definition reaction_substitution (i j : nat) (temperature : R) : M bool :=
  if decide (temperature < 1.05) then ret false else
  p_i ← get_particle i;
  p_j ← get_particle j;
  if decide (length (p_bonds p_i) = 0%nat) then ret false else
  e_j ← liftR (py_index ELECTRONEG (p_type p_j));
  '(weakest_k, weakest_en) ←
    (fun s => (s, fold_res (p_bonds p_i) (None, 999)
                    (weakest_step (particles s))));
  match weakest_k with
  | None => ret false
  | Some weakest_k =>
      if decide (e_j > weakest_en + 0.10) then
        remove_bond_between i weakest_k;;
        try_form_bond i j temperature
      else ret false
  end.

Definition reaction_dissociation (i : nat) (temperature : R) : M bool :=
  p_i ← get_particle i;
  if decide (length (p_bonds p_i) <= 1)%nat then ret false else
  let prob := P_DISSOC_BASE in
  let prob :=
    if decide (temperature >= T_IONIC_MIN)
    then prob + P_DISSOC_HIGH_T * (temperature - T_IONIC_MIN)
    else prob in
  let prob := prob / (1.0 + 0.6 * (INR (length (p_bonds p_i)) - 1)) in
  u ← random_random;
  if decide (u < Rmin 0.5 prob) then
    k ← random_choice (p_bonds p_i);
    remove_bond_between i k;;
    ret true
  else ret false.

End chemistry.

(** ** sim_core.py *)

Module Simulation.
Import physics chemistry.

Definition get_bond (idx : nat) : M Bond :=
  fun s => (s, py_index (bonds s) idx).

Definition set_bond (idx : nat) (b : Bond) : M unit :=
  modify (fun s => set_bonds (<[idx := b]> (bonds s)) s).

(** [Particle.__init__] *)
Definition Particle_init (x y vx vy : R) (p_type : nat) : Particle :=
  mkParticle x y vx vy p_type [].

Definition _create_particles (n_per_type : nat) : M unit :=
  nt ← reads n_types;
  for_each (seq 0 nt) (fun t =>
    for_each (seq 0 n_per_type) (fun _ =>
      x ← random_uniform 0 WORLD_WIDTH;
      y ← random_uniform 0 WORLD_HEIGHT;
      vx ← random_uniform (-2.2) 2.2;
      vy ← random_uniform (-2.2) 2.2;
      modify (fun s =>
        set_particles (particles s ++ [Particle_init x y vx vy t]) s))).

(** [Simulation.__init__]: the state the constructor leaves, and its
    outcome. *)
Definition init (n_types particles_per_type : nat) (temperature : R)
    (rng : Rng) : Sim * Res unit :=
  _create_particles particles_per_type
    (mkSim temperature n_types [] [] (SpatialGrid.init 42.0) rng 0).

Definition _process_reactions (i j : nat) (T : R) : M unit :=
  p_j ← get_particle j;
  p_i ← get_particle i;
  let dx := p_x p_j - p_x p_i in
  let dy := p_y p_j - p_y p_i in
  let '(dx, dy) := wrap dx dy in
  let r2 := dx * dx + dy * dy in
  if decide (r2 > 34.0 * 34.0) then ret tt else
  prebond_damp i j T;;
  formed ← try_form_bond i j T;
  if (formed : bool) then ret tt else
  reaction_addition i j T;;
  reaction_substitution i j T;;
  reaction_dissociation i T;;
  ret tt.

Definition target_angles (k : nat) : option R :=
  match k with
  | 2%nat => Some PI
  | 3%nat => Some (2.0 * PI / 3.0)
  | 4%nat => Some (109.5 * PI / 180.0)
  | _ => None
  end.

(** The unit vectors towards the bonded neighbours of [p] (lines 183-193). *)
Definition bond_directions (parts : list Particle) (p : Particle)
  : Res (list (R * R * nat)) :=
  fold_res (p_bonds p) [] (fun j vecs =>
    pj ← py_index parts j;
    let dx := p_x pj - p_x p in
    let dy := p_y pj - p_y p in
    let '(dx, dy) := wrap dx dy in
    let r2 := dx * dx + dy * dy in
    if decide (r2 < 1e-6) then Ok vecs else
    let r := sqrt r2 in
    Ok (vecs ++ [(dx / r, dy / r, j)])).

(** The body of the double loop over [a < b] (lines 200-210). *)
Definition angle_force (i : nat) (strength target : R) (va vb : R * R * nat)
    (f : list R * list R) : Res (list R * list R) :=
  let '(ax, ay, ja) := va in
  let '(bx, by', jb) := vb in
  let dot := Rmax (-1.0) (Rmin 1.0 (ax * bx + ay * by')) in
  let ang := acos dot in
  let diff := ang - target in
  let txa := - ay in
  let tya := ax in
  let txb := - by' in
  let tyb := bx in
  fx ← list_iadd f.1 i (- strength * diff * (txa + txb));
  fy ← list_iadd f.2 i (- strength * diff * (tya + tyb));
  Ok (fx, fy).

Fixpoint angle_pairs (i : nat) (strength target : R)
    (vecs : list (R * R * nat)) (f : list R * list R)
  : Res (list R * list R) :=
  match vecs with
  | [] => Ok f
  | va :: rest =>
      f ← fold_res rest f (angle_force i strength target va);
      angle_pairs i strength target rest f
  end.

Definition _apply_lowT_geometry_forces (parts : list Particle)
    (fx fy : list R) (T : R) : Res (list R * list R) :=
  let strength := 0.015 * (1.0 - T) in
  fold_res (seq 0 (length parts)) (fx, fy) (fun i f =>
    p ← py_index parts i;
    let k := length (p_bonds p) in
    if decide (k < 2 ∨ 4 < k)%nat then Ok f else
    match target_angles k with
    | None => Ok f
    | Some target =>
        vecs ← bond_directions parts p;
        if decide (length vecs < 2)%nat then Ok f else
        angle_pairs i strength target vecs f
    end).

(** The body of the inner loop of the pair pass (lines 93-105), for one
    index [j] yielded by the neighbour query of particle [i]. *)
Definition pair_body (i : nat) (T : R) (j : nat) (f : list R * list R)
  : M (list R * list R) :=
  if decide (j <= i)%nat then ret f else
  p_i ← get_particle i;
  if decide (j ∈ p_bonds p_i) then ret f else
  p_j ← get_particle j;
  let nb := compute_nonbonded_force p_i p_j in
  fx ← liftR (list_iadd f.1 i nb.1);
  fy ← liftR (list_iadd f.2 i nb.2);
  fx ← liftR (list_iadd fx j (- nb.1));
  fy ← liftR (list_iadd fy j (- nb.2));
  _process_reactions i j T;;
  ret (fx, fy).

(** The pair pass (lines 91-105). *)
Definition pair_pass (n : nat) (T : R) (f : list R * list R)
  : M (list R * list R) :=
  for_fold (seq 0 n) f (fun i f =>
    p_i ← get_particle i;
    g ← reads grid;
    for_fold (SpatialGrid.neighbors g (p_x p_i) (p_y p_i)) f (pair_body i T)).

(** The body of the bond pass (lines 109-127). *)
Definition bond_body (T : R) (b_idx : nat)
    (acc : list R * list R * list nat) : M (list R * list R * list nat) :=
  let '(fx, fy, bonds_to_break) := acc in
  b ← get_bond b_idx;
  let b := with_age b (b_age b + 1) in
  set_bond b_idx b;;
  let i := b_i b in
  let j := b_j b in
  p_i ← get_particle i;
  p_j ← get_particle j;
  let '(fbx, fby, broken_phys) := compute_bond_force p_i p_j b in
  fx ← liftR (list_iadd fx i fbx);
  fy ← liftR (list_iadd fy i fby);
  fx ← liftR (list_iadd fx j (- fbx));
  fy ← liftR (list_iadd fy j (- fby));
  let '(tfx_i, tfy_i, tfx_j, tfy_j) :=
    compute_dipole_torque p_i p_j (b_dipole b) in
  fx ← liftR (list_iadd fx i tfx_i);
  fy ← liftR (list_iadd fy i tfy_i);
  fx ← liftR (list_iadd fx j tfx_j);
  fy ← liftR (list_iadd fy j tfy_j);
  broken ←
    (if broken_phys then ret true
     else fun s => (s, try_break_bond b (particles s) T));
  ret (fx, fy, if (broken : bool) then bonds_to_break ++ [b_idx] else bonds_to_break).

(** Lines 129-131. *)
Definition break_pass (bonds_to_break : list nat) : M unit :=
  for_each (reverse bonds_to_break) (fun b_idx =>
    b ← get_bond b_idx;
    remove_bond_between (b_i b) (b_j b)).

Definition rebuild_grid (n : nat) : M unit :=
  modify (fun s => set_grid (SpatialGrid.clear (grid s)) s);;
  for_each (seq 0 n) (fun i =>
    p ← get_particle i;
    modify (fun s =>
      set_grid (SpatialGrid.insert (grid s) i (p_x p) (p_y p)) s)).

Definition step : M unit :=
  n ← reads (fun s => length (particles s));
  T ← reads temperature;
  rebuild_grid n;;
  let fx := replicate n 0.0 in
  let fy := replicate n 0.0 in
  '(fx, fy) ← pair_pass n T (fx, fy);
  nb ← reads (fun s => length (bonds s));
  '(fx, fy, bonds_to_break) ← for_fold (seq 0 nb) (fx, fy, []) (bond_body T);
  break_pass bonds_to_break;;
  '(fx, fy) ←
    (if decide (T < 1.0)
     then fun s => (s, _apply_lowT_geometry_forces (particles s) fx fy T)
     else ret (fx, fy));
  let forces := zip fx fy in
  integrate forces T.

Definition get_particles (s : Sim) : list Particle := particles s.

Definition get_bonds (s : Sim) : list Bond := bonds s.

Definition increase_temperature (amount : R) : M unit :=
  modify (fun s => set_temperature (temperature s + amount) s).

Definition decrease_temperature (amount : R) : M unit :=
  modify (fun s => set_temperature (Rmax 0.05 (temperature s - amount)) s).

End Simulation.

(** * Vocabulary of the properties *)

Definition half_W : R := physics.WORLD_WIDTH * 0.5.
Definition half_H : R := physics.WORLD_HEIGHT * 0.5.

(** The squared length of a displacement. *)
Definition norm2 (d : R * R) : R := d.1 * d.1 + d.2 * d.2.

(** The periodic image of a displacement shifted by [k] widths and [m]
    heights. *)
Definition image (dx dy : R) (k m : Z) : R * R :=
  (dx + IZR k * physics.WORLD_WIDTH, dy + IZR m * physics.WORLD_HEIGHT).

(** The wrapped distance between two particles, as every pairwise routine
    computes it. *)
Definition wrapped_distance (p_i p_j : Particle) : R :=
  sqrt (norm2 (physics.wrap (p_x p_j - p_x p_i) (p_y p_j - p_y p_i))).

(** The particle types for which the tables [VALENCE_ELECTRONS] and
    [ELECTRONEG] have an entry. *)
Definition valid_type (p : Particle) : Prop := (p_type p < 5)%nat.

(** The indices stored in one cell of the grid. *)
Definition cell_list (g : SpatialGrid.t) (c : Z * Z) : list nat :=
  default [] (SpatialGrid.grid g !! c).

(** The cell of [c'] lies in the 3x3 block of cells centred on [c]. *)
Definition in_block (c c' : Z * Z) : Prop :=
  (-1 <= c'.1 - c.1 <= 1)%Z ∧ (-1 <= c'.2 - c.2 <= 1)%Z.

(** The pair loop body as the specification words it. *)
Definition pair_body_as_specified (i : nat) (T : R) (j : nat)
    (f : list R * list R) : M (list R * list R) :=
  if decide (j <= i)%nat then ret f else
  p_i ← get_particle i;
  if decide (j ∈ p_bonds p_i) then
    Simulation._process_reactions i j T;;
    ret f
  else
    p_j ← get_particle j;
    let nb := physics.compute_nonbonded_force p_i p_j in
    fx ← liftR (list_iadd f.1 i nb.1);
    fy ← liftR (list_iadd f.2 i nb.2);
    fx ← liftR (list_iadd fx j (- nb.1));
    fy ← liftR (list_iadd fy j (- nb.2));
    Simulation._process_reactions i j T;;
    ret (fx, fy).

(** The kinetic energy sum and the kinetic temperature of a particle list,
    as [rescale_velocities] computes them. *)
Definition kinetic_energy (ps : list Particle) : R :=
  foldl (fun acc p => acc + (p_vx p * p_vx p + p_vy p * p_vy p)) 0.0 ps.

Definition kinetic_temperature (ps : list Particle) : R :=
  kinetic_energy ps / INR (length ps).

(** A particle with its velocity scaled by [k]. *)
Definition scale_velocity (k : R) (p : Particle) : Particle :=
  with_velocity p (p_vx p * k) (p_vy p * k).

(** The particle [q] is the particle [p] with, possibly, another
    velocity. *)
Definition same_but_velocity (p q : Particle) : Prop :=
  p_x q = p_x p ∧ p_y q = p_y p ∧ p_type q = p_type p ∧ p_bonds q = p_bonds p.

(** A particle after the force [f] has acted on it for one time step and
    its speed has been limited. *)
Definition accelerate (p : Particle) (f : R * R) : Particle :=
  let v := physics.limit_speed (p_vx p + f.1 * physics.TIME_STEP)
             (p_vy p + f.2 * physics.TIME_STEP) physics.MAX_SPEED in
  with_velocity p v.1 v.2.

(** ** Invariants and reachable states *)

(** Every adjacency list has at most five entries. *)
Definition bounded_valence (s : Sim) : Prop :=
  Forall (fun p => (length (p_bonds p) <= 5)%nat) (particles s).

(** A computation keeps a property of the state, whether it returns or
    raises. *)
Definition preserves {A : Type} (I : Sim → Prop) (m : M A) : Prop :=
  ∀ s : Sim, I s → I (m s).1.

(** The operations of [chemistry.py] that change the state. *)
Inductive ChemOp : Type :=
| PrebondDamp (i j : nat) (T : R)
| TryFormBond (i j : nat) (T : R)
| ReactionAddition (i j : nat) (T : R)
| ReactionSubstitution (i j : nat) (T : R)
| ReactionDissociation (i : nat) (T : R)
| RemoveBondBetween (i j : nat).

Definition run_op (op : ChemOp) : M unit :=
  match op with
  | PrebondDamp i j T => chemistry.prebond_damp i j T
  | TryFormBond i j T => chemistry.try_form_bond i j T;; mret tt
  | ReactionAddition i j T => chemistry.reaction_addition i j T;; mret tt
  | ReactionSubstitution i j T => chemistry.reaction_substitution i j T;; mret tt
  | ReactionDissociation i T => chemistry.reaction_dissociation i T;; mret tt
  | RemoveBondBetween i j => chemistry.remove_bond_between i j
  end.

(** The operations that take a pair are applied to two different
    particles, as [step] does ([i < j]). *)
Definition on_distinct_particles (op : ChemOp) : Prop :=
  match op with
  | PrebondDamp i j _ | TryFormBond i j _ | ReactionAddition i j _
  | ReactionSubstitution i j _ | RemoveBondBetween i j => i ≠ j
  | ReactionDissociation _ _ => True
  end.

(** The states of a run: what the constructor leaves, and what a call of
    [step], a temperature command or a chemistry operation leaves behind,
    whether the call returns or raises. *)
Inductive reachable : Sim → Prop :=
| reachable_init (n_types per_type : nat) (T : R) (rng : Rng) :
    reachable (Simulation.init n_types per_type T rng).1
| reachable_step (s : Sim) :
    reachable s → reachable (Simulation.step s).1
| reachable_increase (s : Sim) (amount : R) :
    reachable s → reachable (Simulation.increase_temperature amount s).1
| reachable_decrease (s : Sim) (amount : R) :
    reachable s → reachable (Simulation.decrease_temperature amount s).1
| reachable_chem (s : Sim) (op : ChemOp) :
    reachable s → on_distinct_particles op → reachable (run_op op s).1.

(** The ledger and the adjacency lists are the given ones. *)
Definition structure_is (B : list Bond) (L : list (list nat)) (s : Sim) : Prop :=
  bonds s = B ∧ p_bonds <$> particles s = L.

(** The consistency of the ledger and the adjacency lists: the adjacency
    list of a particle holds exactly the partners the ledger gives it, the
    ledger has at most one bond for an unordered pair, and no adjacency list
    has duplicates. *)
Definition same_pair (x y : Bond) : Prop :=
  (b_i x = b_i y ∧ b_j x = b_j y) ∨ (b_i x = b_j y ∧ b_j x = b_i y).

(** The bond [b] joins the particles [i] and [j], in either order: the
    test of the loop of [remove_bond_between]. *)
Definition joins (i j : nat) (b : Bond) : Prop :=
  (b_i b = i ∧ b_j b = j) ∨ (b_i b = j ∧ b_j b = i).

Definition bonded_in_ledger (bs : list Bond) (i j : nat) : Prop :=
  ∃ b : Bond, b ∈ bs ∧ ((b_i b = i ∧ b_j b = j) ∨ (b_i b = j ∧ b_j b = i)).

(** No two bonds of the list join the same pair of particles. *)
Fixpoint distinct_pairs (bs : list Bond) : Prop :=
  match bs with
  | [] => True
  | b :: bs' => (∀ y : Bond, y ∈ bs' → ¬ same_pair b y) ∧ distinct_pairs bs'
  end.

Definition ledger_consistent (s : Sim) : Prop :=
  (∀ (i j : nat) (p : Particle),
      particles s !! i = Some p →
      (j ∈ p_bonds p ↔ bonded_in_ledger (bonds s) i j)) ∧
  (∀ (a b : nat) (x y : Bond),
      a ≠ b → bonds s !! a = Some x → bonds s !! b = Some y →
      ¬ same_pair x y) ∧
  (∀ (i : nat) (p : Particle),
      particles s !! i = Some p → NoDup (p_bonds p)).

(** ** Well-formed states and computations that return *)

(** The position and the type of every particle. *)
Definition placement (s : Sim) : list (R * R * nat) :=
  (fun p => (p_x p, p_y p, p_type p)) <$> particles s.

(** Every particle type has an entry in the tables of [chemistry.py], and
    every index stored in an adjacency list, in the ledger or in the grid
    is the index of a particle. *)
Definition well_formed (s : Sim) : Prop :=
  let n := length (particles s) in
  Forall (fun p => valid_type p ∧ Forall (fun k => (k < n)%nat) (p_bonds p))
         (particles s) ∧
  Forall (fun b => (b_i b < n)%nat ∧ (b_j b < n)%nat) (bonds s) ∧
  ∀ (c : Z * Z) (j : nat), j ∈ cell_list (grid s) c → (j < n)%nat.

(** A well-formed state with the placement [L] whose ledger satisfies
    [K]. *)
Definition engine_inv (L : list (R * R * nat)) (K : list Bond → Prop)
    (s : Sim) : Prop :=
  placement s = L ∧ well_formed s ∧ K (bonds s).

(** From every state that satisfies [P] the computation [m] returns: it
    raises nothing, leaves a state that satisfies [Q] and gives a value that
    satisfies [φ]. *)
Definition returns {A : Type} (P : Sim → Prop) (m : M A) (Q : Sim → Prop)
    (φ : A → Prop) : Prop :=
  ∀ s : Sim, P s → ∃ (s' : Sim) (a : A), m s = (s', Ok a) ∧ Q s' ∧ φ a.

(** From every state that satisfies [P] the computation [m] raises [e],
    leaving a state that satisfies [Q]. *)
Definition raises {A : Type} (P : Sim → Prop) (m : M A) (Q : Sim → Prop)
    (e : exn) : Prop :=
  ∀ s : Sim, P s → ∃ s' : Sim, m s = (s', Raise e) ∧ Q s'.

(** No condition on the ledger. *)
Definition any_ledger : list Bond → Prop := fun _ => True.

(** A strictly decreasing list of indices. *)
Fixpoint descending (l : list nat) : Prop :=
  match l with
  | [] => True
  | a :: l' => Forall (fun b => (b < a)%nat) l' ∧ descending l'
  end.


(** The force accumulators have one entry for each of [n] particles. *)
Definition forces_ok (n : nat) (f : list R * list R) : Prop :=
  length f.1 = n ∧ length f.2 = n.

(** The accumulators of the bond pass before the bond [k]: the forces, and
    the indices of the bonds marked so far, all below [k] and in increasing
    order. *)
Definition marks_ok (n k : nat) (acc : list R * list R * list nat) : Prop :=
  length acc.1.1 = n ∧ length acc.1.2 = n ∧
  Forall (fun b => (b < k)%nat) acc.2 ∧ descending (reverse acc.2).

(** What neither the engine nor the chemistry ever writes: the temperature,
    the number of types and the random source. *)
Definition controls (s : Sim) : R * nat * Rng :=
  (temperature s, n_types s, rng s).

(** The particle that [_create_particles] makes of the four draws that
    start at position [pos] of the random source. *)
Definition drawn_particle (rng : Rng) (pos t : nat) : Particle :=
  Simulation.Particle_init
    (0 + (physics.WORLD_WIDTH - 0) * rng_uniform rng pos)
    (0 + (physics.WORLD_HEIGHT - 0) * rng_uniform rng (S pos))
    ((-2.2) + (2.2 - (-2.2)) * rng_uniform rng (S (S pos)))
    ((-2.2) + (2.2 - (-2.2)) * rng_uniform rng (S (S (S pos))))
    t.

(** The first [n] particles of a system with [per_type] particles of each
    type. *)
Definition created (rng : Rng) (per_type n : nat) : list Particle :=
  (fun i => drawn_particle rng (4 * i) (i / per_type)) <$> seq 0 n.

(** The state of the constructor after it has made [n] particles. *)
Definition under_construction (T : R) (n_types per_type : nat) (rng : Rng)
    (n : nat) : Sim :=
  mkSim T n_types (created rng per_type n) [] (SpatialGrid.init 42.0) rng
    (4 * n).

(** The states of a run that starts in [s0]: calls of [step], whether they
    return or raise, and temperature commands that keep the temperature
    non-negative. *)
Inductive run_from (s0 : Sim) : Sim → Prop :=
| run_start : run_from s0 s0
| run_step (s : Sim) :
    run_from s0 s → run_from s0 (Simulation.step s).1
| run_increase (s : Sim) (amount : R) :
    run_from s0 s → 0 <= temperature s + amount →
    run_from s0 (Simulation.increase_temperature amount s).1
| run_decrease (s : Sim) (amount : R) :
    run_from s0 s → run_from s0 (Simulation.decrease_temperature amount s).1.

(** ** Scenarios *)

(** A bonded pair within capture range (claim C3). *)
Module bonded_pair.
Definition p_0 : Particle := mkParticle 100 100 0 0 4 [1%nat].
Definition p_1 : Particle := mkParticle 115 100 1 0 0 [0%nat].
Definition b_01 : Bond := mkBond 0 1 covalent 1 15.0 (-1, 0) None None 3.
Definition draws : Rng := mkRng (fun _ => 0) (fun _ => 0) (fun _ => 0%nat).
Definition cells : SpatialGrid.t :=
  SpatialGrid.mk 42.0 (<[(2, 2)%Z := [0%nat; 1%nat]]> ∅).
Definition s : Sim := mkSim 0.5 5 [p_0; p_1] [b_01] cells draws 0.
Definition f : list R * list R := ([0; 0], [0; 0]).
(** The state of [s] after the pre-bond damping of the pair. *)
Definition s_damped : Sim :=
  mkSim 0.5 5 [with_velocity p_0 0.075 0; with_velocity p_1 0.925 0] [b_01]
    cells draws 0.
End bonded_pair.

(** Three particles of type 0 within formation radius of particle 0, at rest
    and cold; the draws place them and let every formation succeed with
    order 2 (claim C5). *)
Module overfull.
Definition draws : Rng :=
  mkRng (fun n => nth n [0.025; 0.025; 0.5; 0.5;
                         0.0375; 0.025; 0.5; 0.5;
                         0.025; 0.0375; 0.5; 0.5;
                         0; 0; 0.9;
                         0; 0; 0.9] 0)
        (fun _ => 0) (fun _ => 0%nat).
Definition p_0 : Particle := mkParticle 20 20 0 0 0 [].
Definition p_1 : Particle := mkParticle 30 20 0 0 0 [].
Definition p_2 : Particle := mkParticle 20 30 0 0 0 [].
Definition b_01 : Bond := mkBond 0 1 covalent 2 12.5 (-1, 0) None None 0.
Definition b_02 : Bond := mkBond 0 2 covalent 2 12.5 (0, -1) None None 0.
(** The state the constructor leaves. *)
Definition s_0 : Sim :=
  mkSim 0.5 1 [p_0; p_1; p_2] [] (SpatialGrid.init 42.0) draws 12.
(** After [try_form_bond(0, 1)]. *)
Definition s_1 : Sim :=
  mkSim 0.5 1 [with_bonds p_0 [1%nat]; with_bonds p_1 [0%nat]; p_2] [b_01]
    (SpatialGrid.init 42.0) draws 15.
(** After [try_form_bond(0, 2)]. *)
Definition s_2 : Sim :=
  mkSim 0.5 1
    [with_bonds p_0 [1%nat; 2%nat]; with_bonds p_1 [0%nat];
     with_bonds p_2 [0%nat]]
    [b_01; b_02] (SpatialGrid.init 42.0) draws 18.
End overfull.

(** Three particles of types 0, 1 and 2 in one grid cell, at rest, at
    temperature 1.2: particle 0 is within formation radius of the other
    two, which are out of capture range of each other (claim C2). *)
Module substitution.
Definition draws : Rng :=
  mkRng (fun n => nth n [0.02625; 0.025; 0.5; 0.5;
                         0.0025; 0.025; 0.5; 0.5;
                         0.05; 0.025; 0.5; 0.5;
                         0; 0.99; 0; 0; 0.99] 0)
        (fun _ => 0) (fun _ => 0%nat).
Definition cells : SpatialGrid.t :=
  SpatialGrid.mk 42.0 (<[(0, 0)%Z := [0%nat; 1%nat; 2%nat]]> ∅).
(** The particles with the given adjacency lists. *)
Definition parts (adj_0 adj_1 adj_2 : list nat) : list Particle :=
  [mkParticle 21 20 0 0 0 adj_0; mkParticle 2 20 0 0 1 adj_1;
   mkParticle 40 20 0 0 2 adj_2].
Definition b_01 : Bond := mkBond 0 1 covalent 1 18 (-1, 0) None None 0.
Definition b_02 (age : nat) : Bond :=
  mkBond 0 2 covalent 1 18 (1, 0) None None age.
(** The state the constructor leaves. *)
Definition s_0 : Sim :=
  mkSim 1.2 3 (parts [] [] []) [] (SpatialGrid.init 42.0) draws 12.
(** After the rebuild of the grid. *)
Definition s_grid : Sim := mkSim 1.2 3 (parts [] [] []) [] cells draws 12.
(** After the pair (0, 1): the bond 0-1 has formed. *)
Definition s_1 : Sim :=
  mkSim 1.2 3 (parts [1%nat] [0%nat] []) [b_01] cells draws 13.
(** In the pair (0, 2), after [reaction_addition]: the bond 0-2 has
    formed. *)
Definition s_2 : Sim :=
  mkSim 1.2 3 (parts [1%nat; 2%nat] [0%nat] [0%nat]) [b_01; b_02 0] cells
    draws 15.
(** In [reaction_substitution], after the removal of the bond 0-1. *)
Definition s_3 : Sim :=
  mkSim 1.2 3 (parts [2%nat] [] [0%nat]) [b_02 0] cells draws 15.
(** After [reaction_substitution]: the bond 0-2 has formed again. *)
Definition s_4 (pos : nat) (age : nat) : Sim :=
  mkSim 1.2 3 (parts [2%nat; 2%nat] [] [0%nat; 0%nat]) [b_02 age; b_02 age]
    cells draws pos.
End substitution.

(** * Properties *)

(** ** Tactics *)

(** Decide a comparison of the goal whose truth [lra] or [lia] can see. *)
Ltac decide_one :=
  match goal with
  | |- context [decide ?P] =>
      first
        [ rewrite (decide_True (P := P)) by
            (try apply conj; first [lra | lia | done])
        | rewrite (decide_False (P := P)) by
            (first [lra | lia | done | intros [? ?]; first [lra | lia | done]]) ]
  end.

Ltac split_decide :=
  repeat match goal with
         | |- context [decide ?P] => destruct (decide P)
         end.


(** ** Reasoning about the monad *)

Lemma bind_eval {A B : Type} (m : M A) (k : A → M B) (s s1 : Sim) (a : A) :
  m s = (s1, Ok a) → (m ≫= k) s = k a s1.
Proof. intros H. unfold mbind, M_bind, bind. rewrite H. reflexivity. Qed.

Lemma bind_raise {A B : Type} (m : M A) (k : A → M B) (s s1 : Sim) (e : exn) :
  m s = (s1, Raise e) → (m ≫= k) s = (s1, Raise e).
Proof. intros H. unfold mbind, M_bind, bind. rewrite H. reflexivity. Qed.

Lemma bind_Ok_inv {A B : Type} (m : M A) (k : A → M B) (s s' : Sim) (b : B) :
  (m ≫= k) s = (s', Ok b) →
  ∃ (a : A) (s1 : Sim), m s = (s1, Ok a) ∧ k a s1 = (s', Ok b).
Proof.
  unfold mbind, M_bind, bind. destruct (m s) as [s1 [a|e]]; intros H.
  - exists a, s1. split; [reflexivity | exact H].
  - discriminate H.
Qed.

(** Evaluate the leading bind of a computation applied to a state. *)
Ltac eval_bind :=
  erewrite bind_eval by
    (first [ reflexivity
           | unfold get_particle, py_index; cbn beta;
             match goal with H : _ !! _ = Some _ |- _ => rewrite H end;
             reflexivity
           | cbn beta;
             match goal with H : _ = Ok _ |- _ => rewrite H end; reflexivity ]);
  cbn beta.

(** Invert the leading bind of a hypothesis [(m ≫= k) s = (s', Ok b)] whose
    first computation only reads the state. *)
Ltac inv_read H :=
  let a := fresh "a" in
  let s1 := fresh "s" in
  let Hm := fresh "Hm" in
  apply bind_Ok_inv in H as (a & s1 & Hm & H); cbn beta in H;
  first [ unfold get_particle in Hm; injection Hm as <- Hm
        | unfold liftR in Hm; injection Hm as <- Hm
        | injection Hm as <- Hm ].

Ltac on_guard H :=
  match type of H with
  | (if decide ?P then _ else _) _ = _ => destruct (decide P)
  end.

Ltac on_pair H :=
  match type of H with
  | (let '(_, _) := ?x in _) _ = _ => destruct x
  end.

Ltac inv_bind H :=
  let a := fresh "a" in
  let s1 := fresh "s" in
  let Hm := fresh "Hm" in
  apply bind_Ok_inv in H as (a & s1 & Hm & H); cbn beta in H.


(** ** Evaluation on concrete states *)

Create HintDb program_constants.
#[global] Hint Unfold
  physics.TIME_STEP physics.MAX_SPEED physics.THERMOSTAT_STRENGTH
  physics.LANGEVIN_GAMMA physics.NONBONDED_REPULSION
  physics.NONBONDED_SOFT_REPULSION physics.NONBONDED_RANGE
  physics.BOND_SPRING_CONSTANT physics.BOND_DAMPING
  physics.BOND_BREAK_THRESHOLD physics.BOND_FORCE_CAP
  physics.DIPOLE_STRENGTH physics.WORLD_WIDTH physics.WORLD_HEIGHT
  chemistry.TARGET_SHELL chemistry.T_GEOM_MAX chemistry.T_IONIC_MIN
  chemistry.CAPTURE_RADIUS chemistry.BOND_FORM_RADIUS chemistry.REL_V2_BASE
  chemistry.REL_V2_STABIL_BONUS chemistry.P_BOND_BASE
  chemistry.P_BOND_DEFICIT_GAIN chemistry.P_BOND_LOW_T_BOOST
  chemistry.P_BOND_HIGH_T_BOOST chemistry.P_DISSOC_BASE
  chemistry.P_DISSOC_HIGH_T : program_constants.

(** The particles, bonds and draws of the scenarios below. *)
Create HintDb scenario.

(** Real arithmetic over the constants of the program, [Rmax] and [Rmin]. *)
Ltac num :=
  autounfold with scenario program_constants in *;
  cbv [advance_rng set_particles set_bonds set_grid set_temperature
       with_velocity with_position with_bonds with_age
       temperature n_types particles bonds grid rng rng_pos
       INR fst snd p_x p_y p_vx p_vy p_type p_bonds b_i b_j b_type b_order
       b_length b_age rng_uniform rng_normal rng_index nth
       chemistry.pref_flag chemistry.TYPE_PREF chemistry.prefer_branch
       chemistry.prefer_multiple chemistry.max_bonds orb] in *;
  unfold Rmax, Rmin, Rabs in *;
  repeat match goal with
         | |- context [Rle_dec ?a ?b] => destruct (Rle_dec a b)
         | H : context [Rle_dec ?a ?b] |- _ => destruct (Rle_dec a b)
         | |- context [Rcase_abs ?a] => destruct (Rcase_abs a)
         | H : context [Rcase_abs ?a] |- _ => destruct (Rcase_abs a)
         end;
  lra.

Ltac settle :=
  first [ lia | done
        | (cbn [length p_bonds with_bonds app]; lia)
        | num
        | split; settle
        | (let H := fresh in intros H; destruct H; first [lia | done | num])
        | (let H := fresh in
           intros H; repeat (apply elem_of_cons in H as [H|H]; [lia|]);
           apply elem_of_nil in H; exact H)
        | repeat constructor ].

(** Decide the first comparison of the goal. *)
Ltac decide_now :=
  match goal with
  | |- context [decide ?P] =>
      first [ rewrite (decide_True (P := P)) by settle
            | rewrite (decide_False (P := P)) by settle ]
  | |- context [bool_decide ?P] =>
      first [ rewrite (bool_decide_eq_true_2 P) by settle
            | rewrite (bool_decide_eq_false_2 P) by settle ]
  end.

Lemma wrap_near (dx dy : R) :
  - 400 <= dx <= 400 → - 400 <= dy <= 400 → physics.wrap dx dy = (dx, dy).
Proof.
  intros Hx Hy. unfold physics.wrap, physics.WORLD_WIDTH, physics.WORLD_HEIGHT.
  repeat decide_one. reflexivity.
Qed.

Lemma shell_deficit_eval (i : nat) (ps : list Particle) (bs : list Bond)
    (p : Particle) (v d : R) :
  ps !! i = Some p →
  chemistry.VALENCE_ELECTRONS !! p_type p = Some v →
  Rmax 0.0 (chemistry.TARGET_SHELL - foldl (chemistry.shell_fill_step i) v bs) = d →
  chemistry.shell_deficit i ps bs = Ok d.
Proof.
  intros Hp Hv Hd. unfold chemistry.shell_deficit, chemistry.shell_fill, py_index.
  rewrite Hp. cbn [mbind Res_bind]. rewrite Hv. cbn [mbind Res_bind].
  rewrite Hd. reflexivity.
Qed.

Lemma dynamic_max_bonds_eval (i : nat) (ps : list Particle) (bs : list Bond)
    (p : Particle) (d : R) (base extra : Z) :
  ps !! i = Some p →
  chemistry.shell_deficit i ps bs = Ok d →
  match chemistry.TYPE_PREF (p_type p) with
  | Some pref => chemistry.max_bonds pref
  | None => chemistry.MAX_BONDS_BASE
  end = base →
  IZR extra - 1 < d * 0.7 <= IZR extra →
  chemistry.dynamic_max_bonds i ps bs = Ok (0 `max` (5 `min` (base + extra)))%Z.
Proof.
  intros Hp Hd Hb He. unfold chemistry.dynamic_max_bonds, py_index.
  rewrite Hp. cbn [mbind Res_bind]. rewrite Hd. cbn [mbind Res_bind].
  rewrite Hb, (Zceil_eq extra (d * 0.7) He). reflexivity.
Qed.

(** Two states are equal when their components are; the real components
    are compared by [num]. *)
Ltac same_state :=
  autounfold with scenario;
  cbv [ret mret M_ret set_particle modify set_particles set_bonds
       set_grid set_temperature advance_rng with_velocity with_position
       with_bonds with_age Simulation.Particle_init chemistry.Bond_init
       particles bonds grid rng rng_pos temperature n_types
       p_x p_y p_vx p_vy p_type p_bonds
       b_i b_j b_type b_order b_length b_dipole b_donor b_acceptor b_age
       insert list_insert alter list_alter app rng_uniform nth];
  repeat match goal with
         | |- mkSim _ _ _ _ _ _ _ = mkSim _ _ _ _ _ _ _ => f_equal
         | |- mkParticle _ _ _ _ _ _ = mkParticle _ _ _ _ _ _ => f_equal
         | |- mkBond _ _ _ _ _ _ _ _ _ = mkBond _ _ _ _ _ _ _ _ _ => f_equal
         | |- _ :: _ = _ :: _ => f_equal
         | |- (_, _) = (_, _) => f_equal
         | |- @eq R _ _ => num
         | |- _ => reflexivity
         end.

(** The value of a shell deficit on concrete lists. *)
Ltac deficit_is :=
  eapply shell_deficit_eval; [reflexivity | reflexivity |];
  autounfold with scenario;
  cbn [foldl particles bonds set_particles set_bonds advance_rng];
  unfold chemistry.shell_fill_step;
  cbn [b_i b_j b_type b_order b_donor b_acceptor];
  repeat decide_now; num.

Ltac max_bonds_is d extra :=
  etransitivity;
  [ eapply (dynamic_max_bonds_eval _ _ _ _ d _ extra);
    [reflexivity | deficit_is | reflexivity | num]
  | reflexivity ].

(** Evaluate the leading bind when the first computation reduces to a
    result by computation alone. *)
Ltac run := erewrite bind_eval by reflexivity; cbn beta.

(** Evaluate the leading bind, a read of a shell deficit with value [d]. *)
Ltac run_deficit d :=
  erewrite (bind_eval _ _ _ _ d) by (cbn beta; f_equal; deficit_is); cbn beta.

(** Evaluate the leading bind, a read of [dynamic_max_bonds] with value
    [m], from the deficit [d] and the overflow allowance [extra]. *)
Ltac run_max_bonds m d extra :=
  erewrite (bind_eval _ _ _ _ m) by (cbn beta; f_equal; max_bonds_is d extra);
  cbn beta.

#[global] Hint Unfold bonded_pair.p_0 bonded_pair.p_1 bonded_pair.b_01
  bonded_pair.draws bonded_pair.cells bonded_pair.s bonded_pair.f
  bonded_pair.s_damped : scenario.



(** Use the square roots that the context gives. *)
Ltac use_sqrt :=
  repeat match goal with
         | H : sqrt _ = _ |- _ => progress rewrite H
         end.

(** The value of a call of [classify_bond_type_temp] or [dipole_from_EN]
    on concrete particles. *)
Ltac eval_res :=
  unfold chemistry.classify_bond_type_temp, chemistry.dipole_from_EN;
  rewrite ?wrap_near by num; cbn beta iota;
  cbn [p_x p_y with_bonds with_velocity with_position] in *; use_sqrt;
  autounfold with scenario;
  cbn [py_index lookup list_lookup p_type mbind Res_bind chemistry.ELECTRONEG
       with_bonds with_velocity with_position];
  repeat decide_now;
  repeat match goal with
         | |- Ok _ = Ok _ => f_equal
         | |- (_, _) = (_, _) => f_equal
         | |- @eq R _ _ => num
         | |- _ => reflexivity
         end.

(** Evaluate the leading bind, a lifted pure call with value [v]. *)
Ltac run_lift v :=
  erewrite (bind_eval _ _ _ _ v) by (unfold liftR; f_equal; eval_res);
  cbn beta.

(** Evaluate the leading bind by evaluating its first computation with
    [tac]. *)
Tactic Notation "run_sub" tactic3(tac) :=
  erewrite bind_eval; cycle 1; [ tac; reflexivity | cbn beta ].

(** Close an evaluation: the state reached is the expected one. *)
Ltac finish :=
  cbn [p_x p_y with_bonds with_velocity with_position] in *; use_sqrt;
  cbv [ret mret M_ret]; f_equal; same_state.

#[global] Hint Unfold overfull.draws overfull.p_0 overfull.p_1 overfull.p_2
  overfull.b_01 overfull.b_02 overfull.s_0 overfull.s_1 overfull.s_2 : scenario.


#[global] Hint Unfold substitution.draws substitution.cells substitution.parts
  substitution.b_01 substitution.b_02 substitution.s_0 substitution.s_grid
  substitution.s_1 substitution.s_2 substitution.s_3 substitution.s_4
  : scenario.

(** ** The periodic wrap *)

Section wrap_facts.
Import physics.

Lemma centred_is_shortest (w L : R) (n : Z) :
  0 < L → - L / 2 <= w <= L / 2 → w * w <= (w + IZR n * L) * (w + IZR n * L).
Proof.
  intros HL Hw.
  destruct (Z_lt_le_dec n 0) as [Hn | Hn].
  - assert (Hle : IZR n <= -1) by (apply IZR_le; lia).
    assert (Hs : IZR n * L <= - L) by nra.
    pose proof (Rmult_le_pos (- (IZR n * L)) (- (2 * w + IZR n * L))
                  ltac:(lra) ltac:(lra)).
    lra.
  - destruct (Z.eq_dec n 0%Z) as [-> | Hn0].
    + replace (w + 0 * L) with w by lra. lra.
    + assert (Hle : 1 <= IZR n) by (apply IZR_le; lia).
      assert (Hs : L <= IZR n * L) by nra.
      pose proof (Rmult_le_pos (IZR n * L) (2 * w + IZR n * L)
                    ltac:(lra) ltac:(lra)).
      lra.
Qed.

Lemma wrap_component_range (dx dy : R) :
  Rabs dx <= 3 * half_W → - half_W <= (wrap dx dy).1 <= half_W.
Proof.
  unfold wrap, half_W, WORLD_WIDTH, Rabs. cbn [fst].
  destruct (Rcase_abs dx); intros H; split_decide; lra.
Qed.

Lemma wrap_component_range_y (dx dy : R) :
  Rabs dy <= 3 * half_H → - half_H <= (wrap dx dy).2 <= half_H.
Proof.
  unfold wrap, half_H, WORLD_HEIGHT, Rabs. cbn [snd].
  destruct (Rcase_abs dy); intros H; split_decide; lra.
Qed.

Lemma wrap_is_image (dx dy : R) :
  ∃ k m : Z, wrap dx dy = image dx dy k m.
Proof.
  unfold wrap, image.
  destruct (decide (dx > WORLD_WIDTH * 0.5)) as [?|?];
    [exists (-1)%Z | destruct (decide (dx < - WORLD_WIDTH * 0.5));
                      [exists 1%Z | exists 0%Z]];
    (destruct (decide (dy > WORLD_HEIGHT * 0.5)) as [?|?];
     [exists (-1)%Z | destruct (decide (dy < - WORLD_HEIGHT * 0.5));
                       [exists 1%Z | exists 0%Z]]);
    f_equal; lra.
Qed.

Lemma image_of_image (dx dy : R) (k m k' m' : Z) :
  image dx dy k' m' =
  let w := image dx dy k m in
  (w.1 + IZR (k' - k) * WORLD_WIDTH, w.2 + IZR (m' - m) * WORLD_HEIGHT).
Proof. unfold image. cbn. rewrite !minus_IZR. f_equal; lra. Qed.

End wrap_facts.

(** C7 (as amended).  For a displacement whose components are at most one
    and a half world extents in absolute value -- which covers every
    difference of two in-world positions -- [wrap] returns components in
    [[-W/2, W/2]] (strictly above [-W/2] when it subtracted, strictly below
    [W/2] when it added), the result is a periodic image of the input, and
    no periodic image is shorter. *)
Theorem wrap_shortest_image (dx dy : R) :
  Rabs dx <= 3 * half_W →
  Rabs dy <= 3 * half_H →
  let w := physics.wrap dx dy in
  (- half_W <= w.1 <= half_W) ∧
  (- half_H <= w.2 <= half_H) ∧
  (dx > half_W → - half_W < w.1) ∧ (dx < - half_W → w.1 < half_W) ∧
  (dy > half_H → - half_H < w.2) ∧ (dy < - half_H → w.2 < half_H) ∧
  (∃ k m : Z, w = image dx dy k m) ∧
  ∀ k m : Z, sqrt (norm2 w) <= sqrt (norm2 (image dx dy k m)).
Proof.
  intros Hx Hy w.
  pose proof (wrap_component_range dx dy Hx) as Rx.
  pose proof (wrap_component_range_y dx dy Hy) as Ry.
  fold w in Rx, Ry.
  split; [exact Rx|]. split; [exact Ry|].
  repeat split.
  - subst w. unfold physics.wrap, half_W, physics.WORLD_WIDTH in *. cbn [fst].
    unfold Rabs in Hx. destruct (Rcase_abs dx); intros; split_decide; lra.
  - subst w. unfold physics.wrap, half_W, physics.WORLD_WIDTH in *. cbn [fst].
    unfold Rabs in Hx. destruct (Rcase_abs dx); intros; split_decide; lra.
  - subst w. unfold physics.wrap, half_H, physics.WORLD_HEIGHT in *. cbn [snd].
    unfold Rabs in Hy. destruct (Rcase_abs dy); intros; split_decide; lra.
  - subst w. unfold physics.wrap, half_H, physics.WORLD_HEIGHT in *. cbn [snd].
    unfold Rabs in Hy. destruct (Rcase_abs dy); intros; split_decide; lra.
  - apply wrap_is_image.
  - intros k m. destruct (wrap_is_image dx dy) as (k0 & m0 & Hw). fold w in Hw.
    apply sqrt_le_1_alt.
    rewrite (image_of_image dx dy k0 m0 k m). rewrite <- Hw. cbn zeta.
    unfold norm2. cbn [fst snd].
    assert (Hw1 : w.1 * w.1 <=
                  (w.1 + IZR (k - k0) * physics.WORLD_WIDTH)
                  * (w.1 + IZR (k - k0) * physics.WORLD_WIDTH)).
    { apply centred_is_shortest.
      - unfold physics.WORLD_WIDTH; lra.
      - unfold half_W in Rx. lra. }
    assert (Hw2 : w.2 * w.2 <=
                  (w.2 + IZR (m - m0) * physics.WORLD_HEIGHT)
                  * (w.2 + IZR (m - m0) * physics.WORLD_HEIGHT)).
    { apply centred_is_shortest.
      - unfold physics.WORLD_HEIGHT; lra.
      - unfold half_H in Ry. lra. }
    lra.
Qed.

Lemma wrap_shortest_image_witness :
  let w := physics.wrap 700 (-450) in
  (- half_W <= w.1 <= half_W) ∧
  (- half_H <= w.2 <= half_H) ∧
  (700 > half_W → - half_W < w.1) ∧ (700 < - half_W → w.1 < half_W) ∧
  (-450 > half_H → - half_H < w.2) ∧ (-450 < - half_H → w.2 < half_H) ∧
  (∃ k m : Z, w = image 700 (-450) k m) ∧
  ∀ k m : Z, sqrt (norm2 w) <= sqrt (norm2 (image 700 (-450) k m)).
Proof.
  apply (wrap_shortest_image 700 (-450));
    unfold half_W, half_H, physics.WORLD_WIDTH, physics.WORLD_HEIGHT, Rabs;
    destruct (Rcase_abs _); lra.
Defined.

(** C7 (as stated) fails: the displacement (1300, 0) has [|dx| > W/2], yet
    [wrap] returns the component 500, outside [[-W/2, W/2]], and the image
    shifted by two widths is shorter than what [wrap] returns. *)
Lemma wrap_far_displacement :
  let w := physics.wrap 1300 0 in
  Rabs 1300 > half_W ∧
  w = (500, 0) ∧
  ¬ (- half_W <= w.1 <= half_W) ∧
  sqrt (norm2 (image 1300 0 (-2) 0)) < sqrt (norm2 w).
Proof.
  assert (Hw : physics.wrap 1300 0 = (500, 0)).
  { unfold physics.wrap, physics.WORLD_WIDTH, physics.WORLD_HEIGHT.
    repeat decide_one. f_equal; lra. }
  cbn zeta. rewrite Hw. unfold half_W, physics.WORLD_WIDTH.
  split; [unfold Rabs; destruct (Rcase_abs _); lra|].
  split; [reflexivity|]. split.
  - cbn [fst]. lra.
  - apply sqrt_lt_1_alt. unfold norm2, image, physics.WORLD_WIDTH,
      physics.WORLD_HEIGHT. cbn [fst snd]. lra.
Qed.

(** ** The soft start of a bond *)

Lemma INR_softstart : INR physics.BOND_SOFTSTART_STEPS = 12.
Proof. unfold physics.BOND_SOFTSTART_STEPS. rewrite INR_IZR_INZ. reflexivity. Qed.

Lemma INR_lower_bound (n : nat) (z : Z) : (z <= Z.of_nat n)%Z → IZR z <= INR n.
Proof. intros H. rewrite INR_IZR_INZ. apply IZR_le. exact H. Qed.

(** C6 (as amended).  The soft-start factor of [compute_bond_force] is
    [min((age + 1) / N, 1)] with [N = BOND_SOFTSTART_STEPS = 12]: it is
    [(age + 1) / N] while [age < N] and exactly 1 from [age = N - 1] on; the
    effective spring constant is the base constant times the order times
    this factor times the cooperativity factor. *)
Theorem soften_ramp (p_i p_j : Particle) (bond : Bond) :
  physics.soften bond =
    Rmin ((INR (b_age bond) + 1) / INR physics.BOND_SOFTSTART_STEPS) 1 ∧
  ((b_age bond < physics.BOND_SOFTSTART_STEPS)%nat →
   physics.soften bond =
     (INR (b_age bond) + 1) / INR physics.BOND_SOFTSTART_STEPS) ∧
  ((physics.BOND_SOFTSTART_STEPS - 1 <= b_age bond)%nat →
   physics.soften bond = 1) ∧
  physics.k_eff p_i p_j bond =
    physics.BOND_SPRING_CONSTANT * INR (b_order bond)
    * Rmin ((INR (b_age bond) + 1) / INR physics.BOND_SOFTSTART_STEPS) 1
    * (1 + 0.18 * INR (length (p_bonds p_i) `min` length (p_bonds p_j))).
Proof.
  assert (Hs : physics.soften bond =
    Rmin ((INR (b_age bond) + 1) / INR physics.BOND_SOFTSTART_STEPS) 1).
  { unfold physics.soften. rewrite INR_softstart.
    destruct (decide (b_age bond < physics.BOND_SOFTSTART_STEPS)%nat) as [Hlt|Hge].
    - assert (Hle : (S (b_age bond) <= physics.BOND_SOFTSTART_STEPS)%nat) by lia.
      apply le_INR in Hle. rewrite S_INR, INR_softstart in Hle.
      rewrite Rmin_left by lra. reflexivity.
    - assert (Hle : (physics.BOND_SOFTSTART_STEPS <= b_age bond)%nat) by lia.
      apply le_INR in Hle. rewrite INR_softstart in Hle.
      rewrite Rmin_right by lra. lra. }
  split; [exact Hs|]. split; [|split].
  - intros Hlt. unfold physics.soften. rewrite decide_True by exact Hlt.
    reflexivity.
  - intros Hge. rewrite Hs, INR_softstart.
    assert (Hle : (11 <= b_age bond)%nat)
      by (unfold physics.BOND_SOFTSTART_STEPS in Hge; lia).
    pose proof (INR_lower_bound (b_age bond) 11 ltac:(lia)).
    rewrite Rmin_right by lra. reflexivity.
  - unfold physics.k_eff. rewrite Hs. lra.
Qed.

Lemma soften_ramp_witness :
  let bond := chemistry.Bond_init 0 1 covalent 1 17.0 in
  (b_age bond < physics.BOND_SOFTSTART_STEPS)%nat ∧
  physics.soften bond =
    (INR (b_age bond) + 1) / INR physics.BOND_SOFTSTART_STEPS.
Proof.
  split.
  - unfold physics.BOND_SOFTSTART_STEPS. cbn. lia.
  - apply (soften_ramp (mkParticle 0 0 0 0 0 []) (mkParticle 0 0 0 0 0 [])
             (chemistry.Bond_init 0 1 covalent 1 17.0)).
    unfold physics.BOND_SOFTSTART_STEPS. cbn. lia.
Defined.

(** C6 (as stated) fails: a bond of age 0 has the factor 1/12, where
    [min(age / N, 1)] is 0. *)
Lemma soften_fresh_bond :
  let bond := chemistry.Bond_init 0 1 covalent 1 17.0 in
  (0 <= b_age bond)%nat ∧
  physics.soften bond = 1 / 12 ∧
  physics.soften bond ≠
    Rmin (INR (b_age bond) / INR physics.BOND_SOFTSTART_STEPS) 1.
Proof.
  cbn zeta.
  assert (Hs : physics.soften (chemistry.Bond_init 0 1 covalent 1 17.0) = 1 / 12).
  { unfold physics.soften. rewrite INR_softstart. cbn [b_age chemistry.Bond_init].
    rewrite decide_True by (unfold physics.BOND_SOFTSTART_STEPS; lia).
    cbn [INR]. lra. }
  split; [cbn; lia|]. split; [exact Hs|].
  rewrite Hs, INR_softstart. cbn [b_age chemistry.Bond_init INR].
  rewrite Rmin_left by lra. lra.
Qed.

(** ** Classification of a new bond *)

(** C9.  For particle types that the tables define (0..4),
    [classify_bond_type_temp] returns a bond type; the type depends only on
    the two particle types and the temperature (any two calls that agree on
    these return the same type, whatever else differs in the particles); and
    it follows the tiered rule on the electronegativity gap. *)
Theorem classify_bond_type_temp_tiered (p_i p_j : Particle) (T : R) :
  (p_type p_i < 5)%nat →
  (p_type p_j < 5)%nat →
  ∃ (e_i e_j : R) (bt : BondType),
    chemistry.ELECTRONEG !! p_type p_i = Some e_i ∧
    chemistry.ELECTRONEG !! p_type p_j = Some e_j ∧
    chemistry.classify_bond_type_temp p_i p_j T = Ok bt ∧
    (∀ q_i q_j : Particle,
        p_type q_i = p_type p_i → p_type q_j = p_type p_j →
        chemistry.classify_bond_type_temp q_i q_j T = Ok bt) ∧
    let gap := Rabs (e_i - e_j) in
    (T <= 0.9 →
       (gap < 1.6 → bt = covalent) ∧ (¬ gap < 1.6 → bt = ionic)) ∧
    (T >= 1.6 →
       (gap > 0.9 → bt = ionic) ∧ (¬ gap > 0.9 → bt = metallic)) ∧
    (0.9 < T < 1.6 →
       (gap < 0.35 → bt = metallic) ∧
       (0.35 <= gap < 1.2 → bt = covalent) ∧
       (1.2 <= gap → bt = ionic)).
Proof.
  intros Hi Hj.
  destruct (lookup_lt_is_Some_2 chemistry.ELECTRONEG (p_type p_i)) as [e_i He_i];
    [exact Hi|].
  destruct (lookup_lt_is_Some_2 chemistry.ELECTRONEG (p_type p_j)) as [e_j He_j];
    [exact Hj|].
  assert (Hdet : ∀ q_i q_j : Particle,
             p_type q_i = p_type p_i → p_type q_j = p_type p_j →
             chemistry.classify_bond_type_temp q_i q_j T =
             chemistry.classify_bond_type_temp p_i p_j T).
  { intros q_i q_j Hqi Hqj. unfold chemistry.classify_bond_type_temp.
    rewrite Hqi, Hqj. reflexivity. }
  assert (Hex : ∃ bt, chemistry.classify_bond_type_temp p_i p_j T = Ok bt ∧
     (T <= 0.9 →
       (Rabs (e_i - e_j) < 1.6 → bt = covalent) ∧
       (¬ Rabs (e_i - e_j) < 1.6 → bt = ionic)) ∧
     (T >= 1.6 →
       (Rabs (e_i - e_j) > 0.9 → bt = ionic) ∧
       (¬ Rabs (e_i - e_j) > 0.9 → bt = metallic)) ∧
     (0.9 < T < 1.6 →
       (Rabs (e_i - e_j) < 0.35 → bt = metallic) ∧
       (0.35 <= Rabs (e_i - e_j) < 1.2 → bt = covalent) ∧
       (1.2 <= Rabs (e_i - e_j) → bt = ionic))).
  { unfold chemistry.classify_bond_type_temp, py_index.
    rewrite He_i, He_j. cbn [mbind Res_bind].
    unfold chemistry.T_GEOM_MAX, chemistry.T_IONIC_MIN.
    generalize (Rabs (e_i - e_j)). intros gap.
    split_decide; eexists; (split; [reflexivity|]);
      repeat split; intros; try reflexivity; try lra; try tauto. }
  destruct Hex as (bt & Hbt & Hrule).
  exists e_i, e_j, bt. split; [exact He_i|]. split; [exact He_j|].
  split; [exact Hbt|]. split; [|exact Hrule].
  intros q_i q_j Hqi Hqj. rewrite (Hdet q_i q_j Hqi Hqj). exact Hbt.
Qed.

Lemma classify_bond_type_temp_tiered_witness :
  ∃ (e_i e_j : R) (bt : BondType),
    chemistry.ELECTRONEG !! 0%nat = Some e_i ∧
    chemistry.ELECTRONEG !! 2%nat = Some e_j ∧
    chemistry.classify_bond_type_temp
      (mkParticle 20 20 0 0 0 []) (mkParticle 40 20 0 0 2 []) 1.2 = Ok bt ∧
    (∀ q_i q_j : Particle,
        p_type q_i = 0%nat → p_type q_j = 2%nat →
        chemistry.classify_bond_type_temp q_i q_j 1.2 = Ok bt) ∧
    let gap := Rabs (e_i - e_j) in
    (1.2 <= 0.9 →
       (gap < 1.6 → bt = covalent) ∧ (¬ gap < 1.6 → bt = ionic)) ∧
    (1.2 >= 1.6 →
       (gap > 0.9 → bt = ionic) ∧ (¬ gap > 0.9 → bt = metallic)) ∧
    (0.9 < 1.2 < 1.6 →
       (gap < 0.35 → bt = metallic) ∧
       (0.35 <= gap < 1.2 → bt = covalent) ∧
       (1.2 <= gap → bt = ionic)).
Proof.
  apply (classify_bond_type_temp_tiered
           (mkParticle 20 20 0 0 0 []) (mkParticle 40 20 0 0 2 []) 1.2);
    cbn; lia.
Defined.

(** ** Breaking a bond by distance *)

Lemma wrapped_distance_unfold (p_i p_j : Particle) :
  let '(dx, dy) := physics.wrap (p_x p_j - p_x p_i) (p_y p_j - p_y p_i) in
  wrapped_distance p_i p_j = sqrt (dx * dx + dy * dy).
Proof.
  unfold wrapped_distance, norm2.
  destruct (physics.wrap _ _) as [dx dy]. reflexivity.
Qed.

(** C8.  [try_break_bond] returns true whenever the wrapped distance of the
    endpoints exceeds [length * 1.9 * (1 + 0.2 * (order - 1))], at every
    temperature.  In particular a bond of order 1, with an equilibrium
    length in the range the program assigns (at least 12.5), whose endpoints
    are at distance [2.5 * length], is flagged by the distance check of
    [try_break_bond] and by that of [compute_bond_force]. *)
Theorem try_break_bond_by_distance (bond : Bond) (particles : list Particle)
    (T : R) (p_i p_j : Particle) :
  particles !! b_i bond = Some p_i →
  particles !! b_j bond = Some p_j →
  (wrapped_distance p_i p_j >
     b_length bond * 1.9 * (1 + 0.2 * (INR (b_order bond) - 1)) →
   chemistry.try_break_bond bond particles T = Ok true) ∧
  (b_order bond = 1%nat →
   12.5 <= b_length bond →
   wrapped_distance p_i p_j = b_length bond * 2.5 →
   chemistry.try_break_bond bond particles T = Ok true ∧
   (physics.compute_bond_force p_i p_j bond).2 = true).
Proof.
  intros Hi Hj.
  assert (Hgen : wrapped_distance p_i p_j >
     b_length bond * 1.9 * (1 + 0.2 * (INR (b_order bond) - 1)) →
     chemistry.try_break_bond bond particles T = Ok true).
  { intros Hd. unfold chemistry.try_break_bond, py_index.
    rewrite Hi, Hj. cbn [mbind Res_bind].
    pose proof (wrapped_distance_unfold p_i p_j) as Hw.
    destruct (physics.wrap _ _) as [dx dy].
    rewrite <- Hw. unfold physics.BOND_BREAK_THRESHOLD.
    rewrite decide_True by lra. reflexivity. }
  split; [exact Hgen|].
  intros Ho Hlen Hd. split.
  - apply Hgen. rewrite Ho, Hd. cbn [INR]. lra.
  - unfold physics.compute_bond_force.
    pose proof (wrapped_distance_unfold p_i p_j) as Hw.
    destruct (physics.wrap _ _) as [dx dy].
    assert (Hr2 : dx * dx + dy * dy = (b_length bond * 2.5) * (b_length bond * 2.5)).
    { rewrite <- Hd, Hw. rewrite sqrt_sqrt by nra. reflexivity. }
    rewrite decide_False by nra.
    cbn [snd]. apply bool_decide_eq_true.
    rewrite <- Hw, Hd. unfold physics.BOND_BREAK_THRESHOLD. lra.
Qed.

Lemma try_break_bond_by_distance_witness :
  let bond := chemistry.Bond_init 0 1 covalent 1 16.0 in
  let p_i := mkParticle 100 100 0 0 0 [1%nat] in
  let p_j := mkParticle 140 100 0 0 0 [0%nat] in
  wrapped_distance p_i p_j = b_length bond * 2.5 ∧
  chemistry.try_break_bond bond [p_i; p_j] 0.5 = Ok true ∧
  (physics.compute_bond_force p_i p_j bond).2 = true.
Proof.
  cbn zeta.
  assert (Hd : wrapped_distance (mkParticle 100 100 0 0 0 [1%nat])
                 (mkParticle 140 100 0 0 0 [0%nat]) = 16.0 * 2.5).
  { unfold wrapped_distance, physics.wrap, physics.WORLD_WIDTH,
      physics.WORLD_HEIGHT, norm2. cbn [p_x p_y].
    repeat decide_one. cbn [fst snd].
    replace ((140 - 100) * (140 - 100) + (100 - 100) * (100 - 100))
      with (40 * 40) by lra.
    rewrite sqrt_square by lra. lra. }
  split; [exact Hd|].
  apply (try_break_bond_by_distance
           (chemistry.Bond_init 0 1 covalent 1 16.0)
           [mkParticle 100 100 0 0 0 [1%nat]; mkParticle 140 100 0 0 0 [0%nat]]
           0.5 (mkParticle 100 100 0 0 0 [1%nat])
           (mkParticle 140 100 0 0 0 [0%nat]));
    [reflexivity | reflexivity | reflexivity | cbn; lra | exact Hd].
Defined.

(** ** Forming a bond *)

Lemma shell_deficit_ok (i : nat) (ps : list Particle) (bs : list Bond)
    (p : Particle) :
  ps !! i = Some p → valid_type p →
  ∃ d : R, chemistry.shell_deficit i ps bs = Ok d ∧ 0 <= d.
Proof.
  intros Hi Ht.
  destruct (lookup_lt_is_Some_2 chemistry.VALENCE_ELECTRONS (p_type p)) as [v Hv];
    [exact Ht|].
  unfold chemistry.shell_deficit, chemistry.shell_fill, py_index.
  rewrite Hi. cbn [mbind Res_bind]. rewrite Hv. cbn [mbind Res_bind].
  eexists. split; [reflexivity|].
  match goal with |- 0 <= Rmax ?a ?b => pose proof (Rmax_l a b); lra end.
Qed.

Lemma dynamic_max_bonds_ok (i : nat) (ps : list Particle) (bs : list Bond)
    (p : Particle) :
  ps !! i = Some p → valid_type p →
  ∃ m : Z, chemistry.dynamic_max_bonds i ps bs = Ok m ∧ (0 <= m <= 5)%Z.
Proof.
  intros Hi Ht.
  destruct (shell_deficit_ok i ps bs p Hi Ht) as (d & Hd & _).
  unfold chemistry.dynamic_max_bonds, py_index.
  rewrite Hi. cbn [mbind Res_bind]. rewrite Hd. cbn [mbind Res_bind].
  eexists. split; [reflexivity|]. lia.
Qed.

Lemma dynamic_max_bonds_le_5 (i : nat) (ps : list Particle) (bs : list Bond)
    (m : Z) :
  chemistry.dynamic_max_bonds i ps bs = Ok m → (0 <= m <= 5)%Z.
Proof.
  unfold chemistry.dynamic_max_bonds.
  destruct (py_index ps i) as [p|e]; cbn [mbind Res_bind]; [|discriminate].
  destruct (chemistry.shell_deficit i ps bs) as [d|e]; cbn [mbind Res_bind];
    [|discriminate].
  intros [= <-]. lia.
Qed.

Lemma sqrt_gt_square (a c : R) : 0 <= c → sqrt a > c → a > c * c.
Proof.
  intros Hc Hs. destruct (Rle_lt_dec a (c * c)) as [Hle | Hlt]; [|lra].
  apply sqrt_le_1_alt in Hle. rewrite sqrt_square in Hle by exact Hc. lra.
Qed.

Lemma try_form_bond_false_unchanged (i j : nat) (T : R) (s s' : Sim) :
  chemistry.try_form_bond i j T s = (s', Ok false) →
  bonds s' = bonds s ∧ particles s' = particles s.
Proof.
  intros H. unfold chemistry.try_form_bond in H.
  inv_read H. inv_read H. inv_read H.
  destruct (decide _); [injection H as <-; done|].
  inv_read H.
  destruct (decide _); [injection H as <-; done|].
  inv_read H. inv_read H.
  destruct (decide _); [injection H as <-; done|].
  destruct (physics.wrap _ _) as [dx dy].
  destruct (decide _); [injection H as <-; done|].
  destruct (decide _); [injection H as <-; done|].
  inv_bind H. unfold random_random in Hm5. injection Hm5 as <- _.
  on_guard H; [injection H as <-; done|].
  exfalso.
  repeat first [ inv_bind H | on_pair H ].
  discriminate H.
Qed.

(** C10.  With both endpoints in the particle list and of a type the tables
    define, [try_form_bond i j] returns [False], leaving the whole state as
    it was, whenever either endpoint's bond count has reached its dynamic
    maximum, or both shell deficits are zero, or the wrapped distance exceeds
    the formation radius 26.0; and whenever it returns [False] the ledger
    and every adjacency list are unchanged. *)
Theorem try_form_bond_fails_fast (i j : nat) (T : R) (s : Sim)
    (p_i p_j : Particle) :
  particles s !! i = Some p_i →
  particles s !! j = Some p_j →
  valid_type p_i →
  valid_type p_j →
  ∃ (max_i max_j : Z) (di dj : R),
    chemistry.dynamic_max_bonds i (particles s) (bonds s) = Ok max_i ∧
    chemistry.dynamic_max_bonds j (particles s) (bonds s) = Ok max_j ∧
    chemistry.shell_deficit i (particles s) (bonds s) = Ok di ∧
    chemistry.shell_deficit j (particles s) (bonds s) = Ok dj ∧
    ((Z.of_nat (length (p_bonds p_i)) >= max_i)%Z ∨
     (Z.of_nat (length (p_bonds p_j)) >= max_j)%Z ∨
     (di = 0 ∧ dj = 0) ∨
     wrapped_distance p_i p_j > 26.0 →
     chemistry.try_form_bond i j T s = (s, Ok false)) ∧
    (∀ s' : Sim,
        chemistry.try_form_bond i j T s = (s', Ok false) →
        bonds s' = bonds s ∧ particles s' = particles s).
Proof.
  intros Hi Hj Hti Htj.
  destruct (dynamic_max_bonds_ok i _ (bonds s) _ Hi Hti) as (max_i & Hmi & _).
  destruct (dynamic_max_bonds_ok j _ (bonds s) _ Hj Htj) as (max_j & Hmj & _).
  destruct (shell_deficit_ok i _ (bonds s) _ Hi Hti) as (di & Hdi & Hdi0).
  destruct (shell_deficit_ok j _ (bonds s) _ Hj Htj) as (dj & Hdj & Hdj0).
  exists max_i, max_j, di, dj. repeat (split; [assumption|]).
  split.
  - intros Hc. unfold chemistry.try_form_bond.
    eval_bind. eval_bind. eval_bind.
    destruct (decide (Z.of_nat (length (p_bonds p_i)) >= max_i)%Z) as [?|Hni];
      [reflexivity|].
    eval_bind.
    destruct (decide (Z.of_nat (length (p_bonds p_j)) >= max_j)%Z) as [?|Hnj];
      [reflexivity|].
    eval_bind. eval_bind.
    destruct (decide (di <= 0 ∧ dj <= 0)) as [?|Hnd]; [reflexivity|].
    pose proof (wrapped_distance_unfold p_i p_j) as Hw.
    destruct (physics.wrap _ _) as [dx dy].
    destruct (decide (dx * dx + dy * dy >
                      chemistry.BOND_FORM_RADIUS * chemistry.BOND_FORM_RADIUS))
      as [?|Hnr]; [reflexivity|].
    exfalso. destruct Hc as [Hc | [Hc | [[Hc1 Hc2] | Hc]]].
    + lia.
    + lia.
    + apply Hnd. lra.
    + apply Hnr. unfold chemistry.BOND_FORM_RADIUS. rewrite Hw in Hc.
      apply sqrt_gt_square in Hc; lra.
  - intros s' H. exact (try_form_bond_false_unchanged i j T s s' H).
Qed.

Lemma try_form_bond_fails_fast_witness :
  let p_0 := mkParticle 100 100 0 0 0 [] in
  let p_1 := mkParticle 140 100 0 0 1 [] in
  let s := mkSim 0.5 2 [p_0; p_1] [] (SpatialGrid.init 42.0)
             (mkRng (fun _ => 0) (fun _ => 0) (fun _ => 0%nat)) 0 in
  ∃ (max_i max_j : Z) (di dj : R),
    chemistry.dynamic_max_bonds 0 (particles s) (bonds s) = Ok max_i ∧
    chemistry.dynamic_max_bonds 1 (particles s) (bonds s) = Ok max_j ∧
    chemistry.shell_deficit 0 (particles s) (bonds s) = Ok di ∧
    chemistry.shell_deficit 1 (particles s) (bonds s) = Ok dj ∧
    ((Z.of_nat (length (p_bonds p_0)) >= max_i)%Z ∨
     (Z.of_nat (length (p_bonds p_1)) >= max_j)%Z ∨
     (di = 0 ∧ dj = 0) ∨
     wrapped_distance p_0 p_1 > 26.0 →
     chemistry.try_form_bond 0 1 0.5 s = (s, Ok false)) ∧
    (∀ s' : Sim,
        chemistry.try_form_bond 0 1 0.5 s = (s', Ok false) →
        bonds s' = bonds s ∧ particles s' = particles s).
Proof.
  apply (try_form_bond_fails_fast 0 1 0.5
           (mkSim 0.5 2 [mkParticle 100 100 0 0 0 []; mkParticle 140 100 0 0 1 []]
              [] (SpatialGrid.init 42.0)
              (mkRng (fun _ => 0) (fun _ => 0) (fun _ => 0%nat)) 0)
           (mkParticle 100 100 0 0 0 []) (mkParticle 140 100 0 0 1 []));
    [reflexivity | reflexivity | unfold valid_type; cbn; lia
    | unfold valid_type; cbn; lia].
Defined.

(** ** The integrator *)

Lemma for_each_ok {A : Type} (I : Sim → Prop) (l : list A) (body : A → M unit) :
  (∀ (a : A) (s : Sim), a ∈ l → I s → ∃ s', body a s = (s', Ok tt) ∧ I s') →
  ∀ s : Sim, I s → ∃ s', for_each l body s = (s', Ok tt) ∧ I s'.
Proof.
  induction l as [|a l IH]; intros Hbody s Hs.
  - exists s. split; [reflexivity | exact Hs].
  - destruct (Hbody a s) as (s1 & H1 & HI1); [left | exact Hs |].
    destruct IH with (s := s1) as (s2 & H2 & HI2); [|exact HI1|].
    { intros b s0 Hb. apply Hbody. right. exact Hb. }
    exists s2. split; [|exact HI2].
    cbn [for_each]. rewrite (bind_eval _ _ _ _ _ H1). exact H2.
Qed.

Lemma load_global_bonding_factor :
  physics.load_global "bonding_factor" = Raise (NameError "bonding_factor").
Proof. reflexivity. Qed.

(** With a well-defined noise amplitude, [apply_langevin] stops at the name
    [bonding_factor] before it touches the particle. *)
Lemma apply_langevin_raises (idx : nat) (T : R) (bond_count : nat) (avg : R)
    (s : Sim) :
  0 <= T →
  physics.apply_langevin idx T bond_count avg s =
    (s, Raise (NameError "bonding_factor")).
Proof.
  intros HT. unfold physics.apply_langevin.
  erewrite bind_eval; cycle 1.
  { unfold liftR, math_sqrt. rewrite decide_False; [reflexivity|].
    unfold physics.LANGEVIN_GAMMA. lra. }
  cbn beta. erewrite bind_raise; [reflexivity|].
  unfold liftR. rewrite load_global_bonding_factor. reflexivity.
Qed.

(** The first loop of [integrate] runs to its end when every particle has
    its force. *)
Lemma integrate_velocity_loop (forces : list (R * R)) (s : Sim) :
  length forces = length (particles s) →
  ∃ s' : Sim,
    for_each (seq 0 (length (particles s))) (fun i =>
      p ← get_particle i;
      '(fx, fy) ← liftR (py_index forces i);
      let vx := p_vx p + fx * physics.TIME_STEP in
      let vy := p_vy p + fy * physics.TIME_STEP in
      let '(vx, vy) := physics.limit_speed vx vy physics.MAX_SPEED in
      set_particle i (with_velocity p vx vy)) s = (s', Ok tt) ∧
    length (particles s') = length (particles s).
Proof.
  intros Hlen.
  apply (for_each_ok (fun s' => length (particles s') = length (particles s)));
    [|reflexivity].
  intros i s0 Hi Hs0. apply elem_of_seq in Hi as [_ Hi]. cbn in Hi.
  destruct (lookup_lt_is_Some_2 (particles s0) i) as [p Hp]; [lia|].
  destruct (lookup_lt_is_Some_2 forces i) as [[fx fy] Hf]; [lia|].
  erewrite bind_eval by (unfold get_particle, py_index; rewrite Hp; reflexivity).
  cbn beta.
  erewrite bind_eval by (unfold liftR, py_index; rewrite Hf; reflexivity).
  cbn beta iota zeta.
  destruct (physics.limit_speed _ _ _) as [vx vy].
  eexists. split; [reflexivity|].
  cbn. rewrite length_insert. exact Hs0.
Qed.

Lemma integrate_raises_NameError (forces : list (R * R)) (T : R) (s : Sim) :
  particles s ≠ [] →
  length forces = length (particles s) →
  0 < T →
  ∃ s' : Sim,
    physics.integrate forces T s = (s', Raise (NameError "bonding_factor")).
Proof.
  intros Hne Hlen HT.
  destruct (integrate_velocity_loop forces s Hlen) as (s1 & Hloop & Hlen1).
  exists s1. unfold physics.integrate.
  erewrite bind_eval by reflexivity. cbn beta.
  erewrite bind_eval by exact Hloop. cbn beta.
  destruct (particles s) as [|p0 ps] eqn:Hps; [done|].
  destruct (particles s1) as [|q0 qs] eqn:Hqs; [discriminate Hlen1|].
  apply bind_raise. cbn [length seq for_each].
  apply bind_raise.
  erewrite bind_eval
    by (unfold get_particle, py_index; rewrite Hqs; reflexivity).
  cbn beta. apply apply_langevin_raises. lra.
Qed.

Lemma integrate_no_particles (forces : list (R * R)) (T : R) (s : Sim) :
  particles s = [] → physics.integrate forces T s = (s, Ok tt).
Proof.
  intros Hps. unfold physics.integrate.
  erewrite bind_eval by reflexivity. cbn beta. rewrite Hps. cbn [length seq for_each].
  erewrite bind_eval by reflexivity. erewrite bind_eval by reflexivity.
  erewrite bind_eval; cycle 1.
  { unfold physics.rescale_velocities. erewrite bind_eval by reflexivity.
    cbn beta. rewrite Hps. rewrite decide_True by reflexivity. reflexivity. }
  reflexivity.
Qed.

(** C1 fails on the code: with one particle at rest, the matching force list
    [[(0, 0)]] and the temperature 1, [integrate] does not return; its call
    of [apply_langevin] raises [NameError] for the name [bonding_factor],
    which no scope of [physics.py] binds. *)
Theorem integrate_one_particle_raises :
  let s := mkSim 1.0 1 [mkParticle 100 100 0 0 0 []] [] (SpatialGrid.init 42.0)
             (mkRng (fun _ => 0) (fun _ => 0) (fun _ => 0%nat)) 0 in
  particles s ≠ [] ∧
  length [(0, 0)] = length (particles s) ∧
  0 < 1.0 ∧
  ∃ s' : Sim,
    physics.integrate [(0, 0)] 1.0 s = (s', Raise (NameError "bonding_factor")).
Proof.
  cbn zeta. split; [done|]. split; [reflexivity|]. split; [lra|].
  apply integrate_raises_NameError; [done | reflexivity | lra].
Qed.

(** ** The spatial grid *)

Lemma cell_list_insert (g : SpatialGrid.t) (i : nat) (x y : R) (c : Z * Z) :
  cell_list (SpatialGrid.insert g i x y) c =
  if decide (SpatialGrid.cell_of g x y = c) then cell_list g c ++ [i]
  else cell_list g c.
Proof.
  unfold cell_list, SpatialGrid.insert. cbn [SpatialGrid.grid].
  destruct (decide (SpatialGrid.cell_of g x y = c)) as [<-|Hne].
  - rewrite lookup_insert_eq. reflexivity.
  - rewrite lookup_insert_ne by exact Hne. reflexivity.
Qed.

Lemma cell_list_clear (g : SpatialGrid.t) (c : Z * Z) :
  cell_list (SpatialGrid.clear g) c = [].
Proof. unfold cell_list, SpatialGrid.clear. cbn. rewrite lookup_empty. reflexivity. Qed.

Lemma elem_of_neighbors (g : SpatialGrid.t) (x y : R) (j : nat) :
  j ∈ SpatialGrid.neighbors g x y ↔
  ∃ c : Z * Z, in_block (SpatialGrid.cell_of g x y) c ∧ j ∈ cell_list g c.
Proof.
  unfold SpatialGrid.neighbors, in_block, cell_list.
  destruct (SpatialGrid.cell_of g x y) as [cx cy]. cbn [fst snd].
  rewrite list_elem_of_bind. split.
  - intros (dx & Hj & Hdx). apply list_elem_of_bind in Hj as (dy & Hj & Hdy).
    exists ((cx + dx)%Z, (cy + dy)%Z). cbn [fst snd]. split; [|exact Hj].
    unfold SpatialGrid.offsets in *.
    rewrite !elem_of_cons, elem_of_nil in Hdx, Hdy. lia.
  - intros ([c1 c2] & [H1 H2] & Hj). cbn [fst snd] in *.
    exists (c1 - cx)%Z. split.
    + apply list_elem_of_bind. exists (c2 - cy)%Z. split.
      * replace (cx + (c1 - cx))%Z with c1 by lia.
        replace (cy + (c2 - cy))%Z with c2 by lia. exact Hj.
      * unfold SpatialGrid.offsets. rewrite !elem_of_cons, elem_of_nil. lia.
    + unfold SpatialGrid.offsets. rewrite !elem_of_cons, elem_of_nil. lia.
Qed.

(** The insertion loop of [step]: it only changes the grid, and adds to each
    cell the indices of the list whose particle lies in that cell. *)
Lemma insert_loop_spec (l : list nat) (s : Sim) :
  (∀ i : nat, i ∈ l → (i < length (particles s))%nat) →
  ∃ g' : SpatialGrid.t,
    for_each l (fun i =>
      p ← get_particle i;
      modify (fun s =>
        set_grid (SpatialGrid.insert (grid s) i (p_x p) (p_y p)) s)) s =
      (set_grid g' s, Ok tt) ∧
    SpatialGrid.cell_size g' = SpatialGrid.cell_size (grid s) ∧
    ∀ (c : Z * Z) (j : nat),
      j ∈ cell_list g' c ↔
      j ∈ cell_list (grid s) c ∨
      (j ∈ l ∧ ∃ q : Particle,
          particles s !! j = Some q ∧
          SpatialGrid.cell_of (grid s) (p_x q) (p_y q) = c).
Proof.
  revert s. induction l as [|i l IH]; intros s Hl.
  - exists (grid s). split; [destruct s; reflexivity|]. split; [reflexivity|].
    intros c j. rewrite elem_of_nil. tauto.
  - destruct (lookup_lt_is_Some_2 (particles s) i) as [p Hp];
      [apply Hl; left|].
    set (s1 := set_grid (SpatialGrid.insert (grid s) i (p_x p) (p_y p)) s).
    destruct (IH s1) as (g' & Hrun & Hsz & Hmem).
    { intros k Hk. cbn. apply Hl. right. exact Hk. }
    exists g'. split; [|split].
    + cbn [for_each].
      erewrite bind_eval; cycle 1.
      { erewrite bind_eval
          by (unfold get_particle, py_index; rewrite Hp; reflexivity).
        reflexivity. }
      fold s1. rewrite Hrun. reflexivity.
    + rewrite Hsz. reflexivity.
    + intros c j. rewrite Hmem. cbn [s1 particles set_grid grid].
      rewrite cell_list_insert.
      unfold SpatialGrid.cell_of. cbn [SpatialGrid.insert SpatialGrid.cell_size].
      fold (SpatialGrid.cell_of (grid s) (p_x p) (p_y p)).
      rewrite elem_of_cons.
      destruct (decide (SpatialGrid.cell_of (grid s) (p_x p) (p_y p) = c))
        as [Hc|Hc].
      * rewrite elem_of_app, list_elem_of_singleton. split.
        -- intros [[H | ->] | (Hj & q & Hq & Hqc)].
           ++ left; exact H.
           ++ right. split; [left; reflexivity|]. exists p. split; assumption.
           ++ right. split; [right; exact Hj|]. exists q. split; assumption.
        -- intros [H | ([-> | Hj] & q & Hq & Hqc)].
           ++ left; left; exact H.
           ++ left; right; reflexivity.
           ++ right. split; [exact Hj|]. exists q. split; assumption.
      * split.
        -- intros [H|(Hj & q & Hq & Hqc)].
           ++ left; exact H.
           ++ right. split; [right; exact Hj|]. exists q. split; assumption.
        -- intros [H | ([-> | Hj] & q & Hq & Hqc)].
           ++ left; exact H.
           ++ rewrite Hp in Hq. injection Hq as <-. contradiction.
           ++ right. split; [exact Hj|]. exists q. split; assumption.
Qed.

Lemma rebuild_grid_spec (s : Sim) :
  ∃ g' : SpatialGrid.t,
    Simulation.rebuild_grid (length (particles s)) s = (set_grid g' s, Ok tt) ∧
    SpatialGrid.cell_size g' = SpatialGrid.cell_size (grid s) ∧
    ∀ (c : Z * Z) (j : nat),
      j ∈ cell_list g' c ↔
      ∃ q : Particle,
        particles s !! j = Some q ∧
        SpatialGrid.cell_of (grid s) (p_x q) (p_y q) = c.
Proof.
  set (s0 := set_grid (SpatialGrid.clear (grid s)) s).
  destruct (insert_loop_spec (seq 0 (length (particles s))) s0)
    as (g' & Hrun & Hsz & Hmem).
  { intros i Hi. apply elem_of_seq in Hi. cbn. lia. }
  exists g'. split; [|split].
  - unfold Simulation.rebuild_grid.
    erewrite bind_eval by reflexivity. cbn beta. fold s0.
    rewrite Hrun. reflexivity.
  - rewrite Hsz. reflexivity.
  - intros c j. rewrite Hmem. cbn [s0 grid set_grid particles].
    rewrite cell_list_clear, elem_of_nil, elem_of_seq.
    unfold SpatialGrid.cell_of. cbn [SpatialGrid.clear SpatialGrid.cell_size].
    split.
    + intros [[]|(_ & q & Hq & Hc)]. exists q. split; assumption.
    + intros (q & Hq & Hc). right. split.
      * apply lookup_lt_Some in Hq. lia.
      * exists q. split; assumption.
Qed.

(** After the rebuild, a neighbour query yields exactly the indices of the
    particles whose cell lies in the 3x3 block around the cell of the query
    point; cell coordinates are not wrapped. *)
Lemma neighbors_after_rebuild (s : Sim) (x y : R) :
  ∃ g' : SpatialGrid.t,
    Simulation.rebuild_grid (length (particles s)) s = (set_grid g' s, Ok tt) ∧
    ∀ j : nat,
      j ∈ SpatialGrid.neighbors g' x y ↔
      ∃ q : Particle,
        particles s !! j = Some q ∧
        in_block (SpatialGrid.cell_of (grid s) x y)
                 (SpatialGrid.cell_of (grid s) (p_x q) (p_y q)).
Proof.
  destruct (rebuild_grid_spec s) as (g' & Hrun & Hsz & Hmem).
  exists g'. split; [exact Hrun|].
  intros j. rewrite elem_of_neighbors.
  assert (Hcell : ∀ a b, SpatialGrid.cell_of g' a b = SpatialGrid.cell_of (grid s) a b).
  { intros a b. unfold SpatialGrid.cell_of. rewrite Hsz. reflexivity. }
  rewrite Hcell. split.
  - intros (c & Hb & Hj). apply Hmem in Hj as (q & Hq & Hc).
    exists q. split; [exact Hq|]. rewrite Hc. exact Hb.
  - intros (q & Hq & Hb). eexists. split; [exact Hb|].
    apply Hmem. exists q. split; [exact Hq | reflexivity].
Qed.

Lemma Zfloor_near (a b L : R) :
  0 < L → Rabs (a - b) <= L → (-1 <= Zfloor (a / L) - Zfloor (b / L) <= 1)%Z.
Proof.
  intros HL Hab.
  assert (Hd : -1 <= a / L - b / L <= 1).
  { unfold Rabs in Hab. destruct (Rcase_abs (a - b)).
    - split.
      + apply Rmult_le_reg_r with (r := L); [exact HL|]. field_simplify; lra.
      + apply Rmult_le_reg_r with (r := L); [exact HL|]. field_simplify; lra.
    - split.
      + apply Rmult_le_reg_r with (r := L); [exact HL|]. field_simplify; lra.
      + apply Rmult_le_reg_r with (r := L); [exact HL|]. field_simplify; lra. }
  pose proof (Zfloor_bound (a / L)) as Ha.
  pose proof (Zfloor_bound (b / L)) as Hb.
  split.
  - assert (H : (Zfloor (b / L) < Zfloor (a / L) + 2)%Z); [|lia].
    apply lt_IZR. rewrite plus_IZR. lra.
  - assert (H : (Zfloor (a / L) < Zfloor (b / L) + 2)%Z); [|lia].
    apply lt_IZR. rewrite plus_IZR. lra.
Qed.

Lemma axis_le_distance (u v : R) : Rabs u <= sqrt (u * u + v * v).
Proof.
  rewrite <- sqrt_Rsqr_abs. apply sqrt_le_1_alt. unfold Rsqr. nra.
Qed.

(** C4 (as amended).  With the cell size 42.0 of the simulation, the
    neighbour query at [(x, y)] on the rebuilt grid yields the index of every
    particle whose coordinates differ from [x] and [y] by at most 42.0 each,
    the differences being taken without periodic wrap; in particular of
    every particle whose unwrapped Euclidean distance to [(x, y)] is at most
    42.0.  (Pairs that are near only across the world boundary are not
    covered.) *)
Theorem neighbors_cover_unwrapped (s : Sim) (j : nat) (q : Particle) (x y : R) :
  SpatialGrid.cell_size (grid s) = 42.0 →
  particles s !! j = Some q →
  ∃ g' : SpatialGrid.t,
    Simulation.rebuild_grid (length (particles s)) s = (set_grid g' s, Ok tt) ∧
    (Rabs (p_x q - x) <= 42.0 → Rabs (p_y q - y) <= 42.0 →
     j ∈ SpatialGrid.neighbors g' x y) ∧
    (sqrt ((p_x q - x) * (p_x q - x) + (p_y q - y) * (p_y q - y)) <= 42.0 →
     j ∈ SpatialGrid.neighbors g' x y).
Proof.
  intros Hsz Hq.
  destruct (neighbors_after_rebuild s x y) as (g' & Hrun & Hmem).
  exists g'. split; [exact Hrun|].
  assert (Haxis : Rabs (p_x q - x) <= 42.0 → Rabs (p_y q - y) <= 42.0 →
                  j ∈ SpatialGrid.neighbors g' x y).
  { intros Hx Hy. apply Hmem. exists q. split; [exact Hq|].
    unfold in_block, SpatialGrid.cell_of. rewrite Hsz. cbn [fst snd].
    split; apply Zfloor_near; first [lra | assumption]. }
  split; [exact Haxis|].
  intros Hd. apply Haxis.
  - etransitivity; [apply axis_le_distance | exact Hd].
  - etransitivity; [apply axis_le_distance|].
    rewrite Rplus_comm. exact Hd.
Qed.

Lemma neighbors_cover_unwrapped_witness :
  let s := mkSim 0.5 1 [mkParticle 10 10 0 0 0 []; mkParticle 50 20 0 0 0 []]
             [] (SpatialGrid.init 42.0)
             (mkRng (fun _ => 0) (fun _ => 0) (fun _ => 0%nat)) 0 in
  ∃ g' : SpatialGrid.t,
    Simulation.rebuild_grid (length (particles s)) s = (set_grid g' s, Ok tt) ∧
    (Rabs (50 - 10) <= 42.0 → Rabs (20 - 10) <= 42.0 →
     1%nat ∈ SpatialGrid.neighbors g' 10 10) ∧
    (sqrt ((50 - 10) * (50 - 10) + (20 - 10) * (20 - 10)) <= 42.0 →
     1%nat ∈ SpatialGrid.neighbors g' 10 10).
Proof.
  apply (neighbors_cover_unwrapped
           (mkSim 0.5 1 [mkParticle 10 10 0 0 0 []; mkParticle 50 20 0 0 0 []]
              [] (SpatialGrid.init 42.0)
              (mkRng (fun _ => 0) (fun _ => 0) (fun _ => 0%nat)) 0)
           1 (mkParticle 50 20 0 0 0 []) 10 10);
    reflexivity.
Defined.

(** C4 (as stated) fails: the particles at (1, 100) and (799, 100) are at
    wrapped distance 2, yet on the rebuilt grid neither is among the
    candidates queried at the position of the other: their cells are 0 and
    19 on the x axis, and the query does not wrap cell coordinates. *)
Lemma neighbors_miss_across_boundary :
  let p_0 := mkParticle 1 100 0 0 0 [] in
  let p_1 := mkParticle 799 100 0 0 0 [] in
  let s := mkSim 0.5 1 [p_0; p_1] [] (SpatialGrid.init 42.0)
             (mkRng (fun _ => 0) (fun _ => 0) (fun _ => 0%nat)) 0 in
  wrapped_distance p_0 p_1 < 42.0 ∧
  ∃ g' : SpatialGrid.t,
    Simulation.rebuild_grid (length (particles s)) s = (set_grid g' s, Ok tt) ∧
    (1%nat ∉ SpatialGrid.neighbors g' (p_x p_0) (p_y p_0)) ∧
    (0%nat ∉ SpatialGrid.neighbors g' (p_x p_1) (p_y p_1)).
Proof.
  cbn zeta. split.
  - unfold wrapped_distance, physics.wrap, physics.WORLD_WIDTH,
      physics.WORLD_HEIGHT, norm2. cbn [p_x p_y].
    repeat decide_one. cbn [fst snd].
    replace ((799 - 1 - 800) * (799 - 1 - 800) + (100 - 100) * (100 - 100))
      with (2 * 2) by lra.
    rewrite sqrt_square by lra. lra.
  - assert (H0 : Zfloor (1 / 42.0) = 0%Z) by (apply Zfloor_eq; lra).
    assert (H19 : Zfloor (799 / 42.0) = 19%Z) by (apply Zfloor_eq; lra).
    set (s := mkSim _ _ _ _ _ _ _).
    destruct (rebuild_grid_spec s) as (g' & Hrun & Hsz & Hmem).
    exists g'. split; [exact Hrun|].
    assert (Hcell : ∀ a b, SpatialGrid.cell_of g' a b = SpatialGrid.cell_of (grid s) a b).
    { intros a b. unfold SpatialGrid.cell_of. rewrite Hsz. reflexivity. }
    split; rewrite elem_of_neighbors; intros (c & [Hb _] & Hj);
      apply Hmem in Hj as (q & Hq & Hc); rewrite Hcell in Hb;
      cbn in Hq; injection Hq as <-; subst c;
      unfold SpatialGrid.cell_of in Hb; cbn [fst p_x p_y grid s SpatialGrid.init
        SpatialGrid.cell_size] in Hb;
      rewrite H0, H19 in Hb; lia.
Qed.

(** ** The pair pass and already bonded pairs *)

Section bonded_pair_facts.
Import bonded_pair.

Lemma bonded_pair_damped : chemistry.prebond_damp 0 1 0.5 s = (s_damped, Ok tt).
Proof.
  unfold chemistry.prebond_damp.
  run. run. run_deficit 0. run_deficit 3.
  decide_now.
  rewrite wrap_near by num. cbn beta iota.
  decide_now. decide_now.
  run. run. run.
  unfold set_particle, modify. f_equal. same_state.
Qed.

Lemma bonded_pair_reactions :
  Simulation._process_reactions 0 1 0.5 s = (s_damped, Ok tt).
Proof.
  unfold Simulation._process_reactions.
  run. run.
  rewrite wrap_near by num. cbn beta iota.
  decide_now.
  erewrite bind_eval by exact bonded_pair_damped. cbn beta.
  erewrite (bind_eval _ _ _ _ false); cycle 1.
  { unfold chemistry.try_form_bond. run. run. run_max_bonds 1%Z 0 0%Z.
    decide_now. reflexivity. }
  cbn beta iota.
  erewrite (bind_eval _ _ _ _ false); cycle 1.
  { unfold chemistry.reaction_addition. run. run.
    repeat decide_now. reflexivity. }
  cbn beta.
  erewrite (bind_eval _ _ _ _ false); cycle 1.
  { unfold chemistry.reaction_substitution. decide_now. reflexivity. }
  cbn beta.
  erewrite (bind_eval _ _ _ _ false); cycle 1.
  { unfold chemistry.reaction_dissociation. run. decide_now. reflexivity. }
  reflexivity.
Qed.

Lemma bonded_pair_yielded :
  SpatialGrid.neighbors (grid s) (p_x p_0) (p_y p_0) = [0%nat; 1%nat].
Proof.
  unfold SpatialGrid.neighbors, SpatialGrid.cell_of.
  cbn [grid s cells SpatialGrid.cell_size p_x p_y p_0].
  replace (Zfloor (100 / 42.0)) with 2%Z by (symmetry; apply Zfloor_eq; lra).
  reflexivity.
Qed.

(** C3 (as amended).  For a pair [i < j] whose [j] is already in the
    adjacency list of [i], the loop body of the pair pass does nothing: the
    force accumulators, the particles, the ledger and the random source are
    left as they were, so neither the non-bonded force nor any reaction
    (damping, formation, addition, substitution, dissociation) is
    evaluated. *)
Theorem pair_body_skips_bonded (i j : nat) (T : R) (f : list R * list R)
    (s : Sim) (p_i : Particle) :
  (i < j)%nat →
  particles s !! i = Some p_i →
  j ∈ p_bonds p_i →
  Simulation.pair_body i T j f s = (s, Ok f).
Proof.
  intros Hij Hi Hj. unfold Simulation.pair_body.
  rewrite decide_False by lia.
  erewrite bind_eval
    by (unfold get_particle, py_index; rewrite Hi; reflexivity).
  cbn beta. rewrite decide_True by exact Hj. reflexivity.
Qed.

Lemma pair_body_skips_bonded_witness :
  Simulation.pair_body 0 0.5 1 f s = (s, Ok f).
Proof.
  apply (pair_body_skips_bonded 0 1 0.5 f s p_0);
    [lia | reflexivity | repeat constructor].
Defined.

(** C3 (as stated) fails: in [bonded_pair.s] the neighbour query of particle
    0 yields the bonded particle 1, and the loop body returns with the state
    untouched, whereas routing the pair through reaction evaluation damps
    the velocities of both particles. *)
Lemma bonded_pair_not_routed :
  1%nat ∈ SpatialGrid.neighbors (grid s) (p_x p_0) (p_y p_0) ∧
  1%nat ∈ p_bonds p_0 ∧
  Simulation.pair_body 0 0.5 1 f s = (s, Ok f) ∧
  pair_body_as_specified 0 0.5 1 f s = (s_damped, Ok f) ∧
  Simulation.pair_body 0 0.5 1 f s ≠ pair_body_as_specified 0 0.5 1 f s.
Proof.
  assert (Hcode : Simulation.pair_body 0 0.5 1 f s = (s, Ok f)).
  { unfold Simulation.pair_body. decide_now. run. decide_now. reflexivity. }
  assert (Hspec : pair_body_as_specified 0 0.5 1 f s = (s_damped, Ok f)).
  { unfold pair_body_as_specified. decide_now. run. decide_now.
    erewrite bind_eval by exact bonded_pair_reactions. reflexivity. }
  split; [rewrite bonded_pair_yielded; repeat constructor|].
  split; [repeat constructor|].
  split; [exact Hcode|]. split; [exact Hspec|].
  rewrite Hcode, Hspec. intros [= H0 H1]. lra.
Qed.

End bonded_pair_facts.

(** ** Preservation of state properties *)

Section preservation.
Context (I : Sim → Prop).

Lemma preserves_ret {A : Type} (a : A) : preserves I (ret a).
Proof. intros s Hs. exact Hs. Qed.

Lemma preserves_mret {A : Type} (a : A) : preserves I (mret a : M A).
Proof. intros s Hs. exact Hs. Qed.

Lemma preserves_read {A : Type} (f : Sim → Res A) :
  preserves I (fun s => (s, f s)).
Proof. intros s Hs. exact Hs. Qed.

Lemma preserves_liftR {A : Type} (r : Res A) : preserves I (liftR r).
Proof. intros s Hs. exact Hs. Qed.

Lemma preserves_get_particle (i : nat) : preserves I (get_particle i).
Proof. intros s Hs. exact Hs. Qed.

Lemma preserves_reads {A : Type} (f : Sim → A) : preserves I (reads f).
Proof. intros s Hs. exact Hs. Qed.

Lemma preserves_bind {A B : Type} (m : M A) (k : A → M B) :
  preserves I m → (∀ a : A, preserves I (k a)) → preserves I (m ≫= k).
Proof.
  intros Hm Hk s Hs. unfold mbind, M_bind, bind.
  specialize (Hm s Hs). destruct (m s) as [s1 [a|e]]; cbn [fst] in *.
  - apply Hk. exact Hm.
  - exact Hm.
Qed.

Lemma preserves_for_each {A : Type} (l : list A) (body : A → M unit) :
  (∀ a : A, preserves I (body a)) → preserves I (for_each l body).
Proof.
  intros Hb. induction l as [|a l IH]; cbn [for_each].
  - apply preserves_ret.
  - apply preserves_bind; [apply Hb | intros _; exact IH].
Qed.

Lemma preserves_for_fold {A B : Type} (l : list A) (acc : B)
    (body : A → B → M B) :
  (∀ (a : A) (b : B), preserves I (body a b)) →
  preserves I (for_fold l acc body).
Proof.
  intros Hb. revert acc. induction l as [|a l IH]; intros acc; cbn [for_fold].
  - apply preserves_ret.
  - apply preserves_bind; [apply Hb | intros acc'; apply IH].
Qed.

Lemma preserves_modify (f : Sim → Sim) :
  (∀ s : Sim, I s → I (f s)) → preserves I (modify f).
Proof. intros Hf s Hs. apply Hf. exact Hs. Qed.

End preservation.

(** A property that only looks at the adjacency lists. *)
Section adjacency_preservation.

Lemma bounded_same_particles (s s' : Sim) :
  particles s' = particles s → bounded_valence s → bounded_valence s'.
Proof. unfold bounded_valence. intros ->. done. Qed.

Lemma bounded_random_random : preserves bounded_valence random_random.
Proof. intros s Hs. exact Hs. Qed.

Lemma bounded_random_gauss (mu sigma : R) :
  preserves bounded_valence (random_gauss mu sigma).
Proof. intros s Hs. exact Hs. Qed.

Lemma bounded_random_choice (l : list nat) :
  preserves bounded_valence (random_choice l).
Proof. intros s Hs. exact Hs. Qed.

Lemma bounded_random_uniform (a b : R) :
  preserves bounded_valence (random_uniform a b).
Proof.
  unfold random_uniform. apply preserves_bind; [apply bounded_random_random|].
  intros u. apply preserves_mret.
Qed.

Lemma bounded_set_particle (i : nat) (p : Particle) :
  (length (p_bonds p) <= 5)%nat → preserves bounded_valence (set_particle i p).
Proof.
  intros Hp s Hs. unfold bounded_valence in *. cbn.
  apply Forall_insert; assumption.
Qed.

(** A particle read from a bounded state is bounded. *)
Lemma bounded_bind_get {B : Type} (i : nat) (k : Particle → M B) :
  (∀ p : Particle, (length (p_bonds p) <= 5)%nat →
                   preserves bounded_valence (k p)) →
  preserves bounded_valence (get_particle i ≫= k).
Proof.
  intros Hk s Hs. unfold mbind, M_bind, bind, get_particle, py_index.
  destruct (particles s !! i) as [p|] eqn:Hp; [|exact Hs].
  apply Hk; [|exact Hs].
  unfold bounded_valence in Hs. rewrite Forall_lookup in Hs.
  exact (Hs i p Hp).
Qed.

End adjacency_preservation.

Lemma length_list_remove_first (v : nat) (l : list nat) :
  (length (list_remove_first v l) <= length l)%nat.
Proof.
  induction l as [|a l IH]; cbn; [lia|].
  destruct (decide (a = v)); cbn; lia.
Qed.

(** Apply the preservation rules along the structure of a computation;
    calls of the functions of the program are left to their own lemmas. *)
Ltac preserve_step :=
  cbv zeta;
  lazymatch goal with
  | |- preserves _ (get_particle _ ≫= _) => apply bounded_bind_get; intros ? ?
  | |- preserves _ (_ ≫= _) => apply preserves_bind; [|intros ?]
  | |- preserves _ (for_each _ _) => apply preserves_for_each; intros ?
  | |- preserves _ (for_fold _ _ _) => apply preserves_for_fold; intros ? ?
  | |- preserves _ (ret _) => apply preserves_ret
  | |- preserves _ (mret _) => apply preserves_mret
  | |- preserves _ (get_particle _) => apply preserves_get_particle
  | |- preserves _ (liftR _) => apply preserves_liftR
  | |- preserves _ (reads _) => apply preserves_reads
  | |- preserves _ random_random => apply bounded_random_random
  | |- preserves _ (random_gauss _ _) => apply bounded_random_gauss
  | |- preserves _ (random_choice _) => apply bounded_random_choice
  | |- preserves _ (random_uniform _ _) => apply bounded_random_uniform
  | |- preserves _ (set_particle _ _) =>
      apply bounded_set_particle;
      cbn [p_bonds with_velocity with_position with_bonds];
      first [assumption | lia]
  | |- preserves _ (modify _) =>
      apply preserves_modify; intros ? ?; assumption
  | |- preserves _ (fun s => (s, _)) => apply preserves_read
  | |- preserves _ (if ?c then _ else _) => destruct c
  | |- preserves _ (match ?x with _ => _ end) => destruct x
  end.

Ltac preserve := repeat preserve_step.

Lemma prebond_damp_bounded (i j : nat) (T : R) :
  preserves bounded_valence (chemistry.prebond_damp i j T).
Proof. unfold chemistry.prebond_damp. preserve. Qed.

Lemma remove_bond_between_bounded (i j : nat) :
  preserves bounded_valence (chemistry.remove_bond_between i j).
Proof.
  unfold chemistry.remove_bond_between. preserve.
  all: apply bounded_set_particle; cbn [p_bonds with_bonds];
    etransitivity; [apply length_list_remove_first | assumption].
Qed.

Lemma choose_order_frame (bt : BondType) (T di dj : R) (pm : bool) (s : Sim) :
  ∃ (s' : Sim) (n : nat),
    chemistry.choose_order bt T di dj pm s = (s', Ok n) ∧
    particles s' = particles s ∧ bonds s' = bonds s ∧ (1 <= n <= 3)%nat.
Proof.
  unfold chemistry.choose_order.
  destruct (decide (bt = covalent)); [|eexists _, _; repeat split; cbn; lia].
  destruct (decide (T <= chemistry.T_GEOM_MAX ∧ di + dj >= 3)).
  - erewrite bind_eval; cycle 1.
    { erewrite bind_eval by reflexivity. reflexivity. }
    cbn beta.
    destruct (decide (rng_uniform (rng s) (rng_pos s) < _)).
    + destruct (decide _).
      * erewrite bind_eval by reflexivity. cbn beta.
        destruct (decide _); eexists _, _; repeat split; cbn; lia.
      * eexists _, _; repeat split; cbn; lia.
    + destruct (decide _).
      * erewrite bind_eval by reflexivity. cbn beta.
        destruct (decide _); eexists _, _; repeat split; cbn; lia.
      * eexists _, _; repeat split; cbn; lia.
  - erewrite bind_eval by reflexivity. cbn beta.
    destruct (decide _).
    + erewrite bind_eval by reflexivity. cbn beta.
      destruct (decide _); eexists _, _; repeat split; cbn; lia.
    + eexists _, _; repeat split; cbn; lia.
Qed.

Lemma bind_read {A B : Type} (f : Sim → Res A) (k : A → M B) (s : Sim) :
  ((fun s0 => (s0, f s0)) ≫= k) s =
  match f s with Ok a => k a s | Raise e => (s, Raise e) end.
Proof. unfold mbind, M_bind, bind. destruct (f s); reflexivity. Qed.

Ltac unchanged :=
  match goal with Q := _ |- _ => subst Q end; cbn beta;
  left; cbn [fst snd mret M_ret ret particles bonds advance_rng];
  repeat split; first [reflexivity | discriminate | congruence].

(** What [try_form_bond] does to the state: nothing to the ledger and the
    particles, or one bond appended and one entry added to the adjacency
    list of each endpoint, both of which were below their dynamic maximum. *)
Lemma try_form_bond_effect (i j : nat) (T : R) (s : Sim) :
  i ≠ j →
  (particles (chemistry.try_form_bond i j T s).1 = particles s ∧
   bonds (chemistry.try_form_bond i j T s).1 = bonds s ∧
   (chemistry.try_form_bond i j T s).2 ≠ Ok true) ∨
  (∃ (p_i p_j : Particle) (b : Bond) (max_i max_j : Z),
      particles s !! i = Some p_i ∧
      particles s !! j = Some p_j ∧
      chemistry.dynamic_max_bonds i (particles s) (bonds s) = Ok max_i ∧
      chemistry.dynamic_max_bonds j (particles s) (bonds s) = Ok max_j ∧
      (Z.of_nat (length (p_bonds p_i)) < max_i)%Z ∧
      (Z.of_nat (length (p_bonds p_j)) < max_j)%Z ∧
      bonds (chemistry.try_form_bond i j T s).1 = bonds s ++ [b] ∧
      particles (chemistry.try_form_bond i j T s).1 =
        <[j := with_bonds p_j (p_bonds p_j ++ [i])]>
          (<[i := with_bonds p_i (p_bonds p_i ++ [j])]> (particles s)) ∧
      (chemistry.try_form_bond i j T s).2 = Ok true ∧
      b_i b = i ∧ b_j b = j ∧
      12.5 <= b_length b <= 22.0 ∧
      (1 <= b_order b <= 3)%nat).
Proof.
  intros Hij. pattern (chemistry.try_form_bond i j T s).
  match goal with |- ?P _ => set (Effect := P) end.
  unfold chemistry.try_form_bond, get_particle.
  rewrite bind_read. unfold py_index at 1.
  destruct (particles s !! i) as [p_i|] eqn:Hi; [|unchanged].
  rewrite bind_read. unfold py_index at 1.
  destruct (particles s !! j) as [p_j|] eqn:Hj; [|unchanged].
  rewrite bind_read.
  destruct (chemistry.dynamic_max_bonds i _ _) as [max_i|] eqn:Hmi; [|unchanged].
  destruct (decide _) as [|Hni]; [unchanged|].
  rewrite bind_read.
  destruct (chemistry.dynamic_max_bonds j _ _) as [max_j|] eqn:Hmj; [|unchanged].
  destruct (decide _) as [|Hnj]; [unchanged|].
  rewrite bind_read.
  destruct (chemistry.shell_deficit i _ _) as [di|] eqn:Hdi; [|unchanged].
  rewrite bind_read.
  destruct (chemistry.shell_deficit j _ _) as [dj|] eqn:Hdj; [|unchanged].
  destruct (decide _) as [|Hnd]; [unchanged|].
  destruct (physics.wrap _ _) as [dx dy].
  destruct (decide _) as [|Hnr]; [unchanged|].
  destruct (decide _) as [|Hnv]; [unchanged|].
  erewrite bind_eval by reflexivity. cbn beta.
  match goal with
  | |- context [decide (rng_uniform ?r ?n > ?x)] =>
      destruct (decide (rng_uniform r n > x)) as [|Hnu]; [unchanged|]
  end.
  unfold liftR. rewrite bind_read.
  destruct (chemistry.classify_bond_type_temp p_i p_j T) as [bt|] eqn:Hbt;
    [|unchanged].
  match goal with
  | |- context [chemistry.choose_order ?a ?b ?c ?d ?e] =>
      destruct (choose_order_frame a b c d e (advance_rng s))
        as (s1 & order & Hco & Hp1 & Hb1 & Horder)
  end.
  erewrite bind_eval by exact Hco. cbn beta.
  rewrite bind_read.
  destruct (chemistry.dipole_from_EN p_i p_j) as [dipole|] eqn:Hdip;
    [|subst Effect; cbn beta; left; cbn [fst snd]; rewrite Hp1, Hb1; unfold advance_rng; cbn [particles bonds]; repeat split; discriminate].
  rewrite bind_read.
  match goal with
  | |- context [match ?r with Ok a => _ | Raise e => _ end] =>
      destruct r as [[acceptor donor]|] eqn:Hroles;
        [|subst Effect; cbn beta; left; cbn [fst snd]; rewrite Hp1, Hb1; unfold advance_rng; cbn [particles bonds]; repeat split; discriminate]
  end.
  erewrite bind_eval by reflexivity. cbn beta.
  erewrite bind_eval; cycle 1.
  { unfold py_index, set_bonds. cbn [particles]. rewrite Hp1.
    unfold advance_rng. cbn [particles]. rewrite Hi. reflexivity. }
  cbn beta.
  erewrite bind_eval by reflexivity. cbn beta.
  erewrite bind_eval; cycle 1.
  { unfold py_index, set_particles, set_bonds. cbn [particles]. rewrite ?Hp1.
    unfold advance_rng. cbn [particles].
    rewrite list_lookup_insert_ne by exact Hij. rewrite Hj. reflexivity. }
  cbn beta.
  erewrite bind_eval by reflexivity. cbn beta.
  subst Effect. cbn beta.
  right. exists p_i, p_j. eexists. exists max_i, max_j.
  split; [reflexivity|]. split; [reflexivity|].
  split; [reflexivity|]. split; [reflexivity|].
  split; [lia|]. split; [lia|].
  unfold set_particle, modify, set_particles, set_bonds.
  cbn [fst snd mret M_ret ret particles bonds].
  rewrite ?Hp1, ?Hb1. unfold advance_rng. cbn [particles bonds].
  split; [reflexivity|]. split; [reflexivity|]. split; [reflexivity|].
  split; [reflexivity|]. split; [reflexivity|].
  split.
  { cbn [b_length chemistry.Bond_init].
    destruct bt; unfold Rmax, Rmin; repeat destruct (Rle_dec _ _); lra. }
  cbn [b_order chemistry.Bond_init]. exact Horder.
Qed.

Lemma try_form_bond_bounded (i j : nat) (T : R) :
  i ≠ j → preserves bounded_valence (chemistry.try_form_bond i j T).
Proof.
  intros Hij s Hs.
  destruct (try_form_bond_effect i j T s Hij)
    as [(Hp & _ & _) |
        (p_i & p_j & b & max_i & max_j & Hi & Hj & Hmi & Hmj & Hli & Hlj
         & _ & Hp & _)].
  - exact (bounded_same_particles _ _ Hp Hs).
  - unfold bounded_valence in *. rewrite Hp.
    apply dynamic_max_bonds_le_5 in Hmi, Hmj.
    apply Forall_insert; [apply Forall_insert; [exact Hs|]|];
      cbn [p_bonds with_bonds]; rewrite length_app; cbn [length]; lia.
Qed.

Lemma reaction_addition_bounded (i j : nat) (T : R) :
  i ≠ j → preserves bounded_valence (chemistry.reaction_addition i j T).
Proof.
  intros Hij. unfold chemistry.reaction_addition. preserve.
  apply try_form_bond_bounded. exact Hij.
Qed.

Lemma reaction_substitution_bounded (i j : nat) (T : R) :
  i ≠ j → preserves bounded_valence (chemistry.reaction_substitution i j T).
Proof.
  intros Hij. unfold chemistry.reaction_substitution. preserve.
  - apply remove_bond_between_bounded.
  - apply try_form_bond_bounded. exact Hij.
Qed.

Lemma reaction_dissociation_bounded (i : nat) (T : R) :
  preserves bounded_valence (chemistry.reaction_dissociation i T).
Proof.
  unfold chemistry.reaction_dissociation. preserve.
  apply remove_bond_between_bounded.
Qed.

Lemma process_reactions_bounded (i j : nat) (T : R) :
  i ≠ j → preserves bounded_valence (Simulation._process_reactions i j T).
Proof.
  intros Hij. unfold Simulation._process_reactions. preserve.
  - apply prebond_damp_bounded.
  - apply try_form_bond_bounded. exact Hij.
  - apply reaction_addition_bounded. exact Hij.
  - apply reaction_substitution_bounded. exact Hij.
  - apply reaction_dissociation_bounded.
Qed.

Lemma pair_body_bounded (i : nat) (T : R) (j : nat) (f : list R * list R) :
  preserves bounded_valence (Simulation.pair_body i T j f).
Proof.
  unfold Simulation.pair_body.
  destruct (decide (j <= i)%nat); [apply preserves_mret|].
  preserve. apply process_reactions_bounded. lia.
Qed.

Lemma pair_pass_bounded (n : nat) (T : R) (f : list R * list R) :
  preserves bounded_valence (Simulation.pair_pass n T f).
Proof. unfold Simulation.pair_pass. preserve. apply pair_body_bounded. Qed.

Lemma bond_body_bounded (T : R) (b_idx : nat) (acc : list R * list R * list nat) :
  preserves bounded_valence (Simulation.bond_body T b_idx acc).
Proof.
  unfold Simulation.bond_body, Simulation.get_bond, Simulation.set_bond.
  destruct acc as [[fx fy] to_break]. preserve.
Qed.

Lemma break_pass_bounded (l : list nat) :
  preserves bounded_valence (Simulation.break_pass l).
Proof.
  unfold Simulation.break_pass, Simulation.get_bond. preserve.
  apply remove_bond_between_bounded.
Qed.

Lemma rebuild_grid_bounded (n : nat) :
  preserves bounded_valence (Simulation.rebuild_grid n).
Proof. unfold Simulation.rebuild_grid. preserve. Qed.

Lemma apply_langevin_bounded (idx : nat) (T : R) (n : nat) (avg : R) :
  preserves bounded_valence (physics.apply_langevin idx T n avg).
Proof. unfold physics.apply_langevin. preserve. Qed.

Lemma rescale_velocities_bounded (T : R) :
  preserves bounded_valence (physics.rescale_velocities T).
Proof. unfold physics.rescale_velocities. preserve. Qed.

Lemma integrate_bounded (forces : list (R * R)) (T : R) :
  preserves bounded_valence (physics.integrate forces T).
Proof.
  unfold physics.integrate. preserve.
  - apply apply_langevin_bounded.
  - apply rescale_velocities_bounded.
Qed.

Lemma step_bounded : preserves bounded_valence Simulation.step.
Proof.
  unfold Simulation.step. preserve.
  - apply rebuild_grid_bounded.
  - apply pair_pass_bounded.
  - apply bond_body_bounded.
  - apply break_pass_bounded.
  - apply integrate_bounded.
Qed.

Lemma create_particles_bounded (n_per_type : nat) :
  preserves bounded_valence (Simulation._create_particles n_per_type).
Proof.
  unfold Simulation._create_particles. preserve.
  apply preserves_modify. intros s Hs. unfold bounded_valence in *. cbn.
  apply Forall_app. split; [exact Hs|]. repeat constructor.
Qed.

Lemma init_bounded (n_types per_type : nat) (T : R) (rng : Rng) :
  bounded_valence (Simulation.init n_types per_type T rng).1.
Proof.
  unfold Simulation.init. apply create_particles_bounded. constructor.
Qed.

Lemma run_op_bounded (op : ChemOp) :
  on_distinct_particles op → preserves bounded_valence (run_op op).
Proof.
  destruct op; cbn [on_distinct_particles run_op]; intros Hd.
  - apply prebond_damp_bounded.
  - preserve. apply try_form_bond_bounded. exact Hd.
  - preserve. apply reaction_addition_bounded. exact Hd.
  - preserve. apply reaction_substitution_bounded. exact Hd.
  - preserve. apply reaction_dissociation_bounded.
  - apply remove_bond_between_bounded.
Qed.

Lemma reachable_bounded (s : Sim) : reachable s → bounded_valence s.
Proof.
  induction 1 as [nt pt T rng | s _ IH | s a _ IH | s a _ IH | s op _ IH Hd].
  - apply init_bounded.
  - apply step_bounded. exact IH.
  - exact IH.
  - exact IH.
  - apply run_op_bounded; assumption.
Qed.

(** C5 (as amended).  In every reachable state every particle has at most
    five bonds in its list, five being the cap of [dynamic_max_bonds]; and
    [try_form_bond] adds a bond between two particles only when the bond
    count of each is below its [dynamic_max_bonds] evaluated before the
    addition. *)
Theorem valence_at_most_cap (s : Sim) :
  reachable s →
  (∀ (i : nat) (p : Particle),
      particles s !! i = Some p → (length (p_bonds p) <= 5)%nat) ∧
  (∀ (i : nat) (m : Z),
      chemistry.dynamic_max_bonds i (particles s) (bonds s) = Ok m →
      (m <= 5)%Z) ∧
  (∀ (i j : nat) (T : R),
      i ≠ j →
      (chemistry.try_form_bond i j T s).2 = Ok true →
      ∃ (p_i p_j : Particle) (max_i max_j : Z),
        particles s !! i = Some p_i ∧
        particles s !! j = Some p_j ∧
        chemistry.dynamic_max_bonds i (particles s) (bonds s) = Ok max_i ∧
        chemistry.dynamic_max_bonds j (particles s) (bonds s) = Ok max_j ∧
        (Z.of_nat (length (p_bonds p_i)) < max_i)%Z ∧
        (Z.of_nat (length (p_bonds p_j)) < max_j)%Z).
Proof.
  intros Hr. split; [|split].
  - intros i p Hp. apply reachable_bounded in Hr.
    unfold bounded_valence in Hr. rewrite Forall_lookup in Hr.
    exact (Hr i p Hp).
  - intros i m Hm. apply dynamic_max_bonds_le_5 in Hm. lia.
  - intros i j T Hij Hok.
    destruct (try_form_bond_effect i j T s Hij)
      as [(_ & _ & Hno) |
          (p_i & p_j & b & max_i & max_j & Hi & Hj & Hmi & Hmj & Hli & Hlj & _)].
    + contradiction.
    + exists p_i, p_j, max_i, max_j. repeat split; assumption.
Qed.

(** ** A particle above its dynamic maximum *)

Section overfull_facts.
Import overfull.

Lemma overfull_constructed : Simulation.init 1 3 0.5 draws = (s_0, Ok tt).
Proof.
  unfold Simulation.init, Simulation._create_particles.
  run. cbn [n_types seq for_each].
  unfold random_uniform.
  repeat (erewrite bind_eval; cycle 1;
          [ repeat (erewrite bind_eval by reflexivity; cbn beta); reflexivity
          | cbn beta ]).
  f_equal. same_state.
Qed.


Lemma overfull_first_bond :
  chemistry.try_form_bond 0 1 0.5 s_0 = (s_1, Ok true).
Proof.
  assert (Hr : sqrt ((p_x p_1 - p_x p_0) * (p_x p_1 - p_x p_0) +
                     (p_y p_1 - p_y p_0) * (p_y p_1 - p_y p_0)) = 10)
    by (apply sqrt_lem_1; num).
  unfold chemistry.try_form_bond.
  run. run. run_max_bonds 4%Z 4 3%Z. decide_now.
  run_max_bonds 4%Z 4 3%Z. decide_now.
  run_deficit 4. run_deficit 4. decide_now.
  rewrite wrap_near by num. cbn beta iota.
  decide_now. decide_now.
  run. repeat decide_now.
  run_lift covalent.
  unfold chemistry.choose_order. repeat decide_now.
  run_sub (run_sub (run; repeat decide_now); repeat decide_now;
           run; repeat decide_now).
  run_lift (-1, 0). repeat decide_now.
  run. cbn beta iota. run. run. run. run. run.
  finish.
Qed.

Lemma overfull_second_bond :
  chemistry.try_form_bond 0 2 0.5 s_1 = (s_2, Ok true).
Proof.
  assert (Hr : sqrt ((p_x p_2 - p_x (with_bonds p_0 [1%nat]))
                     * (p_x p_2 - p_x (with_bonds p_0 [1%nat])) +
                     (p_y p_2 - p_y (with_bonds p_0 [1%nat]))
                     * (p_y p_2 - p_y (with_bonds p_0 [1%nat]))) = 10)
    by (apply sqrt_lem_1; num).
  unfold chemistry.try_form_bond.
  run. run. run_max_bonds 3%Z 2 2%Z. decide_now.
  run_max_bonds 4%Z 4 3%Z. decide_now.
  run_deficit 2. run_deficit 4. decide_now.
  rewrite wrap_near by num. cbn beta iota.
  decide_now. decide_now.
  run. repeat decide_now.
  run_lift covalent.
  unfold chemistry.choose_order. repeat decide_now.
  run_sub (run_sub (run; repeat decide_now); repeat decide_now;
           run; repeat decide_now).
  run_lift (0, -1). repeat decide_now.
  run. cbn beta iota. run. run. run. run. run.
  finish.
Qed.

Lemma overfull_max_bonds :
  chemistry.dynamic_max_bonds 0 (particles s_2) (bonds s_2) = Ok 1%Z.
Proof. max_bonds_is 0 0%Z. Qed.

Lemma overfull_reachable : reachable s_2.
Proof.
  pose proof (reachable_init 1 3 0.5 draws) as H0.
  rewrite overfull_constructed in H0. cbn [fst] in H0.
  pose proof (reachable_chem _ (TryFormBond 0 1 0.5) H0) as H1.
  cbn [run_op on_distinct_particles] in H1.
  erewrite bind_eval in H1 by exact overfull_first_bond.
  specialize (H1 ltac:(lia)). cbn [fst mret M_ret ret] in H1.
  pose proof (reachable_chem _ (TryFormBond 0 2 0.5) H1) as H2.
  cbn [run_op on_distinct_particles] in H2.
  erewrite bind_eval in H2 by exact overfull_second_bond.
  exact (H2 ltac:(lia)).
Qed.

(** C5 (as stated) fails: [overfull.s_2] is reached from the constructor by
    two calls of [try_form_bond], each of which passes the valence guard;
    particle 0 then has two bonds, while the two double bonds have filled
    its shell and its [dynamic_max_bonds] has dropped to 1. *)
Lemma valence_exceeds_dynamic_max :
  reachable s_2 ∧
  ∃ (p : Particle) (m : Z),
    particles s_2 !! 0%nat = Some p ∧
    chemistry.dynamic_max_bonds 0 (particles s_2) (bonds s_2) = Ok m ∧
    ¬ (Z.of_nat (length (p_bonds p)) <= m)%Z.
Proof.
  split; [exact overfull_reachable|].
  eexists _, 1%Z. split; [reflexivity|]. split; [exact overfull_max_bonds|].
  cbn. lia.
Qed.

Lemma valence_at_most_cap_witness :
  (∀ (i : nat) (p : Particle),
      particles s_2 !! i = Some p → (length (p_bonds p) <= 5)%nat) ∧
  (∀ (i : nat) (m : Z),
      chemistry.dynamic_max_bonds i (particles s_2) (bonds s_2) = Ok m →
      (m <= 5)%Z) ∧
  (∀ (i j : nat) (T : R),
      i ≠ j →
      (chemistry.try_form_bond i j T s_2).2 = Ok true →
      ∃ (p_i p_j : Particle) (max_i max_j : Z),
        particles s_2 !! i = Some p_i ∧
        particles s_2 !! j = Some p_j ∧
        chemistry.dynamic_max_bonds i (particles s_2) (bonds s_2) = Ok max_i ∧
        chemistry.dynamic_max_bonds j (particles s_2) (bonds s_2) = Ok max_j ∧
        (Z.of_nat (length (p_bonds p_i)) < max_i)%Z ∧
        (Z.of_nat (length (p_bonds p_j)) < max_j)%Z).
Proof.
  apply (valence_at_most_cap s_2). exact overfull_reachable.
Defined.
End overfull_facts.

(** ** The passes of [step] on pairs and bonds that stay *)

Lemma list_iadd_ok (l : list R) (i : nat) (v : R) :
  (i < length l)%nat →
  ∃ l' : list R, list_iadd l i v = Ok l' ∧ length l' = length l.
Proof.
  intros Hi. unfold list_iadd.
  destruct (lookup_lt_is_Some_2 l i Hi) as [a Ha]. rewrite Ha.
  eexists. split; [reflexivity|]. apply length_insert.
Qed.

(** The loop body of the pair pass on a pair that is not bonded: the forces
    are accumulated and the state is the one the reactions leave. *)
Lemma pair_body_unbonded (i j : nat) (T : R) (f : list R * list R)
    (s s' : Sim) (p_i p_j : Particle) :
  (i < j)%nat →
  (j < length f.1)%nat →
  (j < length f.2)%nat →
  particles s !! i = Some p_i →
  particles s !! j = Some p_j →
  j ∉ p_bonds p_i →
  Simulation._process_reactions i j T s = (s', Ok tt) →
  ∃ f' : list R * list R,
    Simulation.pair_body i T j f s = (s', Ok f') ∧
    length f'.1 = length f.1 ∧ length f'.2 = length f.2.
Proof.
  intros Hij Hj1 Hj2 Hi Hj Hnb Hreact. unfold Simulation.pair_body.
  rewrite decide_False by lia.
  erewrite bind_eval
    by (unfold get_particle, py_index; rewrite Hi; reflexivity).
  cbn beta. rewrite decide_False by exact Hnb.
  erewrite bind_eval
    by (unfold get_particle, py_index; rewrite Hj; reflexivity).
  cbn beta zeta.
  set (nb := physics.compute_nonbonded_force p_i p_j).
  destruct (list_iadd_ok f.1 i nb.1) as (fx1 & H1 & L1); [lia|].
  destruct (list_iadd_ok f.2 i nb.2) as (fy1 & H2 & L2); [lia|].
  destruct (list_iadd_ok fx1 j (- nb.1)) as (fx2 & H3 & L3); [lia|].
  destruct (list_iadd_ok fy1 j (- nb.2)) as (fy2 & H4 & L4); [lia|].
  erewrite bind_eval by (unfold liftR; rewrite H1; reflexivity). cbn beta.
  erewrite bind_eval by (unfold liftR; rewrite H2; reflexivity). cbn beta.
  erewrite bind_eval by (unfold liftR; rewrite H3; reflexivity). cbn beta.
  erewrite bind_eval by (unfold liftR; rewrite H4; reflexivity). cbn beta.
  erewrite bind_eval by exact Hreact. cbn beta.
  exists (fx2, fy2). split; [reflexivity|]. cbn [fst snd]. lia.
Qed.

Lemma pair_body_not_above (i j : nat) (T : R) (f : list R * list R) (s : Sim) :
  (j <= i)%nat → Simulation.pair_body i T j f s = (s, Ok f).
Proof.
  intros Hji. unfold Simulation.pair_body.
  rewrite decide_True by exact Hji. reflexivity.
Qed.

(** The body of the bond pass on a bond that neither check flags: the bond
    ages by one step and the forces are accumulated. *)
Lemma bond_body_kept (T : R) (b_idx : nat) (fx fy : list R) (marked : list nat)
    (s : Sim) (b : Bond) (p_i p_j : Particle) :
  bonds s !! b_idx = Some b →
  particles s !! b_i b = Some p_i →
  particles s !! b_j b = Some p_j →
  (b_i b < length fx)%nat → (b_j b < length fx)%nat →
  length fy = length fx →
  (physics.compute_bond_force p_i p_j (with_age b (b_age b + 1))).2 = false →
  chemistry.try_break_bond (with_age b (b_age b + 1)) (particles s) T
    = Ok false →
  ∃ fx' fy' : list R,
    Simulation.bond_body T b_idx (fx, fy, marked) s =
      (set_bonds (<[b_idx := with_age b (b_age b + 1)]> (bonds s)) s,
       Ok (fx', fy', marked)) ∧
    length fx' = length fx ∧ length fy' = length fx.
Proof.
  intros Hb Hi Hj Hli Hlj Hlen Hphys Hchem.
  unfold Simulation.bond_body.
  erewrite bind_eval
    by (unfold Simulation.get_bond, py_index; rewrite Hb; reflexivity).
  cbn beta zeta.
  erewrite bind_eval by reflexivity. cbn beta.
  cbn [b_i b_j with_age b_dipole].
  erewrite bind_eval
    by (unfold get_particle, py_index, Simulation.set_bond, modify, set_bonds;
        cbn [particles]; rewrite Hi; reflexivity).
  cbn beta.
  erewrite bind_eval
    by (unfold get_particle, py_index, Simulation.set_bond, modify, set_bonds;
        cbn [particles]; rewrite Hj; reflexivity).
  cbn beta.
  destruct (physics.compute_bond_force p_i p_j (with_age b (b_age b + 1)))
    as [[fbx fby] broken] eqn:Hforce.
  cbn [snd] in Hphys. subst broken.
  destruct (physics.compute_dipole_torque p_i p_j (b_dipole b))
    as [[[t1 t2] t3] t4].
  destruct (list_iadd_ok fx (b_i b) fbx) as (fx1 & H1 & L1); [lia|].
  destruct (list_iadd_ok fy (b_i b) fby) as (fy1 & H2 & L2); [lia|].
  destruct (list_iadd_ok fx1 (b_j b) (- fbx)) as (fx2 & H3 & L3); [lia|].
  destruct (list_iadd_ok fy1 (b_j b) (- fby)) as (fy2 & H4 & L4); [lia|].
  destruct (list_iadd_ok fx2 (b_i b) t1) as (fx3 & H5 & L5); [lia|].
  destruct (list_iadd_ok fy2 (b_i b) t2) as (fy3 & H6 & L6); [lia|].
  destruct (list_iadd_ok fx3 (b_j b) t3) as (fx4 & H7 & L7); [lia|].
  destruct (list_iadd_ok fy3 (b_j b) t4) as (fy4 & H8 & L8); [lia|].
  erewrite bind_eval by (unfold liftR; rewrite H1; reflexivity). cbn beta.
  erewrite bind_eval by (unfold liftR; rewrite H2; reflexivity). cbn beta.
  erewrite bind_eval by (unfold liftR; rewrite H3; reflexivity). cbn beta.
  erewrite bind_eval by (unfold liftR; rewrite H4; reflexivity). cbn beta.
  erewrite bind_eval by (unfold liftR; rewrite H5; reflexivity). cbn beta.
  erewrite bind_eval by (unfold liftR; rewrite H6; reflexivity). cbn beta.
  erewrite bind_eval by (unfold liftR; rewrite H7; reflexivity). cbn beta.
  erewrite bind_eval by (unfold liftR; rewrite H8; reflexivity). cbn beta.
  erewrite bind_eval
    by (cbn beta; unfold set_bonds; cbn [particles]; rewrite Hchem; reflexivity).
  cbn beta iota.
  exists fx4, fy4. split; [reflexivity|]. lia.
Qed.

(** ** What [integrate] leaves alone *)

Section structure_frame.
Context (B : list Bond) (L : list (list nat)).

Lemma structure_bind_get {A : Type} (i : nat) (k : Particle → M A) :
  (∀ p : Particle, L !! i = Some (p_bonds p) →
                   preserves (structure_is B L) (k p)) →
  preserves (structure_is B L) (get_particle i ≫= k).
Proof.
  intros Hk s Hs. unfold mbind, M_bind, bind, get_particle, py_index.
  destruct (particles s !! i) as [p|] eqn:Hp; [|exact Hs].
  apply Hk; [|exact Hs].
  destruct Hs as [_ <-]. rewrite list_lookup_fmap, Hp. reflexivity.
Qed.

Lemma structure_set_particle (i : nat) (p : Particle) :
  L !! i = Some (p_bonds p) →
  preserves (structure_is B L) (set_particle i p).
Proof.
  intros Hp s [Hb Hl]. split; [exact Hb|]. cbn.
  rewrite list_fmap_insert, Hl. apply list_insert_id. exact Hp.
Qed.

Lemma structure_random_gauss (mu sigma : R) :
  preserves (structure_is B L) (random_gauss mu sigma).
Proof. intros s Hs. exact Hs. Qed.

End structure_frame.

Ltac frame_step :=
  cbv zeta;
  lazymatch goal with
  | |- preserves _ (get_particle _ ≫= _) => apply structure_bind_get; intros ? ?
  | |- preserves _ (_ ≫= _) => apply preserves_bind; [|intros ?]
  | |- preserves _ (for_each _ _) => apply preserves_for_each; intros ?
  | |- preserves _ (ret _) => apply preserves_ret
  | |- preserves _ (mret _) => apply preserves_mret
  | |- preserves _ (liftR _) => apply preserves_liftR
  | |- preserves _ (reads _) => apply preserves_reads
  | |- preserves _ (random_gauss _ _) => apply structure_random_gauss
  | |- preserves _ (set_particle _ _) =>
      apply structure_set_particle;
      cbn [p_bonds with_velocity with_position]; assumption
  | |- preserves _ (if ?c then _ else _) => destruct c
  | |- preserves _ (match ?x with _ => _ end) => destruct x
  end.

Lemma integrate_structure (B : list Bond) (L : list (list nat))
    (forces : list (R * R)) (T : R) :
  preserves (structure_is B L) (physics.integrate forces T).
Proof.
  unfold physics.integrate, physics.apply_langevin, physics.rescale_velocities.
  repeat frame_step.
Qed.


(** ** A substitution that duplicates a bond *)

Section substitution_facts.
Import substitution.

Lemma substitution_constructed : Simulation.init 3 1 1.2 draws = (s_0, Ok tt).
Proof.
  unfold Simulation.init, Simulation._create_particles.
  run. cbn [n_types seq for_each].
  unfold random_uniform.
  repeat (erewrite bind_eval; cycle 1;
          [ repeat (erewrite bind_eval by reflexivity; cbn beta); reflexivity
          | cbn beta ]).
  f_equal. same_state.
Qed.

Lemma substitution_floor : Zfloor (21 / 42.0) = 0%Z ∧ Zfloor (20 / 42.0) = 0%Z
  ∧ Zfloor (2 / 42.0) = 0%Z ∧ Zfloor (40 / 42.0) = 0%Z.
Proof. repeat split; apply Zfloor_eq; lra. Qed.

Lemma substitution_rebuild : Simulation.rebuild_grid 3 s_0 = (s_grid, Ok tt).
Proof.
  destruct substitution_floor as (F21 & F20 & F2 & F40).
  unfold Simulation.rebuild_grid. run. cbn [seq for_each].
  repeat (erewrite bind_eval; cycle 1;
          [ repeat (erewrite bind_eval by reflexivity; cbn beta); reflexivity
          | cbn beta ]).
  cbv [ret mret M_ret]. f_equal.
  autounfold with scenario.
  cbv [set_grid temperature n_types particles bonds grid rng rng_pos
       SpatialGrid.insert SpatialGrid.clear SpatialGrid.cell_of
       SpatialGrid.init SpatialGrid.cell_size SpatialGrid.grid p_x p_y].
  rewrite F21, F20, F2, F40.
  reflexivity.
Qed.

Lemma substitution_neighbors (x : R) :
  Zfloor (x / 42.0) = 0%Z →
  SpatialGrid.neighbors cells x 20 = [0%nat; 1%nat; 2%nat].
Proof.
  intros Hx. destruct substitution_floor as (_ & F20 & _).
  unfold SpatialGrid.neighbors, SpatialGrid.cell_of.
  cbn [cells SpatialGrid.cell_size]. rewrite Hx, F20. reflexivity.
Qed.

(** Pre-bond damping does nothing to particles at rest. *)
Lemma substitution_damp_01 : chemistry.prebond_damp 0 1 1.2 s_grid = (s_grid, Ok tt).
Proof.
  unfold chemistry.prebond_damp.
  run. run. run_deficit 4. run_deficit 3. decide_now.
  rewrite wrap_near by num. cbn beta iota.
  repeat decide_now. run. run. run. finish.
Qed.

Lemma substitution_form_01 :
  chemistry.try_form_bond 0 1 1.2 s_grid = (s_1, Ok true).
Proof.
  assert (Hr : sqrt ((2 - 21) * (2 - 21) + (20 - 20) * (20 - 20)) = 19)
    by (apply sqrt_lem_1; lra).
  unfold chemistry.try_form_bond.
  run. run. run_max_bonds 4%Z 4 3%Z. decide_now.
  run_max_bonds 5%Z 3 3%Z. decide_now.
  run_deficit 4. run_deficit 3. decide_now.
  rewrite wrap_near by num. cbn beta iota.
  decide_now. decide_now.
  run. repeat decide_now.
  run_lift covalent.
  unfold chemistry.choose_order. repeat decide_now.
  run_sub (run; repeat decide_now).
  run_lift (-1, 0). repeat decide_now.
  run. cbn beta iota. run. run. run. run. run.
  finish.
Qed.

Lemma substitution_reactions_01 :
  Simulation._process_reactions 0 1 1.2 s_grid = (s_1, Ok tt).
Proof.
  unfold Simulation._process_reactions.
  run. run. rewrite wrap_near by num. cbn beta iota. decide_now.
  erewrite bind_eval by exact substitution_damp_01. cbn beta.
  erewrite bind_eval by exact substitution_form_01. reflexivity.
Qed.

Lemma substitution_damp_02 : chemistry.prebond_damp 0 2 1.2 s_1 = (s_1, Ok tt).
Proof.
  unfold chemistry.prebond_damp.
  run. run. run_deficit 3. run_deficit 2. decide_now.
  rewrite wrap_near by num. cbn beta iota.
  repeat decide_now. run. run. run. finish.
Qed.

(** The direct attempt on the pair (0, 2) fails at its draw. *)
Lemma substitution_form_02_fails :
  chemistry.try_form_bond 0 2 1.2 s_1 = (advance_rng s_1, Ok false).
Proof.
  unfold chemistry.try_form_bond.
  run. run. run_max_bonds 4%Z 3 3%Z. decide_now.
  run_max_bonds 5%Z 2 2%Z. decide_now.
  run_deficit 3. run_deficit 2. decide_now.
  rewrite wrap_near by num. cbn beta iota.
  decide_now. decide_now.
  run. repeat decide_now. reflexivity.
Qed.

(** [reaction_addition] forms the bond 0-2. *)
Lemma substitution_addition_02 :
  chemistry.reaction_addition 0 2 1.2 (advance_rng s_1) = (s_2, Ok true).
Proof.
  assert (Hr : sqrt ((40 - 21) * (40 - 21) + (20 - 20) * (20 - 20)) = 19)
    by (apply sqrt_lem_1; lra).
  unfold chemistry.reaction_addition. run. run. repeat decide_now.
  cbn [xorb]. unfold chemistry.try_form_bond.
  run. run. run_max_bonds 4%Z 3 3%Z. decide_now.
  run_max_bonds 5%Z 2 2%Z. decide_now.
  run_deficit 3. run_deficit 2. decide_now.
  rewrite wrap_near by num. cbn beta iota.
  decide_now. decide_now.
  run. repeat decide_now.
  run_lift covalent.
  unfold chemistry.choose_order. repeat decide_now.
  run_sub (run; repeat decide_now).
  run_lift (1, 0). repeat decide_now.
  run. cbn beta iota. run. run. run. run. run.
  finish.
Qed.

Lemma substitution_remove_01 :
  chemistry.remove_bond_between 0 1 s_2 = (s_3, Ok tt).
Proof.
  unfold chemistry.remove_bond_between.
  run. run. decide_now. run. run. decide_now.
  autounfold with scenario.
  cbv [ret mret M_ret set_particle modify set_particles set_bonds particles
       bonds temperature n_types grid rng rng_pos with_bonds p_bonds p_x p_y
       p_vx p_vy p_type insert list_insert chemistry.pop_first_between
       list_remove_first b_i b_j].
  repeat decide_now. reflexivity.
Qed.

(** The second formation of the bond 0-2, inside [reaction_substitution]. *)
Lemma substitution_form_02_again :
  chemistry.try_form_bond 0 2 1.2 s_3 = (s_4 16 0, Ok true).
Proof.
  assert (Hr : sqrt ((40 - 21) * (40 - 21) + (20 - 20) * (20 - 20)) = 19)
    by (apply sqrt_lem_1; lra).
  unfold chemistry.try_form_bond.
  run. run. run_max_bonds 4%Z 3 3%Z. decide_now.
  run_max_bonds 4%Z 1 1%Z. decide_now.
  run_deficit 3. run_deficit 1. decide_now.
  rewrite wrap_near by num. cbn beta iota.
  decide_now. decide_now.
  run. repeat decide_now.
  run_lift covalent.
  unfold chemistry.choose_order. repeat decide_now.
  run_sub (run; repeat decide_now).
  run_lift (1, 0). repeat decide_now.
  run. cbn beta iota. run. run. run. run. run.
  finish.
Qed.

Lemma substitution_weakest :
  fold_res [1%nat; 2%nat] (None, 999)
    (chemistry.weakest_step (particles s_2)) = Ok (Some 1%nat, 1.6).
Proof.
  cbn [fold_res]. unfold chemistry.weakest_step.
  autounfold with scenario.
  repeat (cbn [particles py_index lookup list_lookup p_type mbind Res_bind
               chemistry.ELECTRONEG snd];
          try decide_now).
  reflexivity.
Qed.

Lemma substitution_substitution_02 :
  chemistry.reaction_substitution 0 2 1.2 s_2 = (s_4 16 0, Ok true).
Proof.
  unfold chemistry.reaction_substitution.
  decide_now. run. run. decide_now. run.
  erewrite (bind_eval _ _ _ _ (Some 1%nat, 1.6))
    by (cbn beta; f_equal; exact substitution_weakest).
  cbn beta iota. decide_now.
  erewrite bind_eval by exact substitution_remove_01. cbn beta.
  exact substitution_form_02_again.
Qed.

Lemma substitution_dissociation_0 :
  chemistry.reaction_dissociation 0 1.2 (s_4 16 0) = (s_4 17 0, Ok false).
Proof.
  unfold chemistry.reaction_dissociation.
  run. decide_now. run. repeat decide_now. reflexivity.
Qed.

Lemma substitution_reactions_02 :
  Simulation._process_reactions 0 2 1.2 s_1 = (s_4 17 0, Ok tt).
Proof.
  unfold Simulation._process_reactions.
  run. run. rewrite wrap_near by num. cbn beta iota. decide_now.
  erewrite bind_eval by exact substitution_damp_02. cbn beta.
  erewrite bind_eval by exact substitution_form_02_fails. cbn beta iota.
  erewrite bind_eval by exact substitution_addition_02. cbn beta.
  erewrite bind_eval by exact substitution_substitution_02. cbn beta.
  erewrite bind_eval by exact substitution_dissociation_0. reflexivity.
Qed.

Lemma substitution_reactions_12 :
  Simulation._process_reactions 1 2 1.2 (s_4 17 0) = (s_4 17 0, Ok tt).
Proof.
  unfold Simulation._process_reactions.
  run. run. rewrite wrap_near by num. cbn beta iota. decide_now.
  reflexivity.
Qed.

Lemma substitution_neighbors_of (s : Sim) (p : Particle) :
  grid s = cells → p_y p = 20 → Zfloor (p_x p / 42.0) = 0%Z →
  SpatialGrid.neighbors (grid s) (p_x p) (p_y p) = [0%nat; 1%nat; 2%nat].
Proof.
  intros -> -> Hx. apply substitution_neighbors. exact Hx.
Qed.

Lemma substitution_pair_pass :
  ∃ f : list R * list R,
    Simulation.pair_pass 3 1.2 (replicate 3 0.0, replicate 3 0.0) s_grid =
      (s_4 17 0, Ok f) ∧
    length f.1 = 3%nat ∧ length f.2 = 3%nat.
Proof.
  destruct substitution_floor as (F21 & F20 & F2 & F40).
  destruct (pair_body_unbonded 0 1 1.2 (replicate 3 0.0, replicate 3 0.0)
              s_grid s_1 (mkParticle 21 20 0 0 0 []) (mkParticle 2 20 0 0 1 []))
    as (f1 & H01 & L1 & L1');
    [lia | cbn; lia | cbn; lia | reflexivity | reflexivity | settle
    | exact substitution_reactions_01 |].
  destruct (pair_body_unbonded 0 2 1.2 f1 s_1 (s_4 17 0)
              (mkParticle 21 20 0 0 0 [1%nat]) (mkParticle 40 20 0 0 2 []))
    as (f2 & H02 & L2 & L2');
    [lia | cbn in *; lia | cbn in *; lia | reflexivity | reflexivity | settle
    | exact substitution_reactions_02 |].
  destruct (pair_body_unbonded 1 2 1.2 f2 (s_4 17 0) (s_4 17 0)
              (mkParticle 2 20 0 0 1 []) (mkParticle 40 20 0 0 2 [0%nat; 0%nat]))
    as (f3 & H12 & L3 & L3');
    [lia | cbn in *; lia | cbn in *; lia | reflexivity | reflexivity | settle
    | exact substitution_reactions_12 |].
  exists f3. split; [|cbn in *; lia].
  unfold Simulation.pair_pass. cbn [seq for_fold].
  run_sub (run; run;
           erewrite substitution_neighbors_of
             by first [reflexivity | exact F21];
           cbn [for_fold];
           erewrite bind_eval by (apply pair_body_not_above; lia); cbn beta;
           erewrite bind_eval by exact H01; cbn beta;
           erewrite bind_eval by exact H02; cbn beta).
  run_sub (run; run;
           erewrite substitution_neighbors_of
             by first [reflexivity | exact F2];
           cbn [for_fold];
           erewrite bind_eval by (apply pair_body_not_above; lia); cbn beta;
           erewrite bind_eval by (apply pair_body_not_above; lia); cbn beta;
           erewrite bind_eval by exact H12; cbn beta).
  run_sub (run; run;
           erewrite substitution_neighbors_of
             by first [reflexivity | exact F40];
           cbn [for_fold];
           erewrite bind_eval by (apply pair_body_not_above; lia); cbn beta;
           erewrite bind_eval by (apply pair_body_not_above; lia); cbn beta;
           erewrite bind_eval by (apply pair_body_not_above; lia); cbn beta).
  reflexivity.
Qed.

Lemma substitution_bond_not_flagged (age : nat) :
  let p_0 := mkParticle 21 20 0 0 0 [2%nat; 2%nat] in
  let p_2 := mkParticle 40 20 0 0 2 [0%nat; 0%nat] in
  (physics.compute_bond_force p_0 p_2 (b_02 age)).2 = false ∧
  chemistry.try_break_bond (b_02 age) [p_0; mkParticle 2 20 0 0 1 []; p_2] 1.2
    = Ok false.
Proof.
  assert (Hr : sqrt ((40 - 21) * (40 - 21) + (20 - 20) * (20 - 20)) = 19)
    by (apply sqrt_lem_1; lra).
  cbn zeta. split.
  - unfold physics.compute_bond_force. cbn [p_x p_y].
    rewrite wrap_near by lra. cbn beta iota.
    rewrite decide_False by lra. cbn [snd].
    rewrite Hr. apply bool_decide_eq_false_2. num.
  - unfold chemistry.try_break_bond, py_index.
    cbn [b_02 b_i b_j lookup list_lookup mbind Res_bind p_x p_y].
    rewrite wrap_near by lra. cbn beta iota.
    rewrite Hr.
    cbn [p_vx p_vy p_bonds b_order b_type b_length length Nat.min INR].
    repeat decide_now. reflexivity.
Qed.

Lemma substitution_bond_pass (fx fy : list R) :
  length fx = 3%nat → length fy = 3%nat →
  ∃ fx' fy' : list R,
    for_fold (seq 0 2) (fx, fy, []) (Simulation.bond_body 1.2) (s_4 17 0) =
      (s_4 17 1, Ok (fx', fy', [])) ∧
    length fx' = 3%nat ∧ length fy' = 3%nat.
Proof.
  intros Lx Ly.
  destruct (substitution_bond_not_flagged 1) as [Hphys Hchem].
  destruct (bond_body_kept 1.2 0 fx fy [] (s_4 17 0) (b_02 0)
              (mkParticle 21 20 0 0 0 [2%nat; 2%nat])
              (mkParticle 40 20 0 0 2 [0%nat; 0%nat]))
    as (fx1 & fy1 & H0 & Lx1 & Ly1);
    [reflexivity | reflexivity | reflexivity | cbn; lia | cbn; lia | lia
    | exact Hphys | exact Hchem |].
  destruct (bond_body_kept 1.2 1 fx1 fy1 []
              (mkSim 1.2 3 (parts [2%nat; 2%nat] [] [0%nat; 0%nat])
                 [b_02 1; b_02 0] cells draws 17)
              (b_02 0)
              (mkParticle 21 20 0 0 0 [2%nat; 2%nat])
              (mkParticle 40 20 0 0 2 [0%nat; 0%nat]))
    as (fx2 & fy2 & H1 & Lx2 & Ly2);
    [reflexivity | reflexivity | reflexivity | cbn; lia | cbn; lia | lia
    | exact Hphys | exact Hchem |].
  exists fx2, fy2. split; [|lia].
  cbn [seq for_fold].
  erewrite bind_eval by exact H0. cbn beta.
  erewrite bind_eval by exact H1. reflexivity.
Qed.

(** C2 fails on the code.  From the state the constructor leaves for three
    particles of types 0, 1, 2, one call of [step] leaves a ledger with two
    bonds for the pair (0, 2) and the adjacency lists [[2; 2]] and [[0; 0]]:
    in the pair (0, 2), [reaction_addition] forms the bond 0-2, and
    [reaction_substitution] then removes 0-1 and forms 0-2 a second time.
    (The call ends in the [NameError] of [integrate]; the ledger and the
    adjacency lists are those the bond passes left.) *)
Theorem step_duplicates_bond :
  ∃ s' : Sim,
    Simulation.init 3 1 1.2 draws = (s_0, Ok tt) ∧
    Simulation.step s_0 = (s', Raise (NameError "bonding_factor")) ∧
    bonds s' = [b_02 1; b_02 1] ∧
    p_bonds <$> particles s' = [[2%nat; 2%nat]; []; [0%nat; 0%nat]] ∧
    ¬ ledger_consistent s'.
Proof.
  destruct substitution_pair_pass as ([fx fy] & Hpairs & Lx & Ly).
  cbn [fst snd] in Lx, Ly.
  destruct (substitution_bond_pass fx fy Lx Ly) as (fx' & fy' & Hbonds & Lx' & Ly').
  destruct (integrate_raises_NameError (zip fx' fy') 1.2 (s_4 17 1))
    as (s' & Hint); [done | | lra |].
  { rewrite length_zip_with. cbn. lia. }
  pose proof (integrate_structure [b_02 1; b_02 1]
                [[2%nat; 2%nat]; []; [0%nat; 0%nat]] (zip fx' fy') 1.2
                (s_4 17 1) ltac:(split; reflexivity)) as [Hb Hl].
  rewrite Hint in Hb, Hl. cbn [fst] in Hb, Hl.
  exists s'. split; [exact substitution_constructed|].
  split; [|split; [exact Hb|split; [exact Hl|]]].
  2: { intros (_ & Hpairs' & _).
       apply (Hpairs' 0%nat 1%nat (b_02 1) (b_02 1)).
       - lia.
       - rewrite Hb. reflexivity.
       - rewrite Hb. reflexivity.
       - left. split; reflexivity. }
  unfold Simulation.step.
  run. run.
  erewrite bind_eval by exact substitution_rebuild. cbn beta.
  erewrite bind_eval by exact Hpairs. cbn beta iota.
  run.
  erewrite bind_eval by exact Hbonds. cbn beta iota.
  erewrite bind_eval by reflexivity. cbn beta.
  decide_now.
  erewrite bind_eval by reflexivity. cbn beta iota.
  exact Hint.
Qed.
End substitution_facts.

(** ** Forces and speed limits of [physics.py] *)

Lemma sqrt_pos_sq (a : R) : 0 < a → 0 < sqrt a ∧ sqrt a * sqrt a = a.
Proof.
  intros Ha. split; [apply sqrt_lt_R0; exact Ha | apply sqrt_sqrt; lra].
Qed.

Lemma wrap_odd (dx dy : R) :
  physics.wrap (- dx) (- dy) =
  (- (physics.wrap dx dy).1, - (physics.wrap dx dy).2).
Proof.
  unfold physics.wrap, physics.WORLD_WIDTH, physics.WORLD_HEIGHT.
  cbn [fst snd].
  destruct (decide (dx > 800 * 0.5)), (decide (dx < - 800 * 0.5)),
    (decide (dy > 800 * 0.5)), (decide (dy < - 800 * 0.5));
    repeat decide_one; f_equal; lra.
Qed.

Lemma limit_speed_bound (vx vy max_speed : R) :
  0 <= max_speed →
  norm2 (physics.limit_speed vx vy max_speed) <= max_speed * max_speed.
Proof.
  intros Hm. unfold physics.limit_speed, norm2.
  destruct (decide (vx * vx + vy * vy > max_speed * max_speed)) as [Hfast|Hslow];
    cbn [fst snd]; [|lra].
  set (v2 := vx * vx + vy * vy) in *.
  assert (Hv2 : 0 < v2) by nra.
  destruct (sqrt_pos_sq v2 Hv2) as [Hr Hrr].
  set (r := sqrt v2) in *.
  replace (vx * (max_speed / r) * (vx * (max_speed / r))
           + vy * (max_speed / r) * (vy * (max_speed / r)))
    with (v2 * (max_speed * max_speed) / (r * r)) by (unfold v2; field; lra).
  rewrite Hrr. right. field. lra.
Qed.

(** X1.  [limit_speed] never returns a velocity faster than the limit: a
    velocity within the limit is returned as it is, a faster one is scaled
    down to the limit without changing its direction. *)
Theorem limit_speed_caps (vx vy max_speed : R) :
  0 <= max_speed →
  let v := physics.limit_speed vx vy max_speed in
  norm2 v <= max_speed * max_speed ∧
  (norm2 (vx, vy) <= max_speed * max_speed → v = (vx, vy)) ∧
  (norm2 (vx, vy) > max_speed * max_speed →
   norm2 v = max_speed * max_speed) ∧
  ∃ k : R, 0 <= k <= 1 ∧ v = (vx * k, vy * k).
Proof.
  intros Hm. unfold physics.limit_speed, norm2. cbn [fst snd].
  destruct (decide (vx * vx + vy * vy > max_speed * max_speed)) as [Hfast|Hslow].
  - set (v2 := vx * vx + vy * vy) in *.
    assert (Hv2 : 0 < v2) by nra.
    destruct (sqrt_pos_sq v2 Hv2) as [Hr Hrr].
    set (r := sqrt v2) in *.
    assert (Hnorm : vx * (max_speed / r) * (vx * (max_speed / r))
                    + vy * (max_speed / r) * (vy * (max_speed / r))
                    = max_speed * max_speed).
    { transitivity (v2 * (max_speed * max_speed) / (r * r)).
      - unfold v2. field. lra.
      - rewrite Hrr. field. lra. }
    cbn [fst snd]. repeat split.
    + lra.
    + intros Hle. lra.
    + intros _. exact Hnorm.
    + exists (max_speed / r). split; [|reflexivity].
      assert (Hlt : max_speed < r) by nra.
      split.
      * apply Rmult_le_pos; [lra|]. left. apply Rinv_0_lt_compat. exact Hr.
      * apply Rmult_le_reg_r with r; [exact Hr|].
        unfold Rdiv. rewrite Rmult_assoc, Rinv_l by lra. lra.
  - cbn [fst snd]. repeat split.
    + lra.
    + intros Hgt. lra.
    + exists 1. split; [lra|]. f_equal; lra.
Qed.

Lemma limit_speed_caps_witness :
  let v := physics.limit_speed 30 40 physics.MAX_SPEED in
  norm2 v <= physics.MAX_SPEED * physics.MAX_SPEED ∧
  (norm2 (30, 40) > physics.MAX_SPEED * physics.MAX_SPEED →
   norm2 v = physics.MAX_SPEED * physics.MAX_SPEED).
Proof.
  assert (H : 0 <= physics.MAX_SPEED) by (unfold physics.MAX_SPEED; lra).
  pose proof (limit_speed_caps 30 40 physics.MAX_SPEED H) as (H1 & _ & H3 & _).
  split; [exact H1 | exact H3].
Defined.

(** X2.  The non-bonded force on [p_j] from [p_i] is the opposite of the force
    on [p_i] from [p_j]. *)
Theorem compute_nonbonded_force_antisymmetric (p_i p_j : Particle) :
  physics.compute_nonbonded_force p_j p_i =
  (- (physics.compute_nonbonded_force p_i p_j).1,
   - (physics.compute_nonbonded_force p_i p_j).2).
Proof.
  unfold physics.compute_nonbonded_force.
  replace (p_x p_i - p_x p_j) with (- (p_x p_j - p_x p_i)) by lra.
  replace (p_y p_i - p_y p_j) with (- (p_y p_j - p_y p_i)) by lra.
  rewrite wrap_odd.
  destruct (physics.wrap _ _) as [dx dy]. cbn [fst snd].
  replace (- dx * - dx + - dy * - dy) with (dx * dx + dy * dy) by ring.
  set (r2 := dx * dx + dy * dy).
  destruct (decide (r2 < 1e-9)) as [|Hr2]; [cbn [fst snd]; f_equal; lra|].
  destruct (sqrt_pos_sq r2 ltac:(lra)) as [Hr Hrr].
  destruct (decide (sqrt r2 > physics.NONBONDED_RANGE));
    [cbn [fst snd]; f_equal; lra|].
  destruct (decide (sqrt r2 < 7.5)); cbn [fst snd]; f_equal; field;
    repeat split; lra.
Qed.

(** X3.  The non-bonded force is a bounded central repulsion of finite range:
    the force on [p_i] is parallel to the wrapped displacement towards [p_j],
    never points towards [p_j], vanishes beyond [NONBONDED_RANGE] and is
    nowhere stronger than [NONBONDED_REPULSION / 0.08]. *)
Theorem compute_nonbonded_force_repulsive (p_i p_j : Particle) :
  let f := physics.compute_nonbonded_force p_i p_j in
  let d := physics.wrap (p_x p_j - p_x p_i) (p_y p_j - p_y p_i) in
  f.1 * d.2 - f.2 * d.1 = 0 ∧
  f.1 * d.1 + f.2 * d.2 <= 0 ∧
  (wrapped_distance p_i p_j > physics.NONBONDED_RANGE → f = (0, 0)) ∧
  sqrt (norm2 f) <= physics.NONBONDED_REPULSION / 0.08.
Proof.
  unfold wrapped_distance, physics.compute_nonbonded_force, norm2.
  destruct (physics.wrap _ _) as [dx dy]. cbn [fst snd].
  set (r2 := dx * dx + dy * dy).
  assert (Hzero : sqrt (0 * 0 + 0 * 0) <= physics.NONBONDED_REPULSION / 0.08).
  { replace (0 * 0 + 0 * 0) with 0 by ring. rewrite sqrt_0.
    unfold physics.NONBONDED_REPULSION. lra. }
  destruct (decide (r2 < 1e-9)) as [|Hr2].
  { cbn [fst snd]. repeat split; [lra | lra | intros _; f_equal; lra |].
    replace (0.0 * 0.0 + 0.0 * 0.0) with (0 * 0 + 0 * 0) by lra. exact Hzero. }
  destruct (sqrt_pos_sq r2 ltac:(lra)) as [Hr Hrr].
  set (r := sqrt r2) in *.
  destruct (decide (r > physics.NONBONDED_RANGE)) as [|Hrange].
  { cbn [fst snd]. repeat split; [lra | lra | intros _; f_equal; lra |].
    replace (0.0 * 0.0 + 0.0 * 0.0) with (0 * 0 + 0 * 0) by lra. exact Hzero. }
  unfold physics.NONBONDED_RANGE, physics.NONBONDED_REPULSION,
    physics.NONBONDED_SOFT_REPULSION in *.
  assert (Hunit : dx / r * (dx / r) + dy / r * (dy / r) = 1).
  { transitivity (r2 / (r * r)); [unfold r2; field; lra|].
    rewrite Hrr. field. lra. }
  assert (Hscale : ∀ F : R,
             0 <= F → F <= 140.0 / 0.08 →
             sqrt (dx / r * F * (dx / r * F) + dy / r * F * (dy / r * F))
             <= 140.0 / 0.08).
  { intros F HF0 HF.
    replace (dx / r * F * (dx / r * F) + dy / r * F * (dy / r * F))
      with ((dx / r * (dx / r) + dy / r * (dy / r)) * (F * F)) by ring.
    rewrite Hunit, Rmult_1_l, sqrt_square by exact HF0. exact HF. }
  destruct (decide (r < 7.5)) as [Hnear|Hfar]; cbn [fst snd].
  - set (F := 140.0 / (r2 + 0.08)).
    assert (HF : 0 < F ∧ F <= 140.0 / 0.08).
    { unfold F. split.
      - apply Rdiv_lt_0_compat; lra.
      - unfold Rdiv. apply Rmult_le_compat_l; [lra|].
        apply Rinv_le_contravar; lra. }
    repeat split.
    + field. lra.
    + replace (- (dx / r) * F * dx + - (dy / r) * F * dy)
        with (- (F * (r2 / r))) by (unfold r2; field; lra).
      assert (0 < r2 / r) by (apply Rdiv_lt_0_compat; lra). nra.
    + intros Hgt. lra.
    + replace (- (dx / r) * F * (- (dx / r) * F) + - (dy / r) * F * (- (dy / r) * F))
        with (dx / r * F * (dx / r * F) + dy / r * F * (dy / r * F)) by ring.
      apply Hscale; lra.
  - set (F := 6.0 / r).
    assert (HF : 0 < F ∧ F <= 140.0 / 0.08).
    { unfold F. split.
      - apply Rdiv_lt_0_compat; lra.
      - apply Rle_trans with (6.0 / 7.5); [|lra].
        unfold Rdiv. apply Rmult_le_compat_l; [lra|].
        apply Rinv_le_contravar; lra. }
    repeat split.
    + field. lra.
    + replace (dx / r * - F * dx + dy / r * - F * dy)
        with (- (F * (r2 / r))) by (unfold r2; field; lra).
      assert (0 < r2 / r) by (apply Rdiv_lt_0_compat; lra). nra.
    + intros Hgt. lra.
    + replace (dx / r * - F * (dx / r * - F) + dy / r * - F * (dy / r * - F))
        with (dx / r * F * (dx / r * F) + dy / r * F * (dy / r * F)) by ring.
      apply Hscale; lra.
Qed.

Lemma unit_direction (dx dy : R) :
  ¬ dx * dx + dy * dy < 1e-9 →
  let r := sqrt (dx * dx + dy * dy) in
  0 < r ∧ r * r = dx * dx + dy * dy ∧
  dx / r * (dx / r) + dy / r * (dy / r) = 1.
Proof.
  intros Hr2. destruct (sqrt_pos_sq (dx * dx + dy * dy) ltac:(lra)) as [Hr Hrr].
  cbv zeta. set (r := sqrt _) in *. repeat split; [exact Hr | exact Hrr |].
  transitivity ((dx * dx + dy * dy) / (r * r)); [field; lra|].
  rewrite Hrr. field. lra.
Qed.

(** X4.  The bond force acts along the wrapped line of centres and is never
    stronger than [BOND_FORCE_CAP]; the bond is reported as broken exactly
    when the wrapped distance exceeds [BOND_BREAK_THRESHOLD] times the
    equilibrium length, except for a degenerate pair (squared distance below
    [1e-9]), which is never reported. *)
Theorem compute_bond_force_capped (p_i p_j : Particle) (bond : Bond) :
  let f := physics.compute_bond_force p_i p_j bond in
  let d := physics.wrap (p_x p_j - p_x p_i) (p_y p_j - p_y p_i) in
  f.1.1 * d.2 - f.1.2 * d.1 = 0 ∧
  norm2 f.1 <= physics.BOND_FORCE_CAP * physics.BOND_FORCE_CAP ∧
  (f.2 = true →
   wrapped_distance p_i p_j > b_length bond * physics.BOND_BREAK_THRESHOLD) ∧
  (¬ norm2 d < 1e-9 →
   wrapped_distance p_i p_j > b_length bond * physics.BOND_BREAK_THRESHOLD →
   f.2 = true) ∧
  (norm2 d < 1e-9 → f = (0, 0, false)).
Proof.
  unfold wrapped_distance, physics.compute_bond_force, norm2.
  destruct (physics.wrap _ _) as [dx dy]. cbn [fst snd].
  destruct (decide (dx * dx + dy * dy < 1e-9)) as [Hdeg|Hr2].
  { cbn [fst snd]. unfold physics.BOND_FORCE_CAP.
    repeat split; [lra | lra | discriminate | intros H; contradiction |
                   intros _; repeat f_equal; lra]. }
  destruct (unit_direction dx dy Hr2) as (Hr & Hrr & Hunit).
  set (r := sqrt (dx * dx + dy * dy)) in *.
  set (F := physics.k_eff p_i p_j bond * (r - b_length bond) + _).
  set (Fc := if decide (F > physics.BOND_FORCE_CAP) then _ else _).
  assert (HFc : - physics.BOND_FORCE_CAP <= Fc <= physics.BOND_FORCE_CAP).
  { unfold Fc, physics.BOND_FORCE_CAP.
    destruct (decide (F > 6.5)); [lra|].
    destruct (decide (F < - (6.5))); lra. }
  cbn [fst snd]. repeat split.
  - field. lra.
  - replace (dx / r * Fc * (dx / r * Fc) + dy / r * Fc * (dy / r * Fc))
      with ((dx / r * (dx / r) + dy / r * (dy / r)) * (Fc * Fc)) by ring.
    rewrite Hunit.
    assert (0 <= (physics.BOND_FORCE_CAP - Fc) * (physics.BOND_FORCE_CAP + Fc))
      by (apply Rmult_le_pos; lra).
    lra.
  - intros Hb. apply bool_decide_eq_true_1 in Hb. exact Hb.
  - intros _ Hb. apply bool_decide_eq_true_2. exact Hb.
  - intros Hdeg. contradiction.
Qed.

(** X5.  The dipole torque is a couple: the forces on the two ends are
    opposite, perpendicular to the wrapped line of centres, and not stronger
    than [DIPOLE_STRENGTH] times the length of the dipole vector. *)
Theorem compute_dipole_torque_couple (p_i p_j : Particle) (dipole : R * R) :
  let t := physics.compute_dipole_torque p_i p_j dipole in
  let d := physics.wrap (p_x p_j - p_x p_i) (p_y p_j - p_y p_i) in
  let f_i := (t.1.1.1, t.1.1.2) in
  let f_j := (t.1.2, t.2) in
  f_j = (- f_i.1, - f_i.2) ∧
  f_i.1 * d.1 + f_i.2 * d.2 = 0 ∧
  norm2 f_i <=
    physics.DIPOLE_STRENGTH * physics.DIPOLE_STRENGTH * norm2 dipole.
Proof.
  unfold physics.compute_dipole_torque, norm2.
  destruct (physics.wrap _ _) as [dx dy]. destruct dipole as [a b].
  cbn [fst snd]. unfold physics.DIPOLE_STRENGTH.
  destruct (decide (dx * dx + dy * dy < 1e-9)) as [Hdeg|Hr2].
  { cbn [fst snd]. repeat split; [f_equal; lra | lra |].
    assert (0 <= a * a + b * b) by nra. nra. }
  destruct (unit_direction dx dy Hr2) as (Hr & Hrr & Hunit).
  set (r := sqrt (dx * dx + dy * dy)) in *.
  cbn [fst snd]. repeat split.
  - field. lra.
  - set (nx := dx / r) in *. set (ny := dy / r) in *.
    replace (- ny * ((a * - ny + b * nx) * 0.22)
               * (- ny * ((a * - ny + b * nx) * 0.22))
             + nx * ((a * - ny + b * nx) * 0.22)
               * (nx * ((a * - ny + b * nx) * 0.22)))
      with ((nx * nx + ny * ny)
            * ((a * - ny + b * nx) * (a * - ny + b * nx)) * (0.22 * 0.22))
      by ring.
    rewrite Hunit.
    assert (Hcs : (a * - ny + b * nx) * (a * - ny + b * nx) <= a * a + b * b).
    { pose proof (Rle_0_sqr (a * nx + b * ny)) as Hsq. unfold Rsqr in Hsq.
      replace (a * a + b * b)
        with ((a * a + b * b) * (nx * nx + ny * ny)) by (rewrite Hunit; ring).
      replace ((a * a + b * b) * (nx * nx + ny * ny))
        with ((a * - ny + b * nx) * (a * - ny + b * nx)
              + (a * nx + b * ny) * (a * nx + b * ny)) by ring.
      lra. }
    lra.
Qed.

(** ** Loops that update every particle in place *)

Lemma set_particles_same (s : Sim) : set_particles (particles s) s = s.
Proof. destruct s. reflexivity. Qed.

Lemma set_particles_twice (ps ps' : list Particle) (s : Sim) :
  set_particles ps' (set_particles ps s) = set_particles ps' s.
Proof. reflexivity. Qed.

(** A loop over the indices [k, k + m) whose body rewrites slot [i] with
    [g i] of its content. *)
Lemma for_each_update_from (body : nat → M unit) (g : nat → Particle → Particle)
    (n : nat) :
  (∀ (i : nat) (s : Sim) (p : Particle),
      (i < n)%nat → particles s !! i = Some p →
      body i s = (set_particles (<[i := g i p]> (particles s)) s, Ok tt)) →
  ∀ (m k : nat) (s : Sim),
    (k + m)%nat = length (particles s) → (k + m <= n)%nat →
    for_each (seq k m) body s =
      (set_particles
         (take k (particles s)
          ++ imap (fun j p => g (k + j)%nat p) (drop k (particles s))) s,
       Ok tt).
Proof.
  intros Hbody m. induction m as [|m IH]; intros k s Hlen Hn.
  - cbn [seq for_each]. rewrite drop_ge by lia. cbn [imap].
    rewrite app_nil_r, take_ge by lia. rewrite set_particles_same. reflexivity.
  - cbn [seq for_each].
    destruct (lookup_lt_is_Some_2 (particles s) k ltac:(lia)) as [p Hp].
    erewrite bind_eval by (apply Hbody; [lia | exact Hp]). cbn beta.
    rewrite IH; cycle 1.
    { cbn [particles set_particles]. rewrite length_insert. lia. }
    { lia. }
    cbn [particles set_particles]. rewrite set_particles_twice.
    f_equal. f_equal.
    rewrite take_insert_lt, drop_insert_lt by lia.
    rewrite (take_S_r _ _ _ Hp), (drop_S _ _ _ Hp).
    rewrite insert_app_r_alt by (rewrite length_take; lia).
    rewrite length_take.
    replace (k - k `min` length (particles s))%nat with 0%nat by lia.
    cbn [insert list_insert alter list_alter]. rewrite imap_cons.
    rewrite <- app_assoc. cbn [app].
    replace (k + 0)%nat with k by lia.
    do 2 f_equal.
    apply imap_ext. intros j q _. cbn. f_equal. lia.
Qed.

Lemma for_each_update (body : nat → M unit) (g : nat → Particle → Particle)
    (s : Sim) :
  (∀ (i : nat) (s : Sim) (p : Particle),
      (i < length (particles s))%nat → particles s !! i = Some p →
      body i s = (set_particles (<[i := g i p]> (particles s)) s, Ok tt)) →
  for_each (seq 0 (length (particles s))) body s =
    (set_particles (imap g (particles s)) s, Ok tt).
Proof.
  intros Hbody.
  rewrite (for_each_update_from body g (length (particles s))); try lia.
  - rewrite take_0, drop_0. reflexivity.
  - intros i s0 p Hi Hp. apply Hbody; [|exact Hp].
    apply lookup_lt_Some in Hp. exact Hp.
Qed.

(** ** The thermostat *)

Lemma kinetic_sum_from (a : R) (ps : list Particle) :
  foldl (fun acc p => acc + (p_vx p * p_vx p + p_vy p * p_vy p)) a ps =
  a + kinetic_energy ps.
Proof.
  unfold kinetic_energy. revert a.
  induction ps as [|p ps IH]; intros a; cbn [foldl]; [lra|].
  rewrite IH, (IH (0.0 + _)). lra.
Qed.

Lemma kinetic_energy_cons (p : Particle) (ps : list Particle) :
  kinetic_energy (p :: ps) =
  p_vx p * p_vx p + p_vy p * p_vy p + kinetic_energy ps.
Proof.
  unfold kinetic_energy at 1. cbn [foldl]. rewrite kinetic_sum_from. lra.
Qed.

Lemma kinetic_energy_nonneg (ps : list Particle) : 0 <= kinetic_energy ps.
Proof.
  induction ps as [|p ps IH]; [unfold kinetic_energy; cbn; lra|].
  rewrite kinetic_energy_cons.
  pose proof (Rle_0_sqr (p_vx p)) as H1. pose proof (Rle_0_sqr (p_vy p)) as H2.
  unfold Rsqr in *. lra.
Qed.

Lemma kinetic_energy_scale (k : R) (ps : list Particle) :
  kinetic_energy (scale_velocity k <$> ps) = k * k * kinetic_energy ps.
Proof.
  induction ps as [|p ps IH]; [unfold kinetic_energy; cbn; lra|].
  rewrite fmap_cons, !kinetic_energy_cons, IH. cbn. ring.
Qed.

Lemma INR_length_pos {A : Type} (l : list A) : l ≠ [] → 0 < INR (length l).
Proof.
  intros Hl. destruct l as [|a l]; [done|].
  rewrite length_cons, S_INR. pose proof (pos_INR (length l)). lra.
Qed.

Lemma rescale_velocities_scales (T : R) (s : Sim) :
  particles s ≠ [] →
  1e-9 <= kinetic_temperature (particles s) →
  0 <= T →
  physics.rescale_velocities T s =
    (set_particles
       (scale_velocity
          (1 + (sqrt (T / kinetic_temperature (particles s)) - 1)
               * physics.THERMOSTAT_STRENGTH)
        <$> particles s) s,
     Ok tt).
Proof.
  intros Hne Hwarm HT. unfold physics.rescale_velocities.
  erewrite bind_eval by reflexivity. cbn beta zeta.
  rewrite decide_False by exact Hne.
  change (foldl _ 0.0 (particles s) / INR (length (particles s)))
    with (kinetic_temperature (particles s)).
  rewrite decide_False by lra.
  erewrite bind_eval; cycle 1.
  { unfold liftR, math_sqrt. rewrite decide_False; [reflexivity|].
    assert (0 <= T / kinetic_temperature (particles s));
      [apply Rmult_le_pos; [lra|]; left; apply Rinv_0_lt_compat|]; lra. }
  cbn beta.
  set (k := 1.0 + _).
  rewrite (for_each_update _ (fun _ => scale_velocity k)).
  - f_equal. f_equal. replace (1 + _) with k by (unfold k; lra).
    apply imap_const.
  - intros i s0 p _ Hp.
    erewrite bind_eval
      by (unfold get_particle, py_index; rewrite Hp; reflexivity).
    reflexivity.
Qed.

(** X6.  The thermostat moves the kinetic temperature towards its target and
    never past it: on a system that is neither empty nor at rest, every
    velocity is scaled by the same factor and the kinetic temperature after
    the call lies between the one before and the target. *)
Theorem rescale_velocities_towards_target (T : R) (s : Sim) :
  particles s ≠ [] →
  1e-9 <= kinetic_temperature (particles s) →
  0 <= T →
  ∃ k : R,
    physics.rescale_velocities T s =
      (set_particles (scale_velocity k <$> particles s) s, Ok tt) ∧
    let T0 := kinetic_temperature (particles s) in
    let T1 := kinetic_temperature (scale_velocity k <$> particles s) in
    k = 1 + (sqrt (T / T0) - 1) * physics.THERMOSTAT_STRENGTH ∧
    T1 = k * k * T0 ∧
    (T0 <= T → T0 <= T1 <= T) ∧
    (T <= T0 → T <= T1 <= T0).
Proof.
  intros Hne Hwarm HT. eexists. split.
  { apply rescale_velocities_scales; assumption. }
  cbv zeta. set (T0 := kinetic_temperature (particles s)) in *.
  set (sigma := sqrt (T / T0)). set (k := 1 + _).
  assert (HT1 : kinetic_temperature (scale_velocity k <$> particles s)
                = k * k * T0).
  { unfold kinetic_temperature. rewrite kinetic_energy_scale, length_fmap.
    unfold T0, kinetic_temperature. field.
    pose proof (INR_length_pos _ Hne). lra. }
  rewrite HT1.
  assert (Hq : 0 <= T / T0).
  { apply Rmult_le_pos; [lra|]. left. apply Rinv_0_lt_compat. lra. }
  assert (Hs0 : 0 <= sigma) by apply sqrt_pos.
  assert (Hss : sigma * sigma = T / T0) by (apply sqrt_sqrt; exact Hq).
  assert (HTs : T = sigma * sigma * T0) by (rewrite Hss; field; lra).
  assert (Hk : k = 1 + (sigma - 1) * 0.02) by reflexivity.
  split; [reflexivity|]. split; [reflexivity|]. split.
  - intros Hle.
    assert (Hs1 : 1 <= sigma).
    { destruct (Rle_lt_dec 1 sigma) as [|Hlt]; [assumption|].
      assert (sigma * sigma < 1) by nra. nra. }
    assert (Hk1 : 1 <= k <= sigma) by lra.
    assert (1 <= k * k) by nra.
    assert (k * k <= sigma * sigma) by nra.
    split; [nra|]. rewrite HTs. nra.
  - intros Hle.
    assert (Hs1 : sigma <= 1).
    { destruct (Rle_lt_dec sigma 1) as [|Hlt]; [assumption|].
      assert (1 < sigma * sigma) by nra. nra. }
    assert (Hk1 : sigma <= k <= 1) by lra.
    assert (k * k <= 1) by nra.
    assert (sigma * sigma <= k * k) by nra.
    split; [rewrite HTs; nra | nra].
Qed.

Lemma rescale_velocities_towards_target_witness :
  let s := mkSim 4 1 [mkParticle 0 0 1 0 0 []] [] (SpatialGrid.init 42.0)
             (mkRng (fun _ => 0) (fun _ => 0) (fun _ => 0%nat)) 0 in
  ∃ k : R,
    physics.rescale_velocities 4 s =
      (set_particles (scale_velocity k <$> particles s) s, Ok tt) ∧
    let T0 := kinetic_temperature (particles s) in
    let T1 := kinetic_temperature (scale_velocity k <$> particles s) in
    k = 1 + (sqrt (4 / T0) - 1) * physics.THERMOSTAT_STRENGTH ∧
    T1 = k * k * T0 ∧
    (T0 <= 4 → T0 <= T1 <= 4) ∧
    (4 <= T0 → 4 <= T1 <= T0).
Proof.
  apply rescale_velocities_towards_target.
  - discriminate.
  - unfold kinetic_temperature, kinetic_energy;
    cbn [foldl length particles p_vx p_vy INR]; lra.
  - lra.
Defined.

(** X7.  The thermostat leaves an empty system and a system at rest alone, and
    on any other system a negative target temperature makes it raise
    [ValueError] before any velocity is changed. *)
Theorem rescale_velocities_edge (T : R) (s : Sim) :
  (particles s = [] ∨ kinetic_temperature (particles s) < 1e-9 →
   physics.rescale_velocities T s = (s, Ok tt)) ∧
  (particles s ≠ [] → 1e-9 <= kinetic_temperature (particles s) → T < 0 →
   physics.rescale_velocities T s = (s, Raise ValueError)).
Proof.
  split.
  - intros Hedge. unfold physics.rescale_velocities.
    erewrite bind_eval by reflexivity. cbn beta zeta.
    destruct (decide (particles s = [])) as [|Hne]; [reflexivity|].
    destruct Hedge as [Hnil|Hcold]; [contradiction|].
    change (foldl _ 0.0 (particles s) / INR (length (particles s)))
      with (kinetic_temperature (particles s)).
    rewrite decide_True by exact Hcold. reflexivity.
  - intros Hne Hwarm HT. unfold physics.rescale_velocities.
    erewrite bind_eval by reflexivity. cbn beta zeta.
    rewrite decide_False by exact Hne.
    change (foldl _ 0.0 (particles s) / INR (length (particles s)))
      with (kinetic_temperature (particles s)).
    rewrite decide_False by lra.
    apply bind_raise. unfold liftR, math_sqrt.
    rewrite decide_True; [reflexivity|].
    set (T0 := kinetic_temperature (particles s)) in *.
    assert (0 < / T0) by (apply Rinv_0_lt_compat; lra).
    unfold Rdiv. nra.
Qed.

Lemma rescale_velocities_edge_witness :
  let rest := mkSim 1 1 [mkParticle 0 0 0 0 0 []] [] (SpatialGrid.init 42.0)
                (mkRng (fun _ => 0) (fun _ => 0) (fun _ => 0%nat)) 0 in
  let moving := mkSim 1 1 [mkParticle 0 0 1 0 0 []] [] (SpatialGrid.init 42.0)
                  (mkRng (fun _ => 0) (fun _ => 0) (fun _ => 0%nat)) 0 in
  physics.rescale_velocities 1 rest = (rest, Ok tt) ∧
  physics.rescale_velocities (-1) moving = (moving, Raise ValueError).
Proof.
  split.
  - apply rescale_velocities_edge. right.
    unfold kinetic_temperature, kinetic_energy;
    cbn [foldl length particles p_vx p_vy INR]; lra.
  - apply rescale_velocities_edge.
    + discriminate.
    + unfold kinetic_temperature, kinetic_energy;
    cbn [foldl length particles p_vx p_vy INR]; lra.
    + lra.
Defined.

(** ** What [integrate] does before it raises *)

Lemma imap_zip_with {A B C : Type} (f : A → B → C) (l : list A) (k : list B)
    (g : nat → A → C) :
  length k = length l →
  (∀ (i : nat) (a : A) (b : B), l !! i = Some a → k !! i = Some b →
                                   g i a = f a b) →
  imap g l = zip_with f l k.
Proof.
  intros Hlen Hg. apply list_eq. intros i.
  rewrite list_lookup_imap, lookup_zip_with.
  destruct (l !! i) as [a|] eqn:Ha; cbn; [|reflexivity].
  destruct (lookup_lt_is_Some_2 k i) as [b Hb].
  { apply lookup_lt_Some in Ha. lia. }
  rewrite Hb. cbn. f_equal. apply Hg; assumption.
Qed.

Lemma accelerate_keeps (p : Particle) (f : R * R) :
  p_x (accelerate p f) = p_x p ∧ p_y (accelerate p f) = p_y p ∧
  p_type (accelerate p f) = p_type p ∧ p_bonds (accelerate p f) = p_bonds p ∧
  norm2 (p_vx (accelerate p f), p_vy (accelerate p f))
    <= physics.MAX_SPEED * physics.MAX_SPEED.
Proof.
  unfold accelerate. cbn [p_x p_y p_type p_bonds p_vx p_vy with_velocity].
  repeat split.
  assert (H : 0 <= physics.MAX_SPEED) by (unfold physics.MAX_SPEED; lra).
  pose proof (limit_speed_bound (p_vx p + f.1 * physics.TIME_STEP)
                (p_vy p + f.2 * physics.TIME_STEP) physics.MAX_SPEED H)
    as Hcap.
  destruct (physics.limit_speed _ _ _) as [vx vy]. exact Hcap.
Qed.

Lemma integrate_velocity_loop_effect (forces : list (R * R)) (s : Sim) :
  length forces = length (particles s) →
  for_each (seq 0 (length (particles s))) (fun i =>
    p ← get_particle i;
    '(fx, fy) ← liftR (py_index forces i);
    let vx := p_vx p + fx * physics.TIME_STEP in
    let vy := p_vy p + fy * physics.TIME_STEP in
    let '(vx, vy) := physics.limit_speed vx vy physics.MAX_SPEED in
    set_particle i (with_velocity p vx vy)) s =
  (set_particles (zip_with accelerate (particles s) forces) s, Ok tt).
Proof.
  intros Hlen.
  pose (g := fun (i : nat) (p : Particle) =>
               match forces !! i with
               | Some f => accelerate p f
               | None => p
               end).
  match goal with
  | |- for_each _ ?body _ = _ =>
      assert (Hbody : ∀ (i : nat) (s0 : Sim) (p : Particle),
                 (i < length forces)%nat → particles s0 !! i = Some p →
                 body i s0 =
                   (set_particles (<[i := g i p]> (particles s0)) s0, Ok tt))
  end.
  { intros i s0 p Hi Hp.
    destruct (lookup_lt_is_Some_2 forces i Hi) as [[fx fy] Hf].
    erewrite bind_eval
      by (unfold get_particle, py_index; rewrite Hp; reflexivity).
    cbn beta.
    erewrite bind_eval by (unfold liftR, py_index; rewrite Hf; reflexivity).
    cbn beta iota zeta. unfold g. rewrite Hf. unfold accelerate. cbn [fst snd].
    destruct (physics.limit_speed _ _ _) as [vx vy]. reflexivity. }
  rewrite (for_each_update_from _ g _ Hbody (length (particles s)) 0 s) by lia.
  rewrite take_0, drop_0. cbn [app]. f_equal. f_equal.
  apply imap_zip_with; [exact Hlen|].
  intros i p f _ Hf. unfold g. cbn. rewrite Hf. reflexivity.
Qed.

Lemma integrate_effect (forces : list (R * R)) (T : R) (s : Sim) :
  particles s ≠ [] →
  length forces = length (particles s) →
  0 <= T →
  physics.integrate forces T s =
    (set_particles (zip_with accelerate (particles s) forces) s,
     Raise (NameError "bonding_factor")).
Proof.
  intros Hne Hlen HT. unfold physics.integrate.
  erewrite bind_eval by reflexivity. cbn beta zeta.
  erewrite bind_eval by (apply integrate_velocity_loop_effect; exact Hlen).
  cbn beta.
  destruct (particles s) as [|p0 ps] eqn:Hps; [done|].
  destruct forces as [|f0 forces]; [discriminate Hlen|].
  apply bind_raise. cbn [length seq for_each].
  apply bind_raise.
  erewrite bind_eval by reflexivity.
  cbn beta. apply apply_langevin_raises. exact HT.
Qed.

(** X8.  On a system with at least one particle, [integrate] applies the
    forces to the velocities, limits every speed to [MAX_SPEED], and then
    raises [NameError]: no noise is drawn and no position, type or bond list
    changes. *)
Theorem integrate_accelerates_then_raises (forces : list (R * R)) (T : R)
    (s : Sim) :
  particles s ≠ [] →
  length forces = length (particles s) →
  0 <= T →
  ∃ s' : Sim,
    physics.integrate forces T s = (s', Raise (NameError "bonding_factor")) ∧
    s' = set_particles (zip_with accelerate (particles s) forces) s ∧
    bonds s' = bonds s ∧ rng_pos s' = rng_pos s ∧
    length (particles s') = length (particles s) ∧
    ∀ (i : nat) (p p' : Particle),
      particles s !! i = Some p → particles s' !! i = Some p' →
      p_x p' = p_x p ∧ p_y p' = p_y p ∧ p_type p' = p_type p ∧
      p_bonds p' = p_bonds p ∧
      norm2 (p_vx p', p_vy p') <= physics.MAX_SPEED * physics.MAX_SPEED.
Proof.
  intros Hne Hlen HT. eexists. split; [apply integrate_effect; assumption|].
  split; [reflexivity|]. split; [reflexivity|]. split; [reflexivity|].
  cbn [particles set_particles]. split.
  - rewrite length_zip_with. lia.
  - intros i p p' Hp Hp'. rewrite lookup_zip_with, Hp in Hp'. cbn in Hp'.
    destruct (forces !! i) as [f|]; [|discriminate Hp'].
    cbn in Hp'. injection Hp' as <-. apply accelerate_keeps.
Qed.

Lemma integrate_accelerates_then_raises_witness :
  let s := mkSim 1.0 1 [mkParticle 100 100 0 0 0 []] [] (SpatialGrid.init 42.0)
             (mkRng (fun _ => 0) (fun _ => 0) (fun _ => 0%nat)) 0 in
  ∃ s' : Sim,
    physics.integrate [(100, 0)] 1.0 s
      = (s', Raise (NameError "bonding_factor")) ∧
    s' = set_particles (zip_with accelerate (particles s) [(100, 0)]) s ∧
    bonds s' = bonds s ∧ rng_pos s' = rng_pos s ∧
    length (particles s') = length (particles s) ∧
    ∀ (i : nat) (p p' : Particle),
      particles s !! i = Some p → particles s' !! i = Some p' →
      p_x p' = p_x p ∧ p_y p' = p_y p ∧ p_type p' = p_type p ∧
      p_bonds p' = p_bonds p ∧
      norm2 (p_vx p', p_vy p') <= physics.MAX_SPEED * physics.MAX_SPEED.
Proof.
  apply integrate_accelerates_then_raises.
  - discriminate.
  - reflexivity.
  - lra.
Defined.

(** ** Computations that return *)

Section returns_rules.
Context {A B : Type}.

Lemma returns_ret (P : Sim → Prop) (φ : A → Prop) (a : A) :
  φ a → returns P (ret a) P φ.
Proof. intros Ha s Hs. exists s, a. done. Qed.

Lemma returns_mret (P : Sim → Prop) (φ : A → Prop) (a : A) :
  φ a → returns P (mret a : M A) P φ.
Proof. intros Ha s Hs. exists s, a. done. Qed.

Lemma returns_bind (P Q R : Sim → Prop) (m : M A) (k : A → M B)
    (φ : A → Prop) (ψ : B → Prop) :
  returns P m Q φ → (∀ a : A, φ a → returns Q (k a) R ψ) →
  returns P (m ≫= k) R ψ.
Proof.
  intros Hm Hk s Hs. destruct (Hm s Hs) as (s1 & a & Hrun & Hs1 & Ha).
  destruct (Hk a Ha s1 Hs1) as (s2 & b & Hrun2 & Hs2 & Hb).
  exists s2, b. split; [|done].
  unfold mbind, M_bind, bind. rewrite Hrun. exact Hrun2.
Qed.

Lemma returns_weaken (P P' Q Q' : Sim → Prop) (m : M A) (φ φ' : A → Prop) :
  returns P m Q φ →
  (∀ s : Sim, P' s → P s) → (∀ s : Sim, Q s → Q' s) → (∀ a : A, φ a → φ' a) →
  returns P' m Q' φ'.
Proof.
  intros Hm HP HQ Hφ s Hs. destruct (Hm s (HP s Hs)) as (s1 & a & Hrun & Hs1 & Ha).
  exists s1, a. auto.
Qed.

Lemma returns_read (P : Sim → Prop) (f : Sim → Res A) (φ : A → Prop) :
  (∀ s : Sim, P s → ∃ a : A, f s = Ok a ∧ φ a) →
  returns P (fun s => (s, f s)) P φ.
Proof.
  intros Hf s Hs. destruct (Hf s Hs) as (a & Ha & Hφ).
  exists s, a. rewrite Ha. done.
Qed.

Lemma returns_reads (P : Sim → Prop) (f : Sim → A) (φ : A → Prop) :
  (∀ s : Sim, P s → φ (f s)) → returns P (reads f) P φ.
Proof. intros Hf s Hs. exists s, (f s). split; [reflexivity|]. auto. Qed.

Lemma returns_liftR (P : Sim → Prop) (r : Res A) (a : A) (φ : A → Prop) :
  r = Ok a → φ a → returns P (liftR r) P φ.
Proof. intros -> Ha s Hs. exists s, a. done. Qed.

End returns_rules.

Lemma returns_modify (P Q : Sim → Prop) (f : Sim → Sim) :
  (∀ s : Sim, P s → Q (f s)) → returns P (modify f) Q (fun _ => True).
Proof. intros Hf s Hs. exists (f s), tt. split; [reflexivity|]. auto. Qed.

Lemma returns_for_each {A : Type} (I : Sim → Prop) (l : list A)
    (body : A → M unit) :
  (∀ a : A, a ∈ l → returns I (body a) I (fun _ => True)) →
  returns I (for_each l body) I (fun _ => True).
Proof.
  induction l as [|a l IH]; intros Hbody; cbn [for_each].
  - apply returns_ret. exact Logic.I.
  - eapply returns_bind; [apply Hbody; left|].
    intros _ _. apply IH. intros b Hb. apply Hbody. right. exact Hb.
Qed.

Lemma returns_for_fold {A B : Type} (I : Sim → Prop) (l : list A) (acc : B)
    (body : A → B → M B) (Φ : B → Prop) :
  Φ acc →
  (∀ (a : A) (b : B), a ∈ l → Φ b → returns I (body a b) I Φ) →
  returns I (for_fold l acc body) I Φ.
Proof.
  revert acc. induction l as [|a l IH]; intros acc Hacc Hbody; cbn [for_fold].
  - apply returns_ret. exact Hacc.
  - eapply returns_bind; [apply Hbody; [left | exact Hacc]|].
    intros b Hb. apply IH; [exact Hb|].
    intros a' b' Ha'. apply Hbody. right. exact Ha'.
Qed.

(** ** The invariant of the engine *)

Section engine.
Context (L : list (R * R * nat)) (K : list Bond → Prop).

Lemma engine_length (s : Sim) :
  engine_inv L K s → length (particles s) = length L.
Proof. intros (<- & _). unfold placement. rewrite length_fmap. reflexivity. Qed.

Lemma engine_lookup (s : Sim) (i : nat) (p : Particle) :
  engine_inv L K s → particles s !! i = Some p →
  L !! i = Some (p_x p, p_y p, p_type p) ∧ valid_type p ∧
  Forall (fun k => (k < length L)%nat) (p_bonds p).
Proof.
  intros Hs Hp. pose proof (engine_length s Hs) as Hlen.
  destruct Hs as (<- & (Hparts & _) & _).
  split.
  - unfold placement. rewrite list_lookup_fmap, Hp. reflexivity.
  - rewrite Forall_lookup in Hparts. rewrite <- Hlen. exact (Hparts i p Hp).
Qed.

Lemma engine_in_range (s : Sim) (i : nat) :
  engine_inv L K s → (i < length L)%nat → ∃ p : Particle, particles s !! i = Some p.
Proof.
  intros Hs Hi. apply lookup_lt_is_Some_2. rewrite (engine_length s Hs). exact Hi.
Qed.

Lemma engine_insert (s : Sim) (i : nat) (p : Particle) :
  engine_inv L K s →
  L !! i = Some (p_x p, p_y p, p_type p) →
  Forall (fun k => (k < length L)%nat) (p_bonds p) →
  engine_inv L K (set_particles (<[i := p]> (particles s)) s).
Proof.
  intros Hs Hi Hadj. pose proof (engine_length s Hs) as Hlen.
  destruct (engine_in_range s i Hs) as [q Hq].
  { apply lookup_lt_Some in Hi. exact Hi. }
  destruct (engine_lookup s i q Hs Hq) as (Hq' & Hvalid & _).
  rewrite Hi in Hq'. injection Hq' as Hx Hy Ht.
  destruct Hs as (Hpl & (Hparts & Hbonds & Hgrid) & HK).
  split; [|split; [split; [|split]|]].
  - unfold placement in *. cbn [particles set_particles].
    rewrite list_fmap_insert, Hpl. apply list_insert_id. exact Hi.
  - cbn [particles set_particles]. rewrite length_insert.
    apply Forall_insert; [exact Hparts|].
    split; [unfold valid_type in *; lia|]. rewrite Hlen. exact Hadj.
  - cbn [particles set_particles bonds]. rewrite length_insert. exact Hbonds.
  - cbn [particles set_particles grid]. rewrite length_insert. exact Hgrid.
  - exact HK.
Qed.

Lemma engine_advance (s : Sim) : engine_inv L K s → engine_inv L K (advance_rng s).
Proof. intros Hs. exact Hs. Qed.

Lemma returns_get_particle {A : Type} (i : nat) (k : Particle → M A)
    (Q : Sim → Prop) (φ : A → Prop) :
  (i < length L)%nat →
  (∀ p : Particle,
      L !! i = Some (p_x p, p_y p, p_type p) → valid_type p →
      Forall (fun k => (k < length L)%nat) (p_bonds p) →
      returns (engine_inv L K) (k p) Q φ) →
  returns (engine_inv L K) (get_particle i ≫= k) Q φ.
Proof.
  intros Hi Hk s Hs. destruct (engine_in_range s i Hs Hi) as [p Hp].
  destruct (engine_lookup s i p Hs Hp) as (HL & Hv & Hadj).
  destruct (Hk p HL Hv Hadj s Hs) as (s' & a & Hrun & Hs' & Ha).
  exists s', a. split; [|done].
  unfold mbind, M_bind, bind, get_particle, py_index. rewrite Hp. exact Hrun.
Qed.

Lemma returns_set_particle (i : nat) (p : Particle) :
  L !! i = Some (p_x p, p_y p, p_type p) →
  Forall (fun k => (k < length L)%nat) (p_bonds p) →
  returns (engine_inv L K) (set_particle i p) (engine_inv L K) (fun _ => True).
Proof.
  intros Hi Hadj. apply returns_modify. intros s Hs.
  apply engine_insert; assumption.
Qed.

Lemma returns_random_random :
  returns (engine_inv L K) random_random (engine_inv L K) (fun _ => True).
Proof. intros s Hs. eexists _, _. split; [reflexivity|]. done. Qed.

Lemma returns_random_choice (l : list nat) :
  l ≠ [] →
  returns (engine_inv L K) (random_choice l) (engine_inv L K) (fun k => k ∈ l).
Proof.
  intros Hl s Hs. unfold random_choice, py_index.
  assert (Hlen : (0 < length l)%nat) by (destruct l; [done | cbn; lia]).
  pose proof (Nat.mod_upper_bound (rng_index (rng s) (rng_pos s)) (length l)
                ltac:(lia)) as Hlt.
  destruct (lookup_lt_is_Some_2 l _ Hlt) as [k Hk].
  exists (advance_rng s), k. rewrite Hk. split; [reflexivity|].
  split; [exact Hs|]. eapply list_elem_of_lookup_2. exact Hk.
Qed.

Lemma engine_shell_deficit (s : Sim) (i : nat) :
  engine_inv L K s → (i < length L)%nat →
  ∃ d : R, chemistry.shell_deficit i (particles s) (bonds s) = Ok d ∧ 0 <= d.
Proof.
  intros Hs Hi. destruct (engine_in_range s i Hs Hi) as [p Hp].
  destruct (engine_lookup s i p Hs Hp) as (_ & Hv & _).
  exact (shell_deficit_ok i _ _ p Hp Hv).
Qed.

Lemma engine_dynamic_max_bonds (s : Sim) (i : nat) :
  engine_inv L K s → (i < length L)%nat →
  ∃ m : Z, chemistry.dynamic_max_bonds i (particles s) (bonds s) = Ok m
           ∧ (0 <= m <= 5)%Z.
Proof.
  intros Hs Hi. destruct (engine_in_range s i Hs Hi) as [p Hp].
  destruct (engine_lookup s i p Hs Hp) as (_ & Hv & _).
  exact (dynamic_max_bonds_ok i _ _ p Hp Hv).
Qed.

End engine.

Lemma electroneg_ok (p : Particle) :
  valid_type p →
  ∃ e : R, py_index chemistry.ELECTRONEG (p_type p) = Ok e ∧ 1 <= e <= 3.1.
Proof.
  unfold valid_type. intros Hv.
  destruct (p_type p) as [|[|[|[|[|t]]]]]; [..|lia];
    eexists; (split; [reflexivity|]); cbn; lra.
Qed.

Lemma classify_bond_type_temp_ok (p_i p_j : Particle) (T : R) :
  valid_type p_i → valid_type p_j →
  ∃ bt : BondType, chemistry.classify_bond_type_temp p_i p_j T = Ok bt.
Proof.
  intros Hi Hj. unfold chemistry.classify_bond_type_temp.
  destruct (electroneg_ok p_i Hi) as (e_i & -> & _).
  destruct (electroneg_ok p_j Hj) as (e_j & -> & _).
  cbn [mbind Res_bind].
  repeat match goal with
         | |- context [decide ?P] => destruct (decide P)
         end; eexists; reflexivity.
Qed.

Lemma dipole_from_EN_ok (p_i p_j : Particle) :
  valid_type p_i → valid_type p_j →
  ∃ d : R * R, chemistry.dipole_from_EN p_i p_j = Ok d.
Proof.
  intros Hi Hj. unfold chemistry.dipole_from_EN.
  destruct (electroneg_ok p_i Hi) as (e_i & -> & _).
  destruct (electroneg_ok p_j Hj) as (e_j & -> & _).
  cbn [mbind Res_bind]. destruct (physics.wrap _ _) as [dx dy].
  destruct (decide _); eexists; reflexivity.
Qed.

(** ** The chemistry operations return on well-formed states *)

Lemma returns_liftR_bind {A B : Type} (P Q : Sim → Prop) (a : A)
    (k : A → M B) (φ : B → Prop) :
  returns P (k a) Q φ → returns P (liftR (Ok a) ≫= k) Q φ.
Proof. intros Hk s Hs. exact (Hk s Hs). Qed.

Lemma returns_ret_bind {A B : Type} (P Q : Sim → Prop) (a : A)
    (k : A → M B) (φ : B → Prop) :
  returns P (k a) Q φ → returns P (ret a ≫= k) Q φ.
Proof. intros Hk s Hs. exact (Hk s Hs). Qed.

Lemma engine_set_bonds (L : list (R * R * nat)) (K K' : list Bond → Prop)
    (s : Sim) (bs : list Bond) :
  engine_inv L K s →
  Forall (fun b => (b_i b < length L)%nat ∧ (b_j b < length L)%nat) bs →
  K' bs →
  engine_inv L K' (set_bonds bs s).
Proof.
  intros Hs Hbs HK. pose proof (engine_length L K s Hs) as Hlen.
  destruct Hs as (Hpl & (Hparts & Hbonds & Hgrid) & _).
  split; [exact Hpl|]. split; [|exact HK].
  split; [exact Hparts|]. split; [|exact Hgrid].
  cbn [particles set_bonds bonds]. rewrite Hlen. exact Hbs.
Qed.

Lemma engine_bonds (L : list (R * R * nat)) (K : list Bond → Prop) (s : Sim) :
  engine_inv L K s →
  Forall (fun b => (b_i b < length L)%nat ∧ (b_j b < length L)%nat) (bonds s).
Proof.
  intros Hs. pose proof (engine_length L K s Hs) as Hlen.
  destruct Hs as (_ & (_ & Hbonds & _) & _). rewrite <- Hlen. exact Hbonds.
Qed.

Lemma engine_any (L : list (R * R * nat)) (K : list Bond → Prop) (s : Sim) :
  engine_inv L K s → engine_inv L any_ledger s.
Proof. intros (Hpl & Hwf & _). done. Qed.

Ltac side := first [assumption | lia | done | exact Logic.I].

(** One step along the structure of a computation that returns. *)
Ltac returns_head :=
  first
    [ apply returns_random_random
    | apply returns_read; intros ? ?; eapply engine_shell_deficit; side
    | apply returns_read; intros ? ?; eapply engine_dynamic_max_bonds; side
    | apply returns_set_particle;
      cbn [p_x p_y p_type p_bonds with_velocity with_position with_bonds];
      side ].

Ltac returns_step :=
  cbv zeta;
  lazymatch goal with
  | |- returns _ (get_particle _ ≫= _) _ _ =>
      apply returns_get_particle; [side | intros ? ? ? ?]
  | |- returns _ (liftR (Ok _) ≫= _) _ _ => apply returns_liftR_bind
  | |- returns _ (ret _ ≫= _) _ _ => apply returns_ret_bind
  | |- returns _ ((if ?c then _ else _) ≫= _) _ _ => destruct c
  | |- returns _ (_ ≫= _) _ _ =>
      eapply returns_bind;
      [ returns_head
      | let a := fresh "a" in let Ha := fresh "Ha" in
        intros a Ha; cbv beta in Ha ]
  | |- returns _ (ret _) _ _ => apply returns_ret; side
  | |- returns _ (mret _) _ _ => apply returns_mret; side
  | |- returns _ (set_particle _ _) _ _ =>
      apply returns_set_particle;
      cbn [p_x p_y p_type p_bonds with_velocity with_position with_bonds];
      side
  | |- returns _ (if ?c then _ else _) _ _ => destruct c
  | |- returns _ (let '(_, _) := ?x in _) _ _ => destruct x
  | |- returns _ (match ?x with _ => _ end) _ _ => destruct x
  end.

Section chemistry_returns.
Context (L : list (R * R * nat)).

Lemma returns_prebond_damp (K : list Bond → Prop) (i j : nat) (T : R) :
  (i < length L)%nat → (j < length L)%nat →
  returns (engine_inv L K) (chemistry.prebond_damp i j T) (engine_inv L K)
    (fun _ => True).
Proof.
  intros Hi Hj. unfold chemistry.prebond_damp. repeat returns_step.
Qed.

Lemma returns_choose_order (K : list Bond → Prop) (bt : BondType)
    (T di dj : R) (pm : bool) :
  returns (engine_inv L K) (chemistry.choose_order bt T di dj pm)
    (engine_inv L K) (fun n => (1 <= n <= 3)%nat).
Proof.
  unfold chemistry.choose_order.
  destruct (decide (bt = covalent)); [|apply returns_ret; lia].
  eapply returns_bind with (φ := fun n => (1 <= n <= 2)%nat).
  - destruct (decide _); [|apply returns_ret; lia].
    eapply returns_bind; [apply returns_random_random|].
    intros u _. apply returns_ret. destruct (decide _); lia.
  - intros order Horder. destruct (decide _); [|apply returns_ret; lia].
    eapply returns_bind; [apply returns_random_random|].
    intros u _. apply returns_ret. destruct (decide _); lia.
Qed.

Lemma list_remove_first_Forall (P : nat → Prop) (v : nat) (l : list nat) :
  Forall P l → Forall P (list_remove_first v l).
Proof.
  induction 1 as [|a l Ha Hl IH]; cbn [list_remove_first]; [constructor|].
  destruct (decide (a = v)); [exact Hl | constructor; assumption].
Qed.

Lemma pop_first_between_Forall (P : Bond → Prop) (i j : nat) (bs : list Bond) :
  Forall P bs → Forall P (chemistry.pop_first_between i j bs).
Proof.
  induction 1 as [|b bs Hb Hbs IH]; cbn [chemistry.pop_first_between];
    [constructor|].
  destruct (decide _); [exact Hbs | constructor; assumption].
Qed.

Lemma pop_first_between_length (i j : nat) (bs : list Bond) :
  (length bs <= S (length (chemistry.pop_first_between i j bs)))%nat.
Proof.
  induction bs as [|b bs IH]; cbn [chemistry.pop_first_between length]; [lia|].
  destruct (decide _); cbn [length]; lia.
Qed.

Lemma returns_try_form_bond (i j : nat) (T : R) :
  (i < length L)%nat → (j < length L)%nat →
  returns (engine_inv L any_ledger) (chemistry.try_form_bond i j T)
    (engine_inv L any_ledger) (fun _ => True).
Proof.
  intros Hi Hj. unfold chemistry.try_form_bond.
  repeat returns_step.
  match goal with
  | |- context [chemistry.classify_bond_type_temp ?p ?q _] =>
      destruct (classify_bond_type_temp_ok p q T) as [bt ->]; [assumption..|];
      destruct (dipole_from_EN_ok p q) as [dipole Hdip]; [assumption..|];
      destruct (electroneg_ok p) as (e_i & He_i & _); [assumption|];
      destruct (electroneg_ok q) as (e_j & He_j & _); [assumption|]
  end.
  returns_step.
  eapply returns_bind; [apply returns_choose_order|]. intros order Horder.
  cbv zeta. rewrite Hdip. returns_step.
  rewrite He_i, He_j. cbn [mbind Res_bind].
  match goal with
  | |- returns _ (liftR ?r ≫= _) _ _ =>
      assert (Hroles : ∃ ad : option nat * option nat, r = Ok ad)
        by (repeat destruct (decide _); eexists; reflexivity);
      destruct Hroles as [[acceptor donor] ->]
  end.
  returns_step. cbn beta iota.
  eapply returns_bind with (Q := engine_inv L any_ledger).
  { apply returns_modify. intros s Hs.
    eapply engine_set_bonds; [exact Hs| |exact Logic.I].
    apply Forall_app. split; [exact (engine_bonds L _ s Hs)|].
    repeat constructor; cbn [b_i b_j chemistry.Bond_init]; assumption. }
  intros _ _. returns_step.
  eapply returns_bind.
  { apply returns_set_particle;
      cbn [p_x p_y p_type p_bonds with_bonds]; [assumption|].
    apply Forall_app. split; [assumption | repeat constructor; lia]. }
  intros _ _. returns_step.
  eapply returns_bind.
  { apply returns_set_particle;
      cbn [p_x p_y p_type p_bonds with_bonds]; [assumption|].
    apply Forall_app. split; [assumption | repeat constructor; lia]. }
  intros _ _. apply returns_ret. exact Logic.I.
Qed.

End chemistry_returns.

Section reactions_return.
Context (L : list (R * R * nat)).

(** [remove_bond_between] pops the first bond of the pair from the ledger
    [B] and returns. *)
Lemma returns_remove_bond_between_from (B : list Bond) (i j : nat) :
  (i < length L)%nat → (j < length L)%nat →
  returns (engine_inv L (eq B)) (chemistry.remove_bond_between i j)
    (engine_inv L (eq (chemistry.pop_first_between i j B))) (fun _ => True).
Proof.
  intros Hi Hj. unfold chemistry.remove_bond_between.
  eapply returns_bind
    with (Q := engine_inv L (eq (chemistry.pop_first_between i j B))).
  { apply returns_modify. intros s Hs.
    eapply engine_set_bonds; [exact Hs| |].
    - apply pop_first_between_Forall. exact (engine_bonds L _ s Hs).
    - destruct Hs as (_ & _ & <-). reflexivity. }
  intros _ _. returns_step. returns_step.
  - eapply returns_bind.
    { apply returns_set_particle; cbn [p_x p_y p_type p_bonds with_bonds];
        [assumption | apply list_remove_first_Forall; assumption]. }
    intros _ _. returns_step. returns_step; [|returns_step].
    apply returns_set_particle; cbn [p_x p_y p_type p_bonds with_bonds];
      [assumption | apply list_remove_first_Forall; assumption].
  - returns_step. returns_step. returns_step; [|returns_step].
    apply returns_set_particle; cbn [p_x p_y p_type p_bonds with_bonds];
      [assumption | apply list_remove_first_Forall; assumption].
Qed.

Lemma returns_remove_bond_between (i j : nat) :
  (i < length L)%nat → (j < length L)%nat →
  returns (engine_inv L any_ledger) (chemistry.remove_bond_between i j)
    (engine_inv L any_ledger) (fun _ => True).
Proof.
  intros Hi Hj s Hs.
  destruct (returns_remove_bond_between_from (bonds s) i j Hi Hj s)
    as (s' & a & Hrun & Hs' & _).
  { destruct Hs as (Hpl & Hwf & _). done. }
  exists s', a. split; [exact Hrun|]. split; [|exact Logic.I].
  exact (engine_any L _ s' Hs').
Qed.

Lemma returns_reaction_addition (i j : nat) (T : R) :
  (i < length L)%nat → (j < length L)%nat →
  returns (engine_inv L any_ledger) (chemistry.reaction_addition i j T)
    (engine_inv L any_ledger) (fun _ => True).
Proof.
  intros Hi Hj. unfold chemistry.reaction_addition.
  repeat returns_step. apply returns_try_form_bond; assumption.
Qed.

Lemma weakest_fold_ok (K : list Bond → Prop) (s : Sim) (l : list nat)
    (acc : option nat * R) :
  engine_inv L K s →
  Forall (fun k => (k < length L)%nat) l →
  (∀ k : nat, acc.1 = Some k → (k < length L)%nat) →
  ∃ r : option nat * R,
    fold_res l acc (chemistry.weakest_step (particles s)) = Ok r ∧
    ∀ k : nat, r.1 = Some k → (k < length L)%nat.
Proof.
  intros Hs Hl. revert acc.
  induction Hl as [|k l Hk Hl IH]; intros acc Hacc; cbn [fold_res].
  - exists acc. done.
  - destruct (engine_in_range L K s k Hs Hk) as [p_k Hp].
    destruct (engine_lookup L K s k p_k Hs Hp) as (_ & Hv & _).
    destruct (electroneg_ok p_k Hv) as (e_k & He & _).
    assert (Hstep : chemistry.weakest_step (particles s) k acc =
                    Ok (if decide (e_k < acc.2) then (Some k, e_k) else acc)).
    { unfold chemistry.weakest_step. unfold py_index in *. rewrite Hp.
      cbn [mbind Res_bind]. rewrite He. reflexivity. }
    rewrite Hstep. cbn [mbind Res_bind].
    apply IH. destruct (decide _); cbn [fst]; [|exact Hacc].
    intros k' [= <-]. exact Hk.
Qed.

Lemma returns_reaction_substitution (i j : nat) (T : R) :
  (i < length L)%nat → (j < length L)%nat →
  returns (engine_inv L any_ledger) (chemistry.reaction_substitution i j T)
    (engine_inv L any_ledger) (fun _ => True).
Proof.
  intros Hi Hj. unfold chemistry.reaction_substitution.
  repeat returns_step.
  match goal with
  | Hv : valid_type ?q |- context [py_index chemistry.ELECTRONEG (p_type ?q)] =>
      destruct (electroneg_ok q Hv) as (e_j & -> & _)
  end.
  returns_step.
  eapply returns_bind
    with (φ := fun r : option nat * R =>
                 ∀ k : nat, r.1 = Some k → (k < length L)%nat).
  { apply returns_read. intros s Hs.
    eapply weakest_fold_ok; [exact Hs | assumption | cbn; discriminate]. }
  intros [[k|] en] Hk; cbn [fst] in Hk; [|returns_step].
  returns_step; [|returns_step].
  eapply returns_bind.
  { apply returns_remove_bond_between; [assumption | apply Hk; reflexivity]. }
  intros _ _. apply returns_try_form_bond; assumption.
Qed.

Lemma returns_reaction_dissociation (i : nat) (T : R) :
  (i < length L)%nat →
  returns (engine_inv L any_ledger) (chemistry.reaction_dissociation i T)
    (engine_inv L any_ledger) (fun _ => True).
Proof.
  intros Hi. unfold chemistry.reaction_dissociation.
  repeat returns_step.
  eapply returns_bind.
  { apply returns_random_choice. intros Hnil.
    match goal with
    | H : ¬ (length _ <= 1)%nat |- _ => apply H; rewrite Hnil; cbn [length]; lia
    end. }
  intros k Hk. cbv beta in Hk.
  eapply returns_bind.
  { apply returns_remove_bond_between; [assumption|].
    match goal with
    | H : Forall _ ?l, Hk : _ ∈ ?l |- _ =>
        rewrite Forall_forall in H; exact (H _ Hk)
    end. }
  intros _ _. returns_step.
Qed.

Lemma returns_process_reactions (i j : nat) (T : R) :
  (i < length L)%nat → (j < length L)%nat →
  returns (engine_inv L any_ledger) (Simulation._process_reactions i j T)
    (engine_inv L any_ledger) (fun _ => True).
Proof.
  intros Hi Hj. unfold Simulation._process_reactions.
  repeat returns_step.
  eapply returns_bind; [apply returns_prebond_damp; assumption|].
  intros _ _.
  eapply returns_bind; [apply returns_try_form_bond; assumption|].
  intros [|] _; [returns_step|].
  eapply returns_bind; [apply returns_reaction_addition; assumption|].
  intros _ _.
  eapply returns_bind; [apply returns_reaction_substitution; assumption|].
  intros _ _.
  eapply returns_bind; [apply returns_reaction_dissociation; assumption|].
  intros _ _. returns_step.
Qed.

End reactions_return.

(** ** The passes of [step] return on well-formed states *)

Lemma returns_raises_bind {A B : Type} (P Q R : Sim → Prop) (m : M A)
    (k : A → M B) (φ : A → Prop) (e : exn) :
  returns P m Q φ → (∀ a : A, φ a → raises Q (k a) R e) →
  raises P (m ≫= k) R e.
Proof.
  intros Hm Hk s Hs. destruct (Hm s Hs) as (s1 & a & Hrun & Hs1 & Ha).
  destruct (Hk a Ha s1 Hs1) as (s2 & Hrun2 & Hs2).
  exists s2. split; [|done].
  unfold mbind, M_bind, bind. rewrite Hrun. exact Hrun2.
Qed.

Lemma fold_res_ok {A B : Type} (Φ : B → Prop) (l : list A) (acc : B)
    (body : A → B → Res B) :
  Φ acc →
  (∀ (a : A) (b : B), a ∈ l → Φ b → ∃ b' : B, body a b = Ok b' ∧ Φ b') →
  ∃ r : B, fold_res l acc body = Ok r ∧ Φ r.
Proof.
  revert acc. induction l as [|a l IH]; intros acc Hacc Hbody; cbn [fold_res].
  - exists acc. done.
  - destruct (Hbody a acc ltac:(left) Hacc) as (b & -> & Hb).
    cbn [mbind Res_bind]. apply IH; [exact Hb|].
    intros a' b' Ha'. apply Hbody. right. exact Ha'.
Qed.

Ltac iadd_step :=
  lazymatch goal with
  | |- returns _ (liftR (list_iadd ?l ?i ?v) ≫= _) _ _ =>
      let l' := fresh "l" in
      let E := fresh "E" in
      let Hl := fresh "Hl" in
      destruct (list_iadd_ok l i v) as (l' & E & Hl); [lia|];
      rewrite E; apply returns_liftR_bind
  end.

Section passes_return.
Context (L : list (R * R * nat)).

Lemma engine_set_grid (K : list Bond → Prop) (s : Sim) (g : SpatialGrid.t) :
  engine_inv L K s →
  (∀ (c : Z * Z) (j : nat), j ∈ cell_list g c → (j < length L)%nat) →
  engine_inv L K (set_grid g s).
Proof.
  intros Hs Hg. pose proof (engine_length L K s Hs) as Hlen.
  destruct Hs as (Hpl & (Hparts & Hbonds & Hgrid) & HK).
  split; [exact Hpl|]. split; [|exact HK].
  split; [exact Hparts|]. split; [exact Hbonds|].
  cbn [particles set_grid grid]. rewrite Hlen. exact Hg.
Qed.

Lemma engine_grid (K : list Bond → Prop) (s : Sim) :
  engine_inv L K s →
  ∀ (c : Z * Z) (j : nat), j ∈ cell_list (grid s) c → (j < length L)%nat.
Proof.
  intros Hs. pose proof (engine_length L K s Hs) as Hlen.
  destruct Hs as (_ & (_ & _ & Hgrid) & _). rewrite <- Hlen. exact Hgrid.
Qed.

Lemma returns_rebuild_grid (K : list Bond → Prop) :
  returns (engine_inv L K) (Simulation.rebuild_grid (length L))
    (engine_inv L K) (fun _ => True).
Proof.
  unfold Simulation.rebuild_grid.
  eapply returns_bind with (Q := engine_inv L K).
  { apply returns_modify. intros s Hs. apply engine_set_grid; [exact Hs|].
    intros c j. rewrite cell_list_clear. intros Hj.
    apply elem_of_nil in Hj. contradiction. }
  intros _ _. apply returns_for_each. intros i Hi.
  apply elem_of_seq in Hi. returns_step.
  apply returns_modify. intros s Hs. apply engine_set_grid; [exact Hs|].
  intros c j. rewrite cell_list_insert.
  destruct (decide _); [|apply (engine_grid K s Hs)].
  rewrite elem_of_app, list_elem_of_singleton.
  intros [Hj | ->]; [exact (engine_grid K s Hs c j Hj) | lia].
Qed.

Lemma returns_pair_body (i j : nat) (T : R) (f : list R * list R) :
  (i < length L)%nat → (j < length L)%nat →
  length f.1 = length L → length f.2 = length L →
  returns (engine_inv L any_ledger) (Simulation.pair_body i T j f)
    (engine_inv L any_ledger)
    (fun f' => length f'.1 = length L ∧ length f'.2 = length L).
Proof.
  intros Hi Hj Hf1 Hf2. unfold Simulation.pair_body.
  repeat returns_step.
  do 4 iadd_step.
  eapply returns_bind; [apply returns_process_reactions; assumption|].
  intros _ _. apply returns_ret. cbn [fst snd]. lia.
Qed.

Lemma returns_pair_pass (T : R) (f : list R * list R) :
  length f.1 = length L → length f.2 = length L →
  returns (engine_inv L any_ledger) (Simulation.pair_pass (length L) T f)
    (engine_inv L any_ledger)
    (fun f' => length f'.1 = length L ∧ length f'.2 = length L).
Proof.
  intros Hf1 Hf2. unfold Simulation.pair_pass.
  apply returns_for_fold; [done|].
  intros i f0 Hi [Hf01 Hf02]. apply elem_of_seq in Hi.
  returns_step.
  eapply returns_bind
    with (φ := fun g : SpatialGrid.t =>
                 ∀ (c : Z * Z) (j : nat),
                   j ∈ cell_list g c → (j < length L)%nat).
  { apply returns_reads. intros s Hs. exact (engine_grid _ s Hs). }
  intros g Hg. apply returns_for_fold; [done|].
  intros j f1 Hj [Hf11 Hf12].
  apply elem_of_neighbors in Hj as (c & _ & Hj).
  apply returns_pair_body; [lia | exact (Hg c j Hj) | assumption..].
Qed.

Lemma try_break_bond_ok (K : list Bond → Prop) (s : Sim) (b : Bond) (T : R) :
  engine_inv L K s → (b_i b < length L)%nat → (b_j b < length L)%nat →
  ∃ r : bool, chemistry.try_break_bond b (particles s) T = Ok r.
Proof.
  intros Hs Hi Hj.
  destruct (engine_in_range L K s _ Hs Hi) as [p_i Hpi].
  destruct (engine_in_range L K s _ Hs Hj) as [p_j Hpj].
  unfold chemistry.try_break_bond, py_index. rewrite Hpi, Hpj.
  cbn [mbind Res_bind]. destruct (physics.wrap _ _) as [dx dy].
  repeat destruct (decide _); eexists; reflexivity.
Qed.

Lemma descending_snoc (l : list nat) (k : nat) :
  descending (reverse l) → Forall (fun b => (b < k)%nat) l →
  descending (reverse (l ++ [k])).
Proof.
  intros Hl Hk. rewrite reverse_app. cbn [reverse app descending].
  split; [|exact Hl]. apply Forall_reverse. exact Hk.
Qed.

Lemma returns_bond_body (nb : nat) (T : R) (k : nat)
    (acc : list R * list R * list nat) :
  (k < nb)%nat → marks_ok (length L) k acc →
  returns (engine_inv L (fun bs => length bs = nb))
    (Simulation.bond_body T k acc)
    (engine_inv L (fun bs => length bs = nb)) (marks_ok (length L) (S k)).
Proof.
  intros Hk. destruct acc as [[fx fy] marked].
  intros (Hfx & Hfy & Hlt & Hdesc). cbn [fst snd] in *.
  unfold Simulation.bond_body, Simulation.get_bond.
  eapply returns_bind
    with (φ := fun b : Bond => (b_i b < length L)%nat ∧ (b_j b < length L)%nat).
  { apply returns_read. intros s Hs.
    pose proof (engine_bonds L _ s Hs) as Hbonds.
    destruct Hs as (_ & _ & Hnb).
    destruct (lookup_lt_is_Some_2 (bonds s) k ltac:(lia)) as [b Hb].
    exists b. unfold py_index. rewrite Hb. split; [reflexivity|].
    rewrite Forall_lookup in Hbonds. exact (Hbonds k b Hb). }
  intros b [Hbi Hbj]. cbv zeta.
  eapply returns_bind with (Q := engine_inv L (fun bs => length bs = nb)).
  { apply returns_modify. intros s Hs.
    eapply engine_set_bonds; [exact Hs| |].
    - apply Forall_insert; [exact (engine_bonds L _ s Hs)|].
      cbn [b_i b_j with_age]. done.
    - destruct Hs as (_ & _ & Hnb). rewrite length_insert. exact Hnb. }
  intros _ _. cbn [b_i b_j with_age b_dipole].
  do 2 returns_step.
  destruct (physics.compute_bond_force _ _ _) as [[fbx fby] broken_phys].
  do 4 iadd_step.
  destruct (physics.compute_dipole_torque _ _ _) as [[[t1 t2] t3] t4].
  do 4 iadd_step.
  assert (Hmark : ∀ broken : bool,
             marks_ok (length L) (S k)
               (l5, l6, if broken then marked ++ [k] else marked)).
  { intros broken. unfold marks_ok. cbn [fst snd].
    split; [lia|]. split; [lia|]. destruct broken; split.
    - apply Forall_app. split; [|repeat constructor].
      eapply Forall_impl; [exact Hlt|]. cbn. lia.
    - apply descending_snoc; assumption.
    - eapply Forall_impl; [exact Hlt|]. cbn. lia.
    - exact Hdesc. }
  destruct broken_phys.
  - returns_step. apply returns_ret. exact (Hmark true).
  - eapply returns_bind with (φ := fun _ => True).
    { apply returns_read. intros s Hs.
      destruct (try_break_bond_ok _ s (with_age b (b_age b + 1)) T Hs)
        as [r Hr]; [assumption..|].
      exists r. done. }
    intros broken _. apply returns_ret. exact (Hmark broken).
Qed.

Lemma returns_for_fold_seq {B : Type} (I : Sim → Prop) (Φ : nat → B → Prop)
    (body : nat → B → M B) (m k : nat) (acc : B) :
  Φ k acc →
  (∀ (i : nat) (b : B),
      (k <= i < k + m)%nat → Φ i b → returns I (body i b) I (Φ (S i))) →
  returns I (for_fold (seq k m) acc body) I (Φ (k + m)%nat).
Proof.
  revert k acc. induction m as [|m IH]; intros k acc Hacc Hbody;
    cbn [seq for_fold].
  - apply returns_ret. replace (k + 0)%nat with k by lia. exact Hacc.
  - eapply returns_bind; [apply Hbody; [lia | exact Hacc]|].
    intros b Hb. replace (k + S m)%nat with (S k + m)%nat by lia.
    apply IH; [exact Hb|]. intros i b' Hi. apply Hbody. lia.
Qed.

Lemma returns_bond_pass (nb : nat) (T : R) (fx fy : list R) :
  length fx = length L → length fy = length L →
  returns (engine_inv L (fun bs => length bs = nb))
    (for_fold (seq 0 nb) (fx, fy, []) (Simulation.bond_body T))
    (engine_inv L (fun bs => length bs = nb)) (marks_ok (length L) nb).
Proof.
  intros Hfx Hfy.
  apply (returns_for_fold_seq _ (marks_ok (length L)) _ nb 0).
  - unfold marks_ok. cbn. done.
  - intros i acc Hi Hacc. apply returns_bond_body; [lia | exact Hacc].
Qed.

Lemma break_pass_returns (l : list nat) :
  descending l →
  ∀ s : Sim,
    engine_inv L any_ledger s →
    Forall (fun k => (k < length (bonds s))%nat) l →
    ∃ s' : Sim,
      for_each l (fun b_idx =>
        b ← Simulation.get_bond b_idx;
        chemistry.remove_bond_between (b_i b) (b_j b)) s = (s', Ok tt) ∧
      engine_inv L any_ledger s'.
Proof.
  induction l as [|k l IH]; intros Hdesc s Hs Hl; cbn [for_each].
  - exists s. done.
  - destruct Hdesc as [Hlt Hdesc]. apply Forall_cons in Hl as [Hk Hl].
    destruct (lookup_lt_is_Some_2 (bonds s) k Hk) as [b Hb].
    pose proof (engine_bonds L _ s Hs) as Hbonds.
    rewrite Forall_lookup in Hbonds. destruct (Hbonds k b Hb) as [Hbi Hbj].
    destruct (returns_remove_bond_between_from L (bonds s) (b_i b) (b_j b)
                Hbi Hbj s) as (s1 & [] & Hrun & Hs1 & _).
    { destruct Hs as (Hpl & Hwf & _). done. }
    destruct (IH Hdesc s1 (engine_any L _ s1 Hs1)) as (s2 & Hrun2 & Hs2).
    { destruct Hs1 as (_ & _ & <-).
      pose proof (pop_first_between_length (b_i b) (b_j b) (bonds s)).
      eapply Forall_impl; [exact Hlt|]. cbn. lia. }
    exists s2. split; [|exact Hs2].
    erewrite bind_eval; [exact Hrun2|].
    erewrite bind_eval
      by (unfold Simulation.get_bond, py_index; rewrite Hb; reflexivity).
    exact Hrun.
Qed.

Lemma returns_break_pass (nb : nat) (marked : list nat) :
  Forall (fun b => (b < nb)%nat) marked → descending (reverse marked) →
  returns (engine_inv L (fun bs => length bs = nb))
    (Simulation.break_pass marked) (engine_inv L any_ledger) (fun _ => True).
Proof.
  intros Hlt Hdesc s Hs. unfold Simulation.break_pass.
  destruct (break_pass_returns (reverse marked) Hdesc s (engine_any L _ s Hs))
    as (s' & Hrun & Hs').
  { destruct Hs as (_ & _ & ->). apply Forall_reverse. exact Hlt. }
  exists s', tt. done.
Qed.

End passes_return.

Section geometry_returns.
Context (L : list (R * R * nat)).

Lemma angle_force_ok (i : nat) (strength target : R) (va vb : R * R * nat)
    (f : list R * list R) :
  (i < length L)%nat → forces_ok (length L) f →
  ∃ f' : list R * list R,
    Simulation.angle_force i strength target va vb f = Ok f' ∧
    forces_ok (length L) f'.
Proof.
  intros Hi [Hf1 Hf2]. destruct va as [[ax ay] ja], vb as [[bx by'] jb].
  unfold Simulation.angle_force. cbv zeta.
  destruct (list_iadd_ok f.1 i
              (- strength * (acos (Rmax (-1.0) (Rmin 1.0 (ax * bx + ay * by')))
                             - target) * (- ay + - by')))
    as (fx & -> & Hfx); [lia|].
  destruct (list_iadd_ok f.2 i
              (- strength * (acos (Rmax (-1.0) (Rmin 1.0 (ax * bx + ay * by')))
                             - target) * (ax + bx)))
    as (fy & -> & Hfy); [lia|].
  cbn [mbind Res_bind]. eexists. split; [reflexivity|].
  split; cbn [fst snd]; lia.
Qed.

Lemma angle_pairs_ok (i : nat) (strength target : R)
    (vecs : list (R * R * nat)) (f : list R * list R) :
  (i < length L)%nat → forces_ok (length L) f →
  ∃ f' : list R * list R,
    Simulation.angle_pairs i strength target vecs f = Ok f' ∧
    forces_ok (length L) f'.
Proof.
  intros Hi. revert f.
  induction vecs as [|va rest IH]; intros f Hf; cbn [Simulation.angle_pairs].
  - exists f. done.
  - destruct (fold_res_ok (forces_ok (length L)) rest f
                (Simulation.angle_force i strength target va) Hf)
      as (f1 & -> & Hf1).
    { intros vb f0 _ Hf0. apply angle_force_ok; assumption. }
    cbn [mbind Res_bind]. apply IH. exact Hf1.
Qed.

Lemma bond_directions_ok (K : list Bond → Prop) (s : Sim) (p : Particle) :
  engine_inv L K s →
  Forall (fun k => (k < length L)%nat) (p_bonds p) →
  ∃ vecs : list (R * R * nat),
    Simulation.bond_directions (particles s) p = Ok vecs.
Proof.
  intros Hs Hadj. unfold Simulation.bond_directions.
  destruct (fold_res_ok (fun _ => True) (p_bonds p) []
              (fun j vecs =>
                 pj ← py_index (particles s) j;
                 let dx := p_x pj - p_x p in
                 let dy := p_y pj - p_y p in
                 let '(dx, dy) := physics.wrap dx dy in
                 let r2 := dx * dx + dy * dy in
                 if decide (r2 < 1e-6) then Ok vecs else
                 let r := sqrt r2 in
                 Ok (vecs ++ [(dx / r, dy / r, j)])) Logic.I)
    as (vecs & Hvecs & _).
  - intros j vecs Hj _. rewrite Forall_forall in Hadj.
    destruct (engine_in_range L K s j Hs (Hadj j Hj)) as [pj Hpj].
    unfold py_index. rewrite Hpj. cbn [mbind Res_bind]. cbv zeta.
    destruct (physics.wrap _ _) as [dx dy].
    destruct (decide _); eexists; done.
  - exists vecs. exact Hvecs.
Qed.

Lemma lowT_geometry_ok (K : list Bond → Prop) (s : Sim) (fx fy : list R)
    (T : R) :
  engine_inv L K s → length fx = length L → length fy = length L →
  ∃ f' : list R * list R,
    Simulation._apply_lowT_geometry_forces (particles s) fx fy T = Ok f' ∧
    forces_ok (length L) f'.
Proof.
  intros Hs Hfx Hfy. unfold Simulation._apply_lowT_geometry_forces. cbv zeta.
  apply fold_res_ok; [done|].
  intros i f Hi Hf. apply elem_of_seq in Hi.
  rewrite (engine_length L K s Hs) in Hi.
  destruct (engine_in_range L K s i Hs ltac:(lia)) as [p Hp].
  destruct (engine_lookup L K s i p Hs Hp) as (_ & _ & Hadj).
  unfold py_index. rewrite Hp. cbn [mbind Res_bind].
  destruct (decide _); [exists f; done|].
  destruct (Simulation.target_angles _) as [target|]; [|exists f; done].
  destruct (bond_directions_ok K s p Hs Hadj) as [vecs ->].
  cbn [mbind Res_bind].
  destruct (decide _); [exists f; done|].
  apply angle_pairs_ok; [lia | exact Hf].
Qed.

End geometry_returns.


(** ** Every step of a well-formed system raises [NameError] *)

Section step_raises.
Context (L : list (R * R * nat)).

Lemma engine_accelerate (K : list Bond → Prop) (s : Sim)
    (forces : list (R * R)) :
  engine_inv L K s → length forces = length L →
  engine_inv L K (set_particles (zip_with accelerate (particles s) forces) s).
Proof.
  intros Hs Hf. pose proof (engine_length L K s Hs) as Hlen.
  destruct Hs as (Hpl & (Hparts & Hbonds & Hgrid) & HK).
  assert (Hlen' : length (zip_with accelerate (particles s) forces)
                  = length (particles s))
    by (rewrite length_zip_with; lia).
  split; [|split; [split; [|split]|]].
  - rewrite <- Hpl. unfold placement. cbn [particles set_particles].
    apply list_eq. intros i.
    rewrite !list_lookup_fmap, lookup_zip_with.
    destruct (particles s !! i) as [p|] eqn:Hp; cbn; [|reflexivity].
    destruct (lookup_lt_is_Some_2 forces i) as [f ->].
    { apply lookup_lt_Some in Hp. lia. }
    destruct (accelerate_keeps p f) as (Hx & Hy & Ht & _).
    cbn [fmap option_fmap option_map mbind option_bind mret option_ret].
    rewrite Hx, Hy, Ht. reflexivity.
  - cbn [particles set_particles]. rewrite Hlen'.
    rewrite Forall_lookup. intros i p' Hp'.
    rewrite lookup_zip_with in Hp'.
    destruct (particles s !! i) as [p|] eqn:Hp; [|discriminate Hp'].
    cbn in Hp'. destruct (forces !! i) as [f|]; [|discriminate Hp'].
    cbn in Hp'. injection Hp' as <-.
    rewrite Forall_lookup in Hparts. specialize (Hparts i p Hp).
    destruct (accelerate_keeps p f) as (_ & _ & Ht & Hb & _).
    unfold valid_type. rewrite Ht, Hb. exact Hparts.
  - cbn [particles set_particles bonds]. rewrite Hlen'. exact Hbonds.
  - cbn [particles set_particles grid]. rewrite Hlen'. exact Hgrid.
  - exact HK.
Qed.

Lemma integrate_raises (K : list Bond → Prop) (forces : list (R * R))
    (T : R) :
  L ≠ [] → length forces = length L → 0 <= T →
  raises (engine_inv L K) (physics.integrate forces T) (engine_inv L K)
    (NameError "bonding_factor").
Proof.
  intros HL Hf HT s Hs. pose proof (engine_length L K s Hs) as Hlen.
  eexists. split.
  - apply integrate_effect; [|lia|exact HT].
    intros Hnil. rewrite Hnil in Hlen. destruct L; [done | discriminate Hlen].
  - apply engine_accelerate; assumption.
Qed.

Lemma step_raises :
  L ≠ [] →
  raises (fun s => engine_inv L any_ledger s ∧ 0 <= temperature s)
    Simulation.step (engine_inv L any_ledger) (NameError "bonding_factor").
Proof.
  intros HL. unfold Simulation.step.
  eapply returns_raises_bind
    with (Q := fun s => engine_inv L any_ledger s ∧ 0 <= temperature s)
         (φ := fun n => n = length L).
  { apply returns_reads. intros s [Hs _]. exact (engine_length L _ s Hs). }
  intros n ->.
  eapply returns_raises_bind
    with (Q := engine_inv L any_ledger) (φ := fun T => 0 <= T).
  { intros s [Hs HT]. exists s, (temperature s). done. }
  intros T HT.
  eapply returns_raises_bind; [apply returns_rebuild_grid|]. intros _ _.
  cbv zeta.
  eapply returns_raises_bind.
  { apply returns_pair_pass; cbn [fst snd]; apply length_replicate. }
  intros [fx fy] [Hfx Hfy]. cbn [fst snd] in Hfx, Hfy.
  intros s Hs.
  set (nb := length (bonds s)).
  assert (Hs_nb : engine_inv L (fun bs => length bs = nb) s).
  { destruct Hs as (Hpl & Hwf & _). done. }
  erewrite bind_eval by reflexivity. cbn beta. fold nb.
  destruct (returns_bond_pass L nb T fx fy Hfx Hfy s Hs_nb)
    as (s1 & [[fx1 fy1] marked] & Hrun1 & Hs1 & Hacc).
  destruct Hacc as (Hfx1 & Hfy1 & Hlt & Hdesc). cbn [fst snd] in *.
  erewrite bind_eval by exact Hrun1. cbn beta iota.
  destruct (returns_break_pass L nb marked Hlt Hdesc s1 Hs1)
    as (s2 & [] & Hrun2 & Hs2 & _).
  erewrite bind_eval by exact Hrun2. cbn beta.
  assert (Hforces : ∃ f' : list R * list R,
             (if decide (T < 1.0)
              then fun s0 => (s0, Simulation._apply_lowT_geometry_forces
                                    (particles s0) fx1 fy1 T)
              else ret (fx1, fy1)) s2 = (s2, Ok f') ∧
             forces_ok (length L) f').
  { destruct (decide (T < 1.0)).
    - destruct (lowT_geometry_ok L _ s2 fx1 fy1 T Hs2 Hfx1 Hfy1)
        as (f' & Hf' & Hok).
      exists f'. rewrite Hf'. done.
    - exists (fx1, fy1). done. }
  destruct Hforces as ([fx2 fy2] & Hrun3 & Hfx2 & Hfy2). cbn [fst snd] in *.
  erewrite bind_eval by exact Hrun3. cbn beta iota.
  apply (integrate_raises any_ledger _ T HL); [|exact HT|exact Hs2].
  rewrite length_zip_with. lia.
Qed.

End step_raises.

(** ** What no operation writes *)

(** One step along the structure of a computation, for a property of the
    state that no primitive operation changes. *)
Ltac keep_step :=
  cbv zeta;
  lazymatch goal with
  | |- preserves _ (chemistry.prebond_damp _ _ _) =>
      unfold chemistry.prebond_damp
  | |- preserves _ (chemistry.try_form_bond _ _ _) =>
      unfold chemistry.try_form_bond
  | |- preserves _ (chemistry.choose_order _ _ _ _ _) =>
      unfold chemistry.choose_order
  | |- preserves _ (chemistry.remove_bond_between _ _) =>
      unfold chemistry.remove_bond_between
  | |- preserves _ (chemistry.reaction_addition _ _ _) =>
      unfold chemistry.reaction_addition
  | |- preserves _ (chemistry.reaction_substitution _ _ _) =>
      unfold chemistry.reaction_substitution
  | |- preserves _ (chemistry.reaction_dissociation _ _) =>
      unfold chemistry.reaction_dissociation
  | |- preserves _ (Simulation._process_reactions _ _ _) =>
      unfold Simulation._process_reactions
  | |- preserves _ (Simulation.pair_body _ _ _ _) =>
      unfold Simulation.pair_body
  | |- preserves _ (Simulation.pair_pass _ _ _) =>
      unfold Simulation.pair_pass
  | |- preserves _ (Simulation.bond_body _ _ _) =>
      unfold Simulation.bond_body
  | |- preserves _ (Simulation.break_pass _) =>
      unfold Simulation.break_pass
  | |- preserves _ (Simulation.rebuild_grid _) =>
      unfold Simulation.rebuild_grid
  | |- preserves _ (physics.integrate _ _) => unfold physics.integrate
  | |- preserves _ (physics.apply_langevin _ _ _ _) =>
      unfold physics.apply_langevin
  | |- preserves _ (physics.rescale_velocities _) =>
      unfold physics.rescale_velocities
  | |- preserves _ (_ ≫= _) => apply preserves_bind; [|intros ?]
  | |- preserves _ (for_each _ _) => apply preserves_for_each; intros ?
  | |- preserves _ (for_fold _ _ _) => apply preserves_for_fold; intros ? ?
  | |- preserves _ (if ?c then _ else _) => destruct c
  | |- preserves _ (match ?x with _ => _ end) => destruct x
  | |- preserves _ _ => let s := fresh "s" in let Hs := fresh "Hs" in
                        intros s Hs; exact Hs
  end.

Lemma step_keeps_controls (C : R * nat * Rng) :
  preserves (fun s => controls s = C) Simulation.step.
Proof. unfold Simulation.step. repeat keep_step. Qed.

(** ** The constructor *)

Lemma create_one (t : nat) (s : Sim) :
  (x ← random_uniform 0 physics.WORLD_WIDTH;
   y ← random_uniform 0 physics.WORLD_HEIGHT;
   vx ← random_uniform (-2.2) 2.2;
   vy ← random_uniform (-2.2) 2.2;
   modify (fun s =>
     set_particles (particles s ++ [Simulation.Particle_init x y vx vy t]) s)) s
  = (mkSim (temperature s) (n_types s)
       (particles s ++ [drawn_particle (rng s) (rng_pos s) t])
       (bonds s) (grid s) (rng s) (4 + rng_pos s), Ok tt).
Proof.
  unfold random_uniform.
  repeat (erewrite bind_eval; cycle 1;
          [ repeat (erewrite bind_eval by reflexivity; cbn beta); reflexivity
          | cbn beta ]).
  reflexivity.
Qed.

Lemma created_S (rng : Rng) (per_type n : nat) :
  created rng per_type (S n) =
  created rng per_type n ++ [drawn_particle rng (4 * n) (n / per_type)].
Proof. unfold created. rewrite seq_S, fmap_app. reflexivity. Qed.

Section create.
Context (T : R) (nt pt : nat) (draws : Rng).

Lemma create_type_loop (t m k j : nat) :
  (j + m <= pt)%nat →
  for_each (seq k m) (fun _ : nat =>
    x ← random_uniform 0 physics.WORLD_WIDTH;
    y ← random_uniform 0 physics.WORLD_HEIGHT;
    vx ← random_uniform (-2.2) 2.2;
    vy ← random_uniform (-2.2) 2.2;
    modify (fun s =>
      set_particles (particles s ++ [Simulation.Particle_init x y vx vy t]) s))
    (under_construction T nt pt draws (t * pt + j))
  = (under_construction T nt pt draws (t * pt + j + m), Ok tt).
Proof.
  revert k j. induction m as [|m IH]; intros k j Hj; cbn [seq for_each].
  - replace (t * pt + j + 0)%nat with (t * pt + j)%nat by lia. reflexivity.
  - erewrite bind_eval by apply create_one. cbn beta.
    replace (t * pt + j + S m)%nat with (t * pt + S j + m)%nat by lia.
    rewrite <- (IH (S k) (S j)) by lia. f_equal.
    unfold under_construction.
    cbn [temperature n_types particles bonds grid rng rng_pos].
    replace (t * pt + S j)%nat with (S (t * pt + j)) by lia.
    rewrite created_S. f_equal; [|lia].
    do 3 f_equal. rewrite Nat.div_add_l by lia.
    rewrite Nat.div_small by lia. lia.
Qed.

Lemma create_types_loop (m t : nat) :
  for_each (seq t m) (fun t : nat =>
    for_each (seq 0 pt) (fun _ : nat =>
      x ← random_uniform 0 physics.WORLD_WIDTH;
      y ← random_uniform 0 physics.WORLD_HEIGHT;
      vx ← random_uniform (-2.2) 2.2;
      vy ← random_uniform (-2.2) 2.2;
      modify (fun s =>
        set_particles (particles s ++ [Simulation.Particle_init x y vx vy t])
          s)))
    (under_construction T nt pt draws (t * pt))
  = (under_construction T nt pt draws ((t + m) * pt), Ok tt).
Proof.
  revert t. induction m as [|m IH]; intros t; cbn [seq for_each].
  - replace (t + 0)%nat with t by lia. reflexivity.
  - pose proof (create_type_loop t pt 0 0 ltac:(lia)) as Hinner.
    replace (t * pt + 0)%nat with (t * pt)%nat in Hinner by lia.
    erewrite bind_eval by exact Hinner. cbn beta.
    replace (t * pt + pt)%nat with (S t * pt)%nat by lia.
    rewrite IH. do 2 f_equal. lia.
Qed.

Lemma init_constructs :
  Simulation.init nt pt T draws = (under_construction T nt pt draws (nt * pt), Ok tt).
Proof.
  unfold Simulation.init, Simulation._create_particles.
  erewrite bind_eval by reflexivity. cbn beta. cbn [n_types].
  exact (create_types_loop nt 0).
Qed.

End create.

Lemma created_lookup (rng : Rng) (pt n i : nat) :
  (i < n)%nat →
  created rng pt n !! i = Some (drawn_particle rng (4 * i) (i / pt)).
Proof.
  intros Hi. unfold created. rewrite list_lookup_fmap, lookup_seq_lt by lia.
  reflexivity.
Qed.

Lemma created_lookup_inv (rng : Rng) (pt n i : nat) (p : Particle) :
  created rng pt n !! i = Some p →
  (i < n)%nat ∧ p = drawn_particle rng (4 * i) (i / pt).
Proof.
  intros Hp. assert (Hi : (i < n)%nat).
  { apply lookup_lt_Some in Hp. unfold created in Hp.
    rewrite length_fmap, length_seq in Hp. exact Hp. }
  rewrite created_lookup in Hp by exact Hi. injection Hp as <-. done.
Qed.

(** X9.  The constructor never raises. It makes [n_types * particles_per_type]
    particles from four draws each, in the order of their types, without
    bonds; with draws in [[0, 1)] every particle lies in the world and has
    velocity components in [[-2.2, 2.2)]. *)
Theorem init_creates (nt pt : nat) (T : R) (rng : Rng) :
  ∃ s : Sim,
    Simulation.init nt pt T rng = (s, Ok tt) ∧
    length (particles s) = (nt * pt)%nat ∧
    bonds s = [] ∧ temperature s = T ∧ rng_pos s = (4 * (nt * pt))%nat ∧
    (∀ (i : nat) (p : Particle),
        particles s !! i = Some p →
        p = drawn_particle rng (4 * i) (i / pt) ∧
        p_type p = (i / pt)%nat ∧ (p_type p < nt)%nat ∧ p_bonds p = []) ∧
    ((∀ n : nat, 0 <= rng_uniform rng n < 1) →
     ∀ p : Particle,
       p ∈ particles s →
       0 <= p_x p < physics.WORLD_WIDTH ∧ 0 <= p_y p < physics.WORLD_HEIGHT ∧
       -2.2 <= p_vx p < 2.2 ∧ -2.2 <= p_vy p < 2.2).
Proof.
  eexists. split; [apply init_constructs|].
  unfold under_construction.
  cbn [temperature n_types particles bonds grid rng_pos].
  split. { unfold created. rewrite length_fmap, length_seq. reflexivity. }
  do 3 (split; [reflexivity|]). split.
  - intros i p Hp. apply created_lookup_inv in Hp as [Hi ->].
    split; [reflexivity|]. cbn [p_type p_bonds drawn_particle
                                Simulation.Particle_init].
    split; [reflexivity|]. split; [|reflexivity].
    apply Nat.Div0.div_lt_upper_bound. lia.
  - intros Hdraws p Hp. apply list_elem_of_lookup_1 in Hp as [i Hp].
    apply created_lookup_inv in Hp as [_ ->].
    cbn [p_x p_y p_vx p_vy drawn_particle Simulation.Particle_init].
    unfold physics.WORLD_WIDTH, physics.WORLD_HEIGHT.
    pose proof (Hdraws (4 * i)%nat). pose proof (Hdraws (S (4 * i))).
    pose proof (Hdraws (S (S (4 * i)))). pose proof (Hdraws (S (S (S (4 * i))))).
    repeat split; lra.
Qed.

(** ** No step completes *)

Lemma step_outcome (s : Sim) :
  well_formed s → particles s ≠ [] → 0 <= temperature s →
  (Simulation.step s).2 = Raise (NameError "bonding_factor") ∧
  well_formed (Simulation.step s).1 ∧
  placement (Simulation.step s).1 = placement s ∧
  temperature (Simulation.step s).1 = temperature s.
Proof.
  intros Hwf Hne HT.
  destruct (step_raises (placement s)) with (s := s) as (s' & Hrun & Hs').
  - intros Hnil. apply Hne. unfold placement in Hnil.
    apply fmap_nil_inv in Hnil. exact Hnil.
  - split; [|exact HT]. split; [reflexivity|]. split; [exact Hwf | exact Logic.I].
  - pose proof (step_keeps_controls (controls s) s eq_refl) as Hc.
    rewrite Hrun in *. cbn [fst snd] in *.
    destruct Hs' as (Hpl & Hwf' & _).
    unfold controls in Hc. injection Hc as Hc _ _. done.
Qed.


Lemma well_formed_created (T : R) (nt pt : nat) (rng : Rng) :
  (nt <= 5)%nat → well_formed (under_construction T nt pt rng (nt * pt)).
Proof.
  intros Hnt. unfold well_formed, under_construction.
  cbn [temperature n_types particles bonds grid rng_pos].
  split; [|split].
  - rewrite Forall_lookup. intros i p Hp.
    apply created_lookup_inv in Hp as [Hi ->].
    unfold valid_type.
    cbn [p_type p_bonds drawn_particle Simulation.Particle_init].
    split; [|constructor].
    assert ((i / pt < nt)%nat) by (apply Nat.Div0.div_lt_upper_bound; lia).
    lia.
  - constructor.
  - intros c j Hj. unfold cell_list, SpatialGrid.init in Hj.
    cbn [SpatialGrid.grid] in Hj. rewrite lookup_empty in Hj.
    apply elem_of_nil in Hj. contradiction.
Qed.



Lemma run_invariant (s0 s : Sim) :
  well_formed s0 → particles s0 ≠ [] → 0 <= temperature s0 →
  run_from s0 s →
  well_formed s ∧ placement s = placement s0 ∧ 0 <= temperature s.
Proof.
  intros Hwf Hne HT Hrun.
  induction Hrun as [|s _ IH|s amount _ IH Hamount|s amount _ IH].
  - done.
  - destruct IH as (Hwf' & Hpl & HT').
    destruct (step_outcome s Hwf') as (_ & Hwf'' & Hpl' & HT''); [|exact HT'|].
    { intros Hnil. apply Hne.
      assert (Hp : placement s = []) by (unfold placement; rewrite Hnil; done).
      rewrite Hpl in Hp. unfold placement in Hp.
      apply fmap_nil_inv in Hp. exact Hp. }
    split; [exact Hwf''|]. split; [congruence | lra].
  - destruct IH as (Hwf' & Hpl & HT'). done.
  - destruct IH as (Hwf' & Hpl & HT').
    split; [exact Hwf'|]. split; [exact Hpl|].
    cbn [fst Simulation.decrease_temperature modify temperature set_temperature].
    pose proof (Rmax_l 0.05 (temperature s - amount)). lra.
Qed.

(** X11.  In a run of a system that the constructor made, for one to five
    particle types, at least one particle of each and a non-negative
    temperature, no call of [step] ever returns: each raises [NameError],
    whatever calls of [step], [decrease_temperature] and
    [increase_temperature] came before, as long as no increase made the
    temperature negative. Every state of the run is well-formed and has every
    particle where the constructor put it. *)
Theorem run_never_completes_a_step (nt pt : nat) (T : R) (rng : Rng)
    (s : Sim) :
  (0 < nt <= 5)%nat → (0 < pt)%nat → 0 <= T →
  run_from (Simulation.init nt pt T rng).1 s →
  (∃ s' : Sim, Simulation.step s = (s', Raise (NameError "bonding_factor"))) ∧
  well_formed s ∧
  placement s = placement (Simulation.init nt pt T rng).1.
Proof.
  intros Hnt Hpt HT Hrun. rewrite init_constructs in *. cbn [fst] in *.
  assert (Hne : particles (under_construction T nt pt rng (nt * pt)) ≠ []).
  { intros Hnil. apply (f_equal length) in Hnil.
    unfold under_construction, created in Hnil.
    cbn [particles length] in Hnil.
    rewrite length_fmap, length_seq in Hnil. nia. }
  destruct (run_invariant _ s (well_formed_created T nt pt rng ltac:(lia))
              Hne HT Hrun) as (Hwf & Hpl & HT').
  split; [|done].
  destruct (step_outcome s Hwf) as (Hstep & _); [|exact HT'|].
  - intros Hnil. apply Hne.
    assert (Hp : placement s = []) by (unfold placement; rewrite Hnil; done).
    rewrite Hpl in Hp. unfold placement in Hp.
    apply fmap_nil_inv in Hp. exact Hp.
  - exists (Simulation.step s).1. destruct (Simulation.step s) as [s' r].
    cbn [fst snd] in *. rewrite Hstep. reflexivity.
Qed.

Lemma run_never_completes_a_step_witness :
  let rng := mkRng (fun _ => 0.5) (fun _ => 0) (fun _ => 0%nat) in
  let s0 := (Simulation.init 5 45 0.75 rng).1 in
  let s := (Simulation.step (Simulation.decrease_temperature 0.1 s0).1).1 in
  (∃ s' : Sim, Simulation.step s = (s', Raise (NameError "bonding_factor"))) ∧
  well_formed s ∧ placement s = placement s0.
Proof.
  apply run_never_completes_a_step; [lia | lia | lra |].
  apply run_step. apply run_decrease. apply run_start.
Defined.

(** ** The neighbour query after a rebuild *)

Lemma insert_loop_NoDup (l : list nat) (s : Sim) :
  NoDup l →
  (∀ i : nat, i ∈ l → (i < length (particles s))%nat) →
  (∀ c : Z * Z, NoDup (cell_list (grid s) c)) →
  (∀ (c : Z * Z) (i : nat), i ∈ l → i ∉ cell_list (grid s) c) →
  ∀ c : Z * Z,
    NoDup (cell_list
             (grid (for_each l (fun i =>
                      p ← get_particle i;
                      modify (fun s =>
                        set_grid (SpatialGrid.insert (grid s) i (p_x p) (p_y p))
                          s)) s).1) c).
Proof.
  revert s. induction l as [|i l IH]; intros s Hnd Hl Hcells Hfresh c.
  - cbn [for_each]. apply Hcells.
  - apply NoDup_cons in Hnd as [Hi Hnd].
    destruct (lookup_lt_is_Some_2 (particles s) i) as [p Hp];
      [apply Hl; left|].
    set (s1 := set_grid (SpatialGrid.insert (grid s) i (p_x p) (p_y p)) s).
    cbn [for_each].
    erewrite bind_eval; cycle 1.
    { erewrite bind_eval
        by (unfold get_particle, py_index; rewrite Hp; reflexivity).
      reflexivity. }
    fold s1. apply IH.
    + exact Hnd.
    + intros k Hk. cbn. apply Hl. right. exact Hk.
    + intros c'. cbn [s1 grid set_grid]. rewrite cell_list_insert.
      destruct (decide _); [|apply Hcells].
      apply NoDup_app. split; [apply Hcells|]. split; [|apply NoDup_singleton].
      intros k Hk Hki. apply list_elem_of_singleton in Hki as ->.
      exact (Hfresh c' i ltac:(left) Hk).
    + intros c' k Hk. cbn [s1 grid set_grid]. rewrite cell_list_insert.
      destruct (decide _); [|apply Hfresh; right; exact Hk].
      rewrite elem_of_app, list_elem_of_singleton.
      intros [Hin | ->]; [|contradiction].
      exact (Hfresh c' k ltac:(right; exact Hk) Hin).
Qed.

Lemma rebuild_grid_NoDup (s : Sim) (c : Z * Z) :
  NoDup (cell_list (grid (Simulation.rebuild_grid (length (particles s)) s).1) c).
Proof.
  unfold Simulation.rebuild_grid.
  erewrite bind_eval by reflexivity. cbn beta.
  apply insert_loop_NoDup.
  - apply NoDup_seq.
  - intros i Hi. apply elem_of_seq in Hi. cbn. lia.
  - intros c'. cbn [grid set_grid]. rewrite cell_list_clear. constructor.
  - intros c' i _. cbn [grid set_grid]. rewrite cell_list_clear.
    apply not_elem_of_nil.
Qed.

Lemma neighbors_NoDup (g : SpatialGrid.t) (x y : R) :
  (∀ c : Z * Z, NoDup (cell_list g c)) →
  (∀ (c c' : Z * Z) (j : nat),
      j ∈ cell_list g c → j ∈ cell_list g c' → c = c') →
  NoDup (SpatialGrid.neighbors g x y).
Proof.
  intros Hnd Hcell. unfold SpatialGrid.neighbors.
  destruct (SpatialGrid.cell_of g x y) as [cx cy].
  assert (Hoff : NoDup SpatialGrid.offsets).
  { unfold SpatialGrid.offsets. repeat constructor;
      rewrite ?elem_of_cons, ?elem_of_nil; lia. }
  apply NoDup_bind; [| |exact Hoff].
  - intros dx dx' j _ _ Hj Hj'.
    apply list_elem_of_bind in Hj as (dy & Hj & _).
    apply list_elem_of_bind in Hj' as (dy' & Hj' & _).
    pose proof (Hcell _ _ j Hj Hj') as Hc. injection Hc as Hc _. lia.
  - intros dx _. apply NoDup_bind; [| |exact Hoff].
    + intros dy dy' j _ _ Hj Hj'.
      pose proof (Hcell _ _ j Hj Hj') as Hc. injection Hc as Hc. lia.
    + intros dy _. apply Hnd.
Qed.

(** X12.  After the rebuild of the grid a neighbour query yields no index
    twice, and every index it yields is the index of a particle: the pair pass
    meets each pair of particles at most once. *)
Theorem neighbors_yield_once (s : Sim) (x y : R) :
  ∃ g' : SpatialGrid.t,
    Simulation.rebuild_grid (length (particles s)) s = (set_grid g' s, Ok tt) ∧
    NoDup (SpatialGrid.neighbors g' x y) ∧
    ∀ j : nat,
      j ∈ SpatialGrid.neighbors g' x y → (j < length (particles s))%nat.
Proof.
  destruct (rebuild_grid_spec s) as (g' & Hrun & _ & Hmem).
  exists g'. split; [exact Hrun|]. split.
  - apply neighbors_NoDup.
    + intros c. pose proof (rebuild_grid_NoDup s c) as Hnd.
      rewrite Hrun in Hnd. exact Hnd.
    + intros c c' j Hj Hj'.
      apply Hmem in Hj as (q & Hq & <-). apply Hmem in Hj' as (q' & Hq' & <-).
      rewrite Hq in Hq'. injection Hq' as <-. reflexivity.
  - intros j Hj. apply elem_of_neighbors in Hj as (c & _ & Hj).
    apply Hmem in Hj as (q & Hq & _). apply lookup_lt_Some in Hq. exact Hq.
Qed.

Lemma Zfloor_block (a b L : R) :
  0 < L → (-1 <= Zfloor (a / L) - Zfloor (b / L) <= 1)%Z →
  Rabs (a - b) < 2 * L.
Proof.
  intros HL Hblock.
  pose proof (Zfloor_bound (a / L)) as Ha.
  pose proof (Zfloor_bound (b / L)) as Hb.
  assert (Hd : -1 <= IZR (Zfloor (a / L)) - IZR (Zfloor (b / L)) <= 1).
  { rewrite <- minus_IZR. split; [apply (IZR_le (-1)) | apply (IZR_le _ 1)]; lia. }
  assert (Hq : -2 < a / L - b / L < 2) by lra.
  assert (Hdiff : a / L - b / L = (a - b) / L) by (field; lra).
  rewrite Hdiff in Hq.
  assert (Hab : -2 * L < a - b < 2 * L).
  { split.
    - apply Rmult_lt_reg_r with (/ L); [apply Rinv_0_lt_compat; lra|].
      replace (-2 * L * / L) with (-2) by (field; lra). apply Hq.
    - apply Rmult_lt_reg_r with (/ L); [apply Rinv_0_lt_compat; lra|].
      replace (2 * L * / L) with 2 by (field; lra). apply Hq. }
  unfold Rabs. destruct (Rcase_abs _); lra.
Qed.

(** X13.  The candidates of a neighbour query are near the query point: after
    the rebuild (cell size 42.0) every index that a query yields is that of a
    particle less than two cell sizes away on each axis, the distances taken
    without periodic wrap, and the query at the position of a particle yields
    the particle itself. *)
Theorem neighbors_within_two_cells (s : Sim) (x y : R) :
  SpatialGrid.cell_size (grid s) = 42.0 →
  ∃ g' : SpatialGrid.t,
    Simulation.rebuild_grid (length (particles s)) s = (set_grid g' s, Ok tt) ∧
    (∀ j : nat,
        j ∈ SpatialGrid.neighbors g' x y →
        ∃ q : Particle,
          particles s !! j = Some q ∧
          Rabs (p_x q - x) < 84 ∧ Rabs (p_y q - y) < 84) ∧
    (∀ (i : nat) (p : Particle),
        particles s !! i = Some p →
        i ∈ SpatialGrid.neighbors g' (p_x p) (p_y p)).
Proof.
  intros Hsize.
  destruct (rebuild_grid_spec s) as (g' & Hrun & Hsz & Hmem).
  exists g'. split; [exact Hrun|]. split.
  - intros j Hj. apply elem_of_neighbors in Hj as (c & Hblock & Hj).
    apply Hmem in Hj as (q & Hq & <-). exists q. split; [exact Hq|].
    unfold in_block, SpatialGrid.cell_of in Hblock.
    rewrite Hsz, Hsize in Hblock. cbn [fst snd] in Hblock.
    destruct Hblock as [Hbx Hby].
    split.
    + replace 84 with (2 * 42.0) by lra. apply Zfloor_block; [lra | lia].
    + replace 84 with (2 * 42.0) by lra. apply Zfloor_block; [lra | lia].
  - intros i p Hp. apply elem_of_neighbors.
    exists (SpatialGrid.cell_of g' (p_x p) (p_y p)). split.
    + unfold in_block. lia.
    + apply Hmem. exists p. split; [exact Hp|].
      unfold SpatialGrid.cell_of. rewrite Hsz. reflexivity.
Qed.

Lemma neighbors_within_two_cells_witness :
  let s := mkSim 0.5 1 [mkParticle 10 10 0 0 0 []; mkParticle 50 20 0 0 0 []]
             [] (SpatialGrid.init 42.0)
             (mkRng (fun _ => 0) (fun _ => 0) (fun _ => 0%nat)) 0 in
  ∃ g' : SpatialGrid.t,
    Simulation.rebuild_grid (length (particles s)) s = (set_grid g' s, Ok tt) ∧
    (∀ j : nat,
        j ∈ SpatialGrid.neighbors g' 10 10 →
        ∃ q : Particle,
          particles s !! j = Some q ∧
          Rabs (p_x q - 10) < 84 ∧ Rabs (p_y q - 10) < 84) ∧
    (∀ (i : nat) (p : Particle),
        particles s !! i = Some p →
        i ∈ SpatialGrid.neighbors g' (p_x p) (p_y p)).
Proof.
  apply neighbors_within_two_cells. reflexivity.
Defined.

(** ** Valence and bond types *)





(** X15.  The type of a bond does not depend on the order of its two
    particles. *)
Theorem classify_bond_type_temp_symmetric (p_i p_j : Particle) (T : R) :
  chemistry.classify_bond_type_temp p_i p_j T =
  chemistry.classify_bond_type_temp p_j p_i T.
Proof.
  unfold chemistry.classify_bond_type_temp, py_index.
  destruct (chemistry.ELECTRONEG !! p_type p_i) as [e_i|],
    (chemistry.ELECTRONEG !! p_type p_j) as [e_j|]; cbn [mbind Res_bind];
    try reflexivity.
  rewrite (Rabs_minus_sym e_i e_j). reflexivity.
Qed.

(** X16.  The dipole of a bond is the zero vector for a degenerate pair and
    otherwise a unit vector along the wrapped line of centres, pointing to
    [p_j] when [p_j] is the more electronegative particle and to [p_i] when it
    is not: two particles of equal electronegativity still get a unit dipole,
    pointing to [p_i]. *)
Theorem dipole_from_EN_unit (p_i p_j : Particle) :
  valid_type p_i → valid_type p_j →
  ∃ (d : R * R) (e_i e_j : R),
    chemistry.dipole_from_EN p_i p_j = Ok d ∧
    chemistry.ELECTRONEG !! p_type p_i = Some e_i ∧
    chemistry.ELECTRONEG !! p_type p_j = Some e_j ∧
    let w := physics.wrap (p_x p_j - p_x p_i) (p_y p_j - p_y p_i) in
    (norm2 w < 1e-9 → d = (0, 0)) ∧
    (¬ norm2 w < 1e-9 →
     norm2 d = 1 ∧ d.1 * w.2 - d.2 * w.1 = 0 ∧
     (e_j > e_i → 0 < d.1 * w.1 + d.2 * w.2) ∧
     (e_j <= e_i → d.1 * w.1 + d.2 * w.2 < 0)).
Proof.
  intros Hi Hj. unfold chemistry.dipole_from_EN, norm2.
  destruct (electroneg_ok p_i Hi) as (e_i & He_i & _).
  destruct (electroneg_ok p_j Hj) as (e_j & He_j & _).
  rewrite He_i, He_j. cbn [mbind Res_bind].
  unfold py_index in He_i, He_j.
  destruct (chemistry.ELECTRONEG !! p_type p_i) as [e_i'|]; [|discriminate].
  destruct (chemistry.ELECTRONEG !! p_type p_j) as [e_j'|]; [|discriminate].
  injection He_i as ->. injection He_j as ->.
  destruct (physics.wrap _ _) as [dx dy]. cbn [fst snd].
  destruct (decide (dx * dx + dy * dy < 1e-9)) as [Hdeg|Hr2].
  { eexists _, e_i, e_j. split; [reflexivity|]. do 2 (split; [reflexivity|]).
    split; [intros _; f_equal; lra | intros H; contradiction]. }
  destruct (unit_direction dx dy Hr2) as (Hr & Hrr & Hunit).
  set (r := sqrt (dx * dx + dy * dy)) in *.
  assert (Hdot : dx / r * dx + dy / r * dy = r).
  { transitivity ((dx * dx + dy * dy) / r); [field; lra|].
    rewrite <- Hrr. field. lra. }
  eexists _, e_i, e_j. split; [reflexivity|]. do 2 (split; [reflexivity|]).
  split; [intros H; contradiction|]. intros _.
  destruct (decide (e_j > e_i)) as [Hgt|Hle]; cbn [fst snd].
  - split; [exact Hunit|]. split; [field; lra|].
    split; [intros _; lra | intros H; lra].
  - split; [rewrite <- Hunit; ring|]. split; [field; lra|].
    split; [intros H; lra | intros _; lra].
Qed.

Lemma dipole_from_EN_unit_witness :
  let p_i := mkParticle 100 100 0 0 0 [] in
  let p_j := mkParticle 110 100 0 0 2 [] in
  ∃ (d : R * R) (e_i e_j : R),
    chemistry.dipole_from_EN p_i p_j = Ok d ∧
    chemistry.ELECTRONEG !! p_type p_i = Some e_i ∧
    chemistry.ELECTRONEG !! p_type p_j = Some e_j ∧
    let w := physics.wrap (p_x p_j - p_x p_i) (p_y p_j - p_y p_i) in
    (norm2 w < 1e-9 → d = (0, 0)) ∧
    (¬ norm2 w < 1e-9 →
     norm2 d = 1 ∧ d.1 * w.2 - d.2 * w.1 = 0 ∧
     (e_j > e_i → 0 < d.1 * w.1 + d.2 * w.2) ∧
     (e_j <= e_i → d.1 * w.1 + d.2 * w.2 < 0)).
Proof.
  apply dipole_from_EN_unit; unfold valid_type; cbn; lia.
Defined.

(** ** Pre-bond damping *)

Lemma get_particle_eval (i : nat) (s : Sim) (p : Particle) :
  particles s !! i = Some p → get_particle i s = (s, Ok p).
Proof. intros Hp. unfold get_particle, py_index. rewrite Hp. reflexivity. Qed.

(** X17.  Pre-bond damping conserves the momentum of the pair and never speeds
    the two particles up relative to each other: it returns, changes nothing
    but the two velocities, leaves their sum as it was and scales the relative
    velocity by [1 - c] for a capture factor [c] between 0 and 0.25. *)
Theorem prebond_damp_conserves_momentum (i j : nat) (T : R) (s : Sim)
    (p_i p_j : Particle) :
  i ≠ j →
  particles s !! i = Some p_i → particles s !! j = Some p_j →
  valid_type p_i → valid_type p_j →
  ∃ (c : R) (q_i q_j : Particle),
    chemistry.prebond_damp i j T s =
      (set_particles (<[j := q_j]> (<[i := q_i]> (particles s))) s, Ok tt) ∧
    same_but_velocity p_i q_i ∧ same_but_velocity p_j q_j ∧
    0 <= c <= 0.25 ∧
    p_vx q_i + p_vx q_j = p_vx p_i + p_vx p_j ∧
    p_vy q_i + p_vy q_j = p_vy p_i + p_vy p_j ∧
    p_vx q_j - p_vx q_i = (1 - c) * (p_vx p_j - p_vx p_i) ∧
    p_vy q_j - p_vy q_i = (1 - c) * (p_vy p_j - p_vy p_i).
Proof.
  intros Hij Hpi Hpj Hvi Hvj.
  destruct (shell_deficit_ok i _ (bonds s) p_i Hpi Hvi) as (di & Hdi & Hdi0).
  destruct (shell_deficit_ok j _ (bonds s) p_j Hpj Hvj) as (dj & Hdj & Hdj0).
  assert (Hnoop : ∃ (c : R) (q_i q_j : Particle),
             (s, Ok tt) =
               (set_particles (<[j := q_j]> (<[i := q_i]> (particles s))) s,
                Ok tt) ∧
             same_but_velocity p_i q_i ∧ same_but_velocity p_j q_j ∧
             0 <= c <= 0.25 ∧
             p_vx q_i + p_vx q_j = p_vx p_i + p_vx p_j ∧
             p_vy q_i + p_vy q_j = p_vy p_i + p_vy p_j ∧
             p_vx q_j - p_vx q_i = (1 - c) * (p_vx p_j - p_vx p_i) ∧
             p_vy q_j - p_vy q_i = (1 - c) * (p_vy p_j - p_vy p_i)).
  { exists 0, p_i, p_j. split.
    - rewrite (list_insert_id _ i p_i Hpi), (list_insert_id _ j p_j Hpj).
      rewrite set_particles_same. reflexivity.
    - unfold same_but_velocity. repeat split; lra. }
  unfold chemistry.prebond_damp.
  erewrite bind_eval by (apply get_particle_eval; exact Hpi). cbn beta.
  erewrite bind_eval by (apply get_particle_eval; exact Hpj). cbn beta.
  erewrite bind_eval by (cbn beta; rewrite Hdi; reflexivity). cbn beta.
  erewrite bind_eval by (cbn beta; rewrite Hdj; reflexivity). cbn beta.
  destruct (decide (di <= 0 ∧ dj <= 0)); [exact Hnoop|].
  destruct (physics.wrap _ _) as [dx dy].
  destruct (decide _); [exact Hnoop|]. cbv zeta.
  set (c := 0.25 * Rmin 1.0 ((di + dj) / 5.0)
            * (if decide (T <= chemistry.T_GEOM_MAX) then 1.0 else 0.6)).
  erewrite bind_eval by (apply get_particle_eval; exact Hpi). cbn beta.
  erewrite bind_eval by reflexivity. cbn beta.
  erewrite bind_eval; cycle 1.
  { apply get_particle_eval. cbn [particles set_particles].
    rewrite list_lookup_insert_ne by exact Hij. exact Hpj. }
  cbn beta. unfold set_particle, modify.
  cbn [particles set_particles]. rewrite set_particles_twice.
  eexists c, _, _. split; [reflexivity|].
  cbn [p_x p_y p_type p_bonds p_vx p_vy with_velocity].
  split; [done|]. split; [done|]. split.
  - unfold c, Rmin. destruct (Rle_dec _ _), (decide _); lra.
  - repeat split; lra.
Qed.

Lemma prebond_damp_conserves_momentum_witness :
  let p_0 := mkParticle 100 100 0 0 0 [] in
  let p_1 := mkParticle 110 100 1 0 1 [] in
  let s := mkSim 0.5 2 [p_0; p_1] [] (SpatialGrid.init 42.0)
             (mkRng (fun _ => 0) (fun _ => 0) (fun _ => 0%nat)) 0 in
  ∃ (c : R) (q_i q_j : Particle),
    chemistry.prebond_damp 0 1 0.5 s =
      (set_particles (<[1%nat := q_j]> (<[0%nat := q_i]> (particles s))) s,
       Ok tt) ∧
    same_but_velocity p_0 q_i ∧ same_but_velocity p_1 q_j ∧
    0 <= c <= 0.25 ∧
    p_vx q_i + p_vx q_j = p_vx p_0 + p_vx p_1 ∧
    p_vy q_i + p_vy q_j = p_vy p_0 + p_vy p_1 ∧
    p_vx q_j - p_vx q_i = (1 - c) * (p_vx p_1 - p_vx p_0) ∧
    p_vy q_j - p_vy q_i = (1 - c) * (p_vy p_1 - p_vy p_0).
Proof.
  apply prebond_damp_conserves_momentum;
    [lia | reflexivity | reflexivity | unfold valid_type; cbn; lia
    | unfold valid_type; cbn; lia].
Defined.

(** ** The bond that [try_form_bond] makes *)

Lemma choose_order_spec (bt : BondType) (T di dj : R) (pm : bool) (s : Sim) :
  ∃ (s' : Sim) (n : nat),
    chemistry.choose_order bt T di dj pm s = (s', Ok n) ∧
    particles s' = particles s ∧ bonds s' = bonds s ∧ (1 <= n <= 3)%nat ∧
    (bt ≠ covalent ∨ T > chemistry.T_GEOM_MAX → n = 1%nat) ∧
    ((2 <= n)%nat → di + dj >= 3) ∧ (n = 3%nat → di + dj >= 5).
Proof.
  assert (Hret : ∀ (s0 : Sim) (n : nat),
             particles s0 = particles s → bonds s0 = bonds s →
             (1 <= n <= 3)%nat →
             (bt ≠ covalent ∨ T > chemistry.T_GEOM_MAX → n = 1%nat) →
             ((2 <= n)%nat → di + dj >= 3) → (n = 3%nat → di + dj >= 5) →
             ∃ (s' : Sim) (n' : nat),
               (s0, Ok n) = (s', Ok n') ∧
               particles s' = particles s ∧ bonds s' = bonds s ∧
               (1 <= n' <= 3)%nat ∧
               (bt ≠ covalent ∨ T > chemistry.T_GEOM_MAX → n' = 1%nat) ∧
               ((2 <= n')%nat → di + dj >= 3) ∧ (n' = 3%nat → di + dj >= 5)).
  { intros s0 n Hp Hb H1 H2 H3 H4. exists s0, n. done. }
  unfold chemistry.choose_order.
  destruct (decide (bt = covalent)) as [Hcov|Hcov].
  2: { apply Hret; try reflexivity; try lia; intros; lia. }
  destruct (decide (T <= chemistry.T_GEOM_MAX ∧ di + dj >= 3)) as [[HT H3]|Hn3].
  - erewrite bind_eval; cycle 1.
    { erewrite bind_eval by reflexivity. reflexivity. }
    cbn beta.
    destruct (decide (rng_uniform (rng s) (rng_pos s) < _)).
    + destruct (decide _) as [(_ & H5 & _)|].
      * erewrite bind_eval by reflexivity. cbn beta.
        destruct (decide _); apply Hret; try reflexivity; try lia;
          try (intros [?|?]; [contradiction | lra]); intros; first [lra | lia].
      * apply Hret; try reflexivity; try lia;
          try (intros [?|?]; [contradiction | lra]); intros; first [lra | lia].
    + destruct (decide _) as [(_ & _ & Habs)|]; [discriminate Habs|].
      apply Hret; try reflexivity; try lia; intros; lia.
  - erewrite bind_eval by reflexivity. cbn beta.
    destruct (decide _) as [(_ & _ & Habs)|]; [discriminate Habs|].
    apply Hret; try reflexivity; try lia; intros; lia.
Qed.

Lemma with_bonds_same (p : Particle) : with_bonds p (p_bonds p) = p.
Proof. destruct p. reflexivity. Qed.

Lemma try_form_bond_outcome (i j : nat) (T : R) (s : Sim) :
  i ≠ j →
  (particles (chemistry.try_form_bond i j T s).1 = particles s ∧
   bonds (chemistry.try_form_bond i j T s).1 = bonds s ∧
   (chemistry.try_form_bond i j T s).2 ≠ Ok true) ∨
  (∃ (p_i p_j : Particle) (b : Bond) (e_i e_j : R),
      particles s !! i = Some p_i ∧
      particles s !! j = Some p_j ∧
      chemistry.ELECTRONEG !! p_type p_i = Some e_i ∧
      chemistry.ELECTRONEG !! p_type p_j = Some e_j ∧
      bonds (chemistry.try_form_bond i j T s).1 = bonds s ++ [b] ∧
      particles (chemistry.try_form_bond i j T s).1 =
        <[j := with_bonds p_j (p_bonds p_j ++ [i])]>
          (<[i := with_bonds p_i (p_bonds p_i ++ [j])]> (particles s)) ∧
      (chemistry.try_form_bond i j T s).2 = Ok true ∧
      b_i b = i ∧ b_j b = j ∧ b_age b = 0%nat ∧
      chemistry.classify_bond_type_temp p_i p_j T = Ok (b_type b) ∧
      chemistry.dipole_from_EN p_i p_j = Ok (b_dipole b) ∧
      wrapped_distance p_i p_j <= chemistry.BOND_FORM_RADIUS ∧
      b_length b =
        match b_type b with
        | covalent => Rmax 12.5 (Rmin 18.0 (wrapped_distance p_i p_j))
        | ionic => Rmax 14.0 (Rmin 21.0 (wrapped_distance p_i p_j))
        | metallic => Rmax 15.0 (Rmin 22.0 (wrapped_distance p_i p_j))
        end ∧
      (1 <= b_order b <= 3)%nat ∧
      (b_type b ≠ covalent ∨ T > chemistry.T_GEOM_MAX → b_order b = 1%nat) ∧
      (b_type b = ionic →
       (e_i > e_j ∧ b_acceptor b = Some i ∧ b_donor b = Some j) ∨
       (e_i <= e_j ∧ b_acceptor b = Some j ∧ b_donor b = Some i)) ∧
      (b_type b ≠ ionic → b_acceptor b = None ∧ b_donor b = None)).
Proof.
  intros Hij. pattern (chemistry.try_form_bond i j T s).
  match goal with |- ?P _ => set (Effect := P) end.
  unfold chemistry.try_form_bond, get_particle.
  rewrite bind_read. unfold py_index at 1.
  destruct (particles s !! i) as [p_i|] eqn:Hi; [|unchanged].
  rewrite bind_read. unfold py_index at 1.
  destruct (particles s !! j) as [p_j|] eqn:Hj; [|unchanged].
  rewrite bind_read.
  destruct (chemistry.dynamic_max_bonds i _ _) as [max_i|] eqn:Hmi; [|unchanged].
  destruct (decide _) as [|Hni]; [unchanged|].
  rewrite bind_read.
  destruct (chemistry.dynamic_max_bonds j _ _) as [max_j|] eqn:Hmj; [|unchanged].
  destruct (decide _) as [|Hnj]; [unchanged|].
  rewrite bind_read.
  destruct (chemistry.shell_deficit i _ _) as [di|] eqn:Hdi; [|unchanged].
  rewrite bind_read.
  destruct (chemistry.shell_deficit j _ _) as [dj|] eqn:Hdj; [|unchanged].
  destruct (decide _) as [|Hnd]; [unchanged|].
  pose proof (wrapped_distance_unfold p_i p_j) as Hwd.
  destruct (physics.wrap _ _) as [dx dy].
  destruct (decide _) as [|Hnr]; [unchanged|].
  destruct (decide _) as [|Hnv]; [unchanged|].
  erewrite bind_eval by reflexivity. cbn beta.
  match goal with
  | |- context [decide (rng_uniform ?r ?n > ?x)] =>
      destruct (decide (rng_uniform r n > x)) as [|Hnu]; [unchanged|]
  end.
  unfold liftR. rewrite bind_read.
  destruct (chemistry.classify_bond_type_temp p_i p_j T) as [bt|] eqn:Hbt;
    [|unchanged].
  match goal with
  | |- context [chemistry.choose_order ?a ?b ?c ?d ?e] =>
      destruct (choose_order_spec a b c d e (advance_rng s))
        as (s1 & order & Hco & Hp1 & Hb1 & Horder & Hsingle & _)
  end.
  erewrite bind_eval by exact Hco. cbn beta.
  rewrite bind_read.
  destruct (chemistry.dipole_from_EN p_i p_j) as [dipole|] eqn:Hdip;
    [|subst Effect; cbn beta; left; cbn [fst snd]; rewrite Hp1, Hb1;
      unfold advance_rng; cbn [particles bonds]; repeat split; discriminate].
  rewrite bind_read.
  match goal with
  | |- context [match ?r with Ok a => _ | Raise e => _ end] =>
      destruct r as [[acceptor donor]|] eqn:Hroles;
        [|subst Effect; cbn beta; left; cbn [fst snd]; rewrite Hp1, Hb1;
          unfold advance_rng; cbn [particles bonds]; repeat split; discriminate]
  end.
  erewrite bind_eval by reflexivity. cbn beta.
  erewrite bind_eval; cycle 1.
  { unfold py_index, set_bonds. cbn [particles]. rewrite Hp1.
    unfold advance_rng. cbn [particles]. rewrite Hi. reflexivity. }
  cbn beta.
  erewrite bind_eval by reflexivity. cbn beta.
  erewrite bind_eval; cycle 1.
  { unfold py_index, set_particles, set_bonds. cbn [particles]. rewrite ?Hp1.
    unfold advance_rng. cbn [particles].
    rewrite list_lookup_insert_ne by exact Hij. rewrite Hj. reflexivity. }
  cbn beta.
  erewrite bind_eval by reflexivity. cbn beta.
  subst Effect. cbn beta.
  assert (He : ∃ e_i e_j : R,
             chemistry.ELECTRONEG !! p_type p_i = Some e_i ∧
             chemistry.ELECTRONEG !! p_type p_j = Some e_j ∧
             (bt = ionic →
              (e_i > e_j ∧ acceptor = Some i ∧ donor = Some j) ∨
              (e_i <= e_j ∧ acceptor = Some j ∧ donor = Some i)) ∧
             (bt ≠ ionic → acceptor = None ∧ donor = None)).
  { pose proof Hbt as Hbt'.
    unfold chemistry.classify_bond_type_temp, py_index in Hbt'.
    unfold py_index in Hroles.
    destruct (chemistry.ELECTRONEG !! p_type p_i) as [e_i|]; [|discriminate Hbt'].
    destruct (chemistry.ELECTRONEG !! p_type p_j) as [e_j|]; [|discriminate Hbt'].
    exists e_i, e_j. split; [reflexivity|]. split; [reflexivity|].
    cbn [mbind Res_bind] in Hroles.
    destruct (decide (bt = ionic)) as [Hion|Hion].
    - destruct (decide (e_i > e_j)); injection Hroles as <- <-;
        (split; [intros _ | intros Hne; contradiction]);
        [left | right]; repeat split; try done; lra.
    - injection Hroles as <- <-. split; [intros Hne; contradiction | done]. }
  destruct He as (e_i & e_j & He_i & He_j & Hionic & Hother).
  right. exists p_i, p_j. eexists. exists e_i, e_j.
  split; [reflexivity|]. split; [reflexivity|].
  split; [exact He_i|]. split; [exact He_j|].
  unfold set_particle, modify, set_particles, set_bonds.
  cbn [fst snd mret M_ret ret particles bonds].
  rewrite ?Hp1, ?Hb1. unfold advance_rng. cbn [particles bonds].
  split; [reflexivity|]. split; [reflexivity|]. split; [reflexivity|].
  cbn [b_i b_j b_age b_type b_dipole b_length b_order b_acceptor b_donor
       chemistry.Bond_init].
  split; [reflexivity|]. split; [reflexivity|]. split; [reflexivity|].
  split; [exact Hbt|]. split; [exact Hdip|].
  split.
  { rewrite Hwd. unfold chemistry.BOND_FORM_RADIUS in *.
    replace 26.0 with (sqrt (26.0 * 26.0)) by (apply sqrt_square; lra).
    apply sqrt_le_1_alt. lra. }
  split; [rewrite Hwd; reflexivity|].
  split; [exact Horder|]. split; [exact Hsingle|].
  split; [exact Hionic | exact Hother].
Qed.

(** X18.  When [try_form_bond] returns [True] for two different particles it
    has appended one bond to the ledger and each particle to the adjacency
    list of the other, and changed nothing else in the particles. The bond
    joins [i] and [j], has age 0, the type that [classify_bond_type_temp]
    gives, the dipole that [dipole_from_EN] gives, the wrapped distance as its
    length, clamped to the range of its type, and an order between 1 and 3,
    which is 1 unless the bond is covalent and the temperature at most
    [T_GEOM_MAX]; an ionic bond has the more electronegative particle as its
    acceptor, any other bond neither donor nor acceptor. *)
Theorem try_form_bond_new_bond (i j : nat) (T : R) (s s' : Sim) :
  i ≠ j →
  chemistry.try_form_bond i j T s = (s', Ok true) →
  ∃ (p_i p_j : Particle) (b : Bond) (e_i e_j : R),
    particles s !! i = Some p_i ∧
    particles s !! j = Some p_j ∧
    chemistry.ELECTRONEG !! p_type p_i = Some e_i ∧
    chemistry.ELECTRONEG !! p_type p_j = Some e_j ∧
    bonds s' = bonds s ++ [b] ∧
    particles s' =
      <[j := with_bonds p_j (p_bonds p_j ++ [i])]>
        (<[i := with_bonds p_i (p_bonds p_i ++ [j])]> (particles s)) ∧
    b_i b = i ∧ b_j b = j ∧ b_age b = 0%nat ∧
    chemistry.classify_bond_type_temp p_i p_j T = Ok (b_type b) ∧
    chemistry.dipole_from_EN p_i p_j = Ok (b_dipole b) ∧
    wrapped_distance p_i p_j <= chemistry.BOND_FORM_RADIUS ∧
    b_length b =
      match b_type b with
      | covalent => Rmax 12.5 (Rmin 18.0 (wrapped_distance p_i p_j))
      | ionic => Rmax 14.0 (Rmin 21.0 (wrapped_distance p_i p_j))
      | metallic => Rmax 15.0 (Rmin 22.0 (wrapped_distance p_i p_j))
      end ∧
    (1 <= b_order b <= 3)%nat ∧
    (b_type b ≠ covalent ∨ T > chemistry.T_GEOM_MAX → b_order b = 1%nat) ∧
    (b_type b = ionic →
     (e_i > e_j ∧ b_acceptor b = Some i ∧ b_donor b = Some j) ∨
     (e_i <= e_j ∧ b_acceptor b = Some j ∧ b_donor b = Some i)) ∧
    (b_type b ≠ ionic → b_acceptor b = None ∧ b_donor b = None).
Proof.
  intros Hij Hrun.
  destruct (try_form_bond_outcome i j T s Hij)
    as [(_ & _ & Hno) |
        (p_i & p_j & b & e_i & e_j & Hi & Hj & He_i & He_j & Hb & Hp & _ & H)].
  - rewrite Hrun in Hno. contradiction.
  - rewrite Hrun in Hb, Hp. cbn [fst] in Hb, Hp.
    exists p_i, p_j, b, e_i, e_j. done.
Qed.

Lemma try_form_bond_new_bond_witness :
  ∃ (p_i p_j : Particle) (b : Bond) (e_i e_j : R),
    particles overfull.s_0 !! 0%nat = Some p_i ∧
    particles overfull.s_0 !! 1%nat = Some p_j ∧
    chemistry.ELECTRONEG !! p_type p_i = Some e_i ∧
    chemistry.ELECTRONEG !! p_type p_j = Some e_j ∧
    bonds overfull.s_1 = bonds overfull.s_0 ++ [b] ∧
    particles overfull.s_1 =
      <[1%nat := with_bonds p_j (p_bonds p_j ++ [0%nat])]>
        (<[0%nat := with_bonds p_i (p_bonds p_i ++ [1%nat])]>
           (particles overfull.s_0)) ∧
    b_i b = 0%nat ∧ b_j b = 1%nat ∧ b_age b = 0%nat ∧
    chemistry.classify_bond_type_temp p_i p_j 0.5 = Ok (b_type b) ∧
    chemistry.dipole_from_EN p_i p_j = Ok (b_dipole b) ∧
    wrapped_distance p_i p_j <= chemistry.BOND_FORM_RADIUS ∧
    b_length b =
      match b_type b with
      | covalent => Rmax 12.5 (Rmin 18.0 (wrapped_distance p_i p_j))
      | ionic => Rmax 14.0 (Rmin 21.0 (wrapped_distance p_i p_j))
      | metallic => Rmax 15.0 (Rmin 22.0 (wrapped_distance p_i p_j))
      end ∧
    (1 <= b_order b <= 3)%nat ∧
    (b_type b ≠ covalent ∨ 0.5 > chemistry.T_GEOM_MAX → b_order b = 1%nat) ∧
    (b_type b = ionic →
     (e_i > e_j ∧ b_acceptor b = Some 0%nat ∧ b_donor b = Some 1%nat) ∨
     (e_i <= e_j ∧ b_acceptor b = Some 1%nat ∧ b_donor b = Some 0%nat)) ∧
    (b_type b ≠ ionic → b_acceptor b = None ∧ b_donor b = None).
Proof.
  apply (try_form_bond_new_bond 0 1 0.5 overfull.s_0 overfull.s_1);
    [lia | exact overfull_first_bond].
Defined.

(** ** Removing a bond *)

Lemma list_remove_first_notin (v : nat) (l : list nat) :
  v ∉ l → list_remove_first v l = l.
Proof.
  induction l as [|a l IH]; intros Hv; cbn [list_remove_first]; [reflexivity|].
  apply not_elem_of_cons in Hv as [Hne Hv].
  rewrite decide_False by congruence. rewrite IH by exact Hv. reflexivity.
Qed.

Lemma list_remove_first_snoc (v : nat) (l : list nat) :
  v ∉ l → list_remove_first v (l ++ [v]) = l.
Proof.
  induction l as [|a l IH]; intros Hv; cbn [list_remove_first app].
  - rewrite decide_True by reflexivity. reflexivity.
  - apply not_elem_of_cons in Hv as [Hne Hv].
    rewrite decide_False by congruence. rewrite IH by exact Hv. reflexivity.
Qed.

Lemma elem_of_list_remove_first (v x : nat) (l : list nat) :
  NoDup l → x ∈ list_remove_first v l ↔ x ∈ l ∧ x ≠ v.
Proof.
  induction l as [|a l IH]; intros Hnd; cbn [list_remove_first].
  - rewrite elem_of_nil. tauto.
  - apply NoDup_cons in Hnd as [Ha Hnd]. rewrite elem_of_cons.
    destruct (decide (a = v)) as [->|Hne].
    + split; [|intros [[->|Hx] Hxv]; [contradiction | exact Hx]].
      intros Hx. split; [right; exact Hx|]. intros ->. contradiction.
    + rewrite elem_of_cons, IH by exact Hnd. split.
      * intros [->|[Hx Hxv]]; [split; [left; reflexivity | exact Hne]|].
        split; [right; exact Hx | exact Hxv].
      * intros [[->|Hx] Hxv]; [left; reflexivity | right; done].
Qed.

Lemma NoDup_list_remove_first (v : nat) (l : list nat) :
  NoDup l → NoDup (list_remove_first v l).
Proof.
  induction l as [|a l IH]; intros Hnd; cbn [list_remove_first]; [exact Hnd|].
  apply NoDup_cons in Hnd as [Ha Hnd].
  destruct (decide (a = v)); [exact Hnd|].
  apply NoDup_cons. split; [|apply IH; exact Hnd].
  rewrite elem_of_list_remove_first by exact Hnd. tauto.
Qed.

Lemma pop_first_between_none (i j : nat) (bs : list Bond) :
  (∀ b : Bond, b ∈ bs → ¬ joins i j b) →
  chemistry.pop_first_between i j bs = bs.
Proof.
  induction bs as [|b bs IH]; intros Hno; cbn [chemistry.pop_first_between];
    [reflexivity|].
  rewrite decide_False by (apply (Hno b); left).
  rewrite IH; [reflexivity|]. intros b' Hb'. apply Hno. right. exact Hb'.
Qed.

Lemma pop_first_between_snoc (i j : nat) (bs : list Bond) (b : Bond) :
  (∀ b' : Bond, b' ∈ bs → ¬ joins i j b') → joins i j b →
  chemistry.pop_first_between i j (bs ++ [b]) = bs.
Proof.
  induction bs as [|b0 bs IH]; intros Hno Hb;
    cbn [chemistry.pop_first_between app].
  - rewrite decide_True by exact Hb. reflexivity.
  - rewrite decide_False by (apply (Hno b0); left).
    rewrite IH; [reflexivity| |exact Hb].
    intros b' Hb'. apply Hno. right. exact Hb'.
Qed.

Lemma drop_partner (i v : nat) (s : Sim) (p : Particle) :
  particles s !! i = Some p →
  (if decide (v ∈ p_bonds p)
   then set_particle i (with_bonds p (list_remove_first v (p_bonds p)))
   else ret tt) s =
  (set_particles
     (<[i := with_bonds p (list_remove_first v (p_bonds p))]> (particles s)) s,
   Ok tt).
Proof.
  intros Hp. destruct (decide (v ∈ p_bonds p)) as [|Hv]; [reflexivity|].
  rewrite (list_remove_first_notin v _ Hv), with_bonds_same.
  rewrite (list_insert_id _ i p Hp), set_particles_same. reflexivity.
Qed.

Lemma remove_bond_between_effect (i j : nat) (s : Sim) (p_i p_j : Particle) :
  i ≠ j →
  particles s !! i = Some p_i → particles s !! j = Some p_j →
  chemistry.remove_bond_between i j s =
    (set_particles
       (<[j := with_bonds p_j (list_remove_first i (p_bonds p_j))]>
          (<[i := with_bonds p_i (list_remove_first j (p_bonds p_i))]>
             (particles s)))
       (set_bonds (chemistry.pop_first_between i j (bonds s)) s),
     Ok tt).
Proof.
  intros Hij Hpi Hpj. unfold chemistry.remove_bond_between.
  erewrite bind_eval by reflexivity. cbn beta.
  erewrite bind_eval by (apply get_particle_eval; exact Hpi). cbn beta.
  erewrite bind_eval by (apply drop_partner; exact Hpi). cbn beta.
  erewrite bind_eval; cycle 1.
  { apply get_particle_eval. cbn [particles set_particles set_bonds].
    rewrite list_lookup_insert_ne by exact Hij. exact Hpj. }
  cbn beta. rewrite (drop_partner j i _ p_j); cycle 1.
  { cbn [particles set_particles set_bonds].
    rewrite list_lookup_insert_ne by exact Hij. exact Hpj. }
  reflexivity.
Qed.

(** X19.  Forming a bond and removing it again is a round trip: when the two
    particles are different, the ledger has no bond between them and neither
    is in the adjacency list of the other, then [remove_bond_between] after a
    successful [try_form_bond] returns and leaves the ledger and every
    particle as they were before the bond was formed. *)
Theorem form_then_remove_restores (i j : nat) (T : R) (s s1 : Sim)
    (p_i p_j : Particle) :
  i ≠ j →
  particles s !! i = Some p_i → particles s !! j = Some p_j →
  j ∉ p_bonds p_i → i ∉ p_bonds p_j →
  ¬ bonded_in_ledger (bonds s) i j →
  chemistry.try_form_bond i j T s = (s1, Ok true) →
  ∃ s2 : Sim,
    chemistry.remove_bond_between i j s1 = (s2, Ok tt) ∧
    bonds s2 = bonds s ∧ particles s2 = particles s.
Proof.
  intros Hij Hpi Hpj Hji Hij' Hfree Hform.
  destruct (try_form_bond_outcome i j T s Hij)
    as [(_ & _ & Hno) |
        (q_i & q_j & b & e_i & e_j & Hqi & Hqj & _ & _ & Hb & Hp & _
         & Hbi & Hbj & _)].
  { rewrite Hform in Hno. contradiction. }
  rewrite Hform in Hb, Hp. cbn [fst] in Hb, Hp.
  rewrite Hpi in Hqi. injection Hqi as <-.
  rewrite Hpj in Hqj. injection Hqj as <-.
  assert (Hlen_i : (i < length (particles s))%nat)
    by (apply lookup_lt_Some in Hpi; exact Hpi).
  assert (Hlen_j : (j < length (particles s))%nat)
    by (apply lookup_lt_Some in Hpj; exact Hpj).
  eexists. split.
  - apply remove_bond_between_effect; [exact Hij| |]; rewrite Hp.
    + rewrite list_lookup_insert_ne by congruence.
      apply list_lookup_insert_eq. exact Hlen_i.
    + apply list_lookup_insert_eq. rewrite length_insert. exact Hlen_j.
  - cbn [bonds particles set_particles set_bonds
         p_bonds with_bonds]. split.
    + rewrite Hb. apply pop_first_between_snoc.
      * intros b' Hb' Hjoin. apply Hfree. exists b'. done.
      * left. done.
    + rewrite Hp.
      rewrite (list_remove_first_snoc j _ Hji), (list_remove_first_snoc i _ Hij').
      replace (with_bonds (with_bonds p_i (p_bonds p_i ++ [j])) (p_bonds p_i))
        with p_i by (destruct p_i; reflexivity).
      replace (with_bonds (with_bonds p_j (p_bonds p_j ++ [i])) (p_bonds p_j))
        with p_j by (destruct p_j; reflexivity).
      rewrite (list_insert_insert_ne _ i j) by exact Hij.
      rewrite !list_insert_insert_eq.
      rewrite (list_insert_id _ i p_i Hpi), (list_insert_id _ j p_j Hpj).
      reflexivity.
Qed.

Lemma form_then_remove_restores_witness :
  ∃ s2 : Sim,
    chemistry.remove_bond_between 0 1 overfull.s_1 = (s2, Ok tt) ∧
    bonds s2 = bonds overfull.s_0 ∧ particles s2 = particles overfull.s_0.
Proof.
  apply (form_then_remove_restores 0 1 0.5 overfull.s_0 overfull.s_1
           overfull.p_0 overfull.p_1);
    [ lia | reflexivity | reflexivity | apply not_elem_of_nil
    | apply not_elem_of_nil | | exact overfull_first_bond ].
  intros (b & Hb & _). apply elem_of_nil in Hb. exact Hb.
Defined.

(** ** The ledger and the adjacency lists stay consistent *)

Lemma same_pair_sym (x y : Bond) : same_pair x y → same_pair y x.
Proof. unfold same_pair. intros [[H1 H2]|[H1 H2]]; [left | right]; done. Qed.

Lemma joins_sym (i j : nat) (b : Bond) : joins i j b ↔ joins j i b.
Proof. unfold joins. tauto. Qed.

Lemma same_pair_joins (x y : Bond) :
  same_pair x y ↔ joins (b_i y) (b_j y) x.
Proof. unfold same_pair, joins. tauto. Qed.

Lemma distinct_pairs_lookup (bs : list Bond) :
  distinct_pairs bs ↔
  ∀ (a b : nat) (x y : Bond),
    a ≠ b → bs !! a = Some x → bs !! b = Some y → ¬ same_pair x y.
Proof.
  induction bs as [|b0 bs IH]; cbn [distinct_pairs].
  - split; [|done]. intros _ a b x y _ Hx. discriminate Hx.
  - rewrite IH. split.
    + intros [Hhead Htail] a b x y Hab Hx Hy.
      destruct a as [|a], b as [|b]; cbn in Hx, Hy.
      * done.
      * injection Hx as <-. apply Hhead.
        eapply list_elem_of_lookup_2. exact Hy.
      * injection Hy as <-. intros Hsame. apply same_pair_sym in Hsame.
        revert Hsame. apply Hhead. eapply list_elem_of_lookup_2. exact Hx.
      * apply (Htail a b); [lia | assumption..].
    + intros H. split.
      * intros y Hy. apply list_elem_of_lookup_1 in Hy as [k Hk].
        apply (H 0%nat (S k)); [lia | reflexivity | exact Hk].
      * intros a b x y Hab Hx Hy. apply (H (S a) (S b)); [lia | assumption..].
Qed.

Lemma distinct_pairs_snoc (bs : list Bond) (b : Bond) :
  distinct_pairs (bs ++ [b]) ↔
  distinct_pairs bs ∧ ∀ x : Bond, x ∈ bs → ¬ same_pair x b.
Proof.
  induction bs as [|b0 bs IH]; cbn [distinct_pairs app].
  - split; intros _; split; try done;
      intros y Hy; apply elem_of_nil in Hy; contradiction.
  - rewrite IH. split.
    + intros [Hhead [Htail Hnew]]. split; [split; [|exact Htail]|].
      * intros y Hy. apply Hhead. apply elem_of_app. left. exact Hy.
      * intros x Hx. apply elem_of_cons in Hx as [->|Hx]; [|apply Hnew; exact Hx].
        apply Hhead. apply elem_of_app. right. left.
    + intros [[Hhead Htail] Hnew]. split; [|split; [exact Htail|]].
      * intros y Hy. apply elem_of_app in Hy as [Hy|Hy]; [apply Hhead; exact Hy|].
        apply list_elem_of_singleton in Hy as ->. apply Hnew. left.
      * intros x Hx. apply Hnew. right. exact Hx.
Qed.

Lemma pop_first_between_elem (i j : nat) (bs : list Bond) (x : Bond) :
  distinct_pairs bs →
  x ∈ chemistry.pop_first_between i j bs ↔ x ∈ bs ∧ ¬ joins i j x.
Proof.
  induction bs as [|b0 bs IH]; cbn [distinct_pairs chemistry.pop_first_between].
  - intros _. rewrite elem_of_nil. tauto.
  - intros [Hhead Htail].
    destruct (decide ((b_i b0 = i ∧ b_j b0 = j) ∨ (b_i b0 = j ∧ b_j b0 = i)))
      as [Hjoin|Hjoin].
    + rewrite elem_of_cons. split.
      * intros Hx. split; [right; exact Hx|]. intros Hxj.
        apply (Hhead x Hx). unfold same_pair, joins in *.
        destruct Hjoin as [[-> ->]|[-> ->]], Hxj as [[-> ->]|[-> ->]]; tauto.
      * intros [[->|Hx] Hxj]; [contradiction | exact Hx].
    + rewrite !elem_of_cons, IH by exact Htail. split.
      * intros [->|[Hx Hxj]]; [split; [left; reflexivity | exact Hjoin]|].
        split; [right; exact Hx | exact Hxj].
      * intros [[->|Hx] Hxj]; [left; reflexivity | right; done].
Qed.

Lemma pop_first_between_distinct (i j : nat) (bs : list Bond) :
  distinct_pairs bs → distinct_pairs (chemistry.pop_first_between i j bs).
Proof.
  induction bs as [|b0 bs IH]; cbn [distinct_pairs chemistry.pop_first_between];
    [done|].
  intros [Hhead Htail]. destruct (decide _); [exact Htail|].
  cbn [distinct_pairs]. split; [|apply IH; exact Htail].
  intros y Hy. apply pop_first_between_elem in Hy as [Hy _]; [|exact Htail].
  apply Hhead. exact Hy.
Qed.

Lemma bonded_in_ledger_sym (bs : list Bond) (i j : nat) :
  bonded_in_ledger bs i j ↔ bonded_in_ledger bs j i.
Proof. unfold bonded_in_ledger. split; intros (b & Hb & H); exists b; tauto. Qed.

Lemma ledger_consistent_alt (s : Sim) :
  ledger_consistent s ↔
  (∀ (i j : nat) (p : Particle),
      particles s !! i = Some p →
      (j ∈ p_bonds p ↔ bonded_in_ledger (bonds s) i j)) ∧
  distinct_pairs (bonds s) ∧
  (∀ (i : nat) (p : Particle),
      particles s !! i = Some p → NoDup (p_bonds p)).
Proof. unfold ledger_consistent. rewrite distinct_pairs_lookup. reflexivity. Qed.

Lemma ledger_consistent_same (s s' : Sim) :
  particles s' = particles s → bonds s' = bonds s →
  ledger_consistent s → ledger_consistent s'.
Proof. unfold ledger_consistent. intros -> ->. done. Qed.

(** X20.  [try_form_bond] keeps the ledger and the adjacency lists consistent
    when it is called for two different particles that are not bonded to each
    other, which is what the test [j in p_i.bonds] of the pair pass ensures:
    whether it forms a bond, returns [False] or raises, the adjacency lists
    still hold exactly the partners that the ledger gives, without duplicates,
    and the ledger has at most one bond for a pair. *)
Theorem try_form_bond_keeps_ledger (i j : nat) (T : R) (s : Sim) :
  i ≠ j →
  ledger_consistent s →
  (∀ p : Particle, particles s !! i = Some p → j ∉ p_bonds p) →
  ledger_consistent (chemistry.try_form_bond i j T s).1.
Proof.
  intros Hij Hs Hfree.
  destruct (try_form_bond_outcome i j T s Hij)
    as [(Hp & Hb & _) |
        (p_i & p_j & b & e_i & e_j & Hpi & Hpj & _ & _ & Hb & Hp & _
         & Hbi & Hbj & _)].
  { exact (ledger_consistent_same _ _ Hp Hb Hs). }
  apply ledger_consistent_alt in Hs as (Hadj & Hdist & Hnodup).
  apply ledger_consistent_alt. rewrite Hb, Hp.
  assert (Hnot : ¬ bonded_in_ledger (bonds s) i j).
  { rewrite <- (Hadj i j p_i Hpi). exact (Hfree p_i Hpi). }
  assert (Hji : j ∉ p_bonds p_i) by exact (Hfree p_i Hpi).
  assert (Hij' : i ∉ p_bonds p_j).
  { rewrite (Hadj j i p_j Hpj), bonded_in_ledger_sym. exact Hnot. }
  assert (Hsnoc : ∀ a c : nat,
             bonded_in_ledger (bonds s ++ [b]) a c ↔
             bonded_in_ledger (bonds s) a c ∨ (a = i ∧ c = j) ∨ (a = j ∧ c = i)).
  { intros a c. unfold bonded_in_ledger. split.
    - intros (x & Hx & Hjoin). apply elem_of_app in Hx as [Hx|Hx].
      + left. exists x. done.
      + apply list_elem_of_singleton in Hx as ->. right.
        rewrite Hbi, Hbj in Hjoin. destruct Hjoin as [[<- <-]|[<- <-]]; tauto.
    - intros [(x & Hx & Hjoin)|Hnew].
      + exists x. split; [apply elem_of_app; left; exact Hx | exact Hjoin].
      + exists b. split; [apply elem_of_app; right; left|].
        rewrite Hbi, Hbj. destruct Hnew as [[-> ->]|[-> ->]]; tauto. }
  split; [|split].
  - intros a c p Hp'. rewrite Hsnoc.
    apply list_lookup_insert_Some in Hp' as [(<- & <- & _)|(Haj & Hp')].
    + cbn [p_bonds with_bonds].
      rewrite elem_of_app, list_elem_of_singleton, (Hadj j c p_j Hpj).
      split; [intros [H| ->]; tauto|].
      intros [H|[[-> _]|[_ ->]]]; [tauto | contradiction | tauto].
    + apply list_lookup_insert_Some in Hp' as [(<- & <- & _)|(Hai & Hp')].
      * cbn [p_bonds with_bonds].
        rewrite elem_of_app, list_elem_of_singleton, (Hadj i c p_i Hpi).
        split; [intros [H| ->]; tauto|].
        intros [H|[[_ ->]|[-> _]]]; [tauto | tauto | contradiction].
      * rewrite (Hadj a c p Hp'). split; [tauto|].
        intros [H|[[-> _]|[-> _]]]; [exact H | contradiction..].
  - apply distinct_pairs_snoc. split; [exact Hdist|].
    intros x Hx Hsame. apply Hnot. exists x. split; [exact Hx|].
    apply (proj1 (same_pair_joins x b)) in Hsame.
    rewrite Hbi, Hbj in Hsame. exact Hsame.
  - intros a p Hp'.
    apply list_lookup_insert_Some in Hp' as [(<- & <- & _)|(Haj & Hp')].
    + cbn [p_bonds with_bonds]. apply NoDup_app.
      split; [exact (Hnodup j p_j Hpj)|]. split; [|apply NoDup_singleton].
      intros x Hx Hxi. apply list_elem_of_singleton in Hxi as ->. contradiction.
    + apply list_lookup_insert_Some in Hp' as [(<- & <- & _)|(Hai & Hp')].
      * cbn [p_bonds with_bonds]. apply NoDup_app.
        split; [exact (Hnodup i p_i Hpi)|]. split; [|apply NoDup_singleton].
        intros x Hx Hxj. apply list_elem_of_singleton in Hxj as ->.
        contradiction.
      * exact (Hnodup a p Hp').
Qed.

Lemma ledger_consistent_unbonded (s : Sim) :
  bonds s = [] → Forall (fun p => p_bonds p = []) (particles s) →
  ledger_consistent s.
Proof.
  intros Hb Hp. apply ledger_consistent_alt. rewrite Hb.
  rewrite Forall_lookup in Hp. split; [|split].
  - intros i j p Hi. rewrite (Hp i p Hi). unfold bonded_in_ledger. split.
    + intros Hj. apply elem_of_nil in Hj. contradiction.
    + intros (b & Hbin & _). apply elem_of_nil in Hbin. contradiction.
  - exact Logic.I.
  - intros i p Hi. rewrite (Hp i p Hi). constructor.
Qed.

Lemma try_form_bond_keeps_ledger_witness :
  ledger_consistent (chemistry.try_form_bond 0 1 0.5 overfull.s_0).1.
Proof.
  apply try_form_bond_keeps_ledger.
  - lia.
  - apply ledger_consistent_unbonded; [reflexivity | repeat constructor].
  - intros p Hp. injection Hp as <-. apply not_elem_of_nil.
Defined.

(** X21.  [remove_bond_between] keeps the ledger and the adjacency lists
    consistent when it is called for two different particles of the system,
    and afterwards the two are not bonded: the ledger has no bond between them
    and neither is in the adjacency list of the other. *)
Theorem remove_bond_between_keeps_ledger (i j : nat) (s : Sim) :
  i ≠ j →
  (i < length (particles s))%nat → (j < length (particles s))%nat →
  ledger_consistent s →
  ∃ s' : Sim,
    chemistry.remove_bond_between i j s = (s', Ok tt) ∧
    ledger_consistent s' ∧
    ¬ bonded_in_ledger (bonds s') i j ∧
    (∀ p : Particle, particles s' !! i = Some p → j ∉ p_bonds p) ∧
    (∀ p : Particle, particles s' !! j = Some p → i ∉ p_bonds p).
Proof.
  intros Hij Hi Hj Hs.
  destruct (lookup_lt_is_Some_2 _ _ Hi) as [p_i Hpi].
  destruct (lookup_lt_is_Some_2 _ _ Hj) as [p_j Hpj].
  eexists. split; [apply (remove_bond_between_effect i j s p_i p_j); assumption|].
  apply ledger_consistent_alt in Hs as (Hadj & Hdist & Hnodup).
  cbn [particles bonds set_particles set_bonds].
  assert (Hpop : ∀ a c : nat,
             bonded_in_ledger (chemistry.pop_first_between i j (bonds s)) a c ↔
             bonded_in_ledger (bonds s) a c ∧
             ¬ ((a = i ∧ c = j) ∨ (a = j ∧ c = i))).
  { intros a c. unfold bonded_in_ledger. split.
    - intros (x & Hx & Hjoin).
      apply pop_first_between_elem in Hx as [Hx Hxj]; [|exact Hdist].
      split; [exists x; done|].
      intros Hac. apply Hxj. unfold joins.
      destruct Hac as [[-> ->]|[-> ->]]; tauto.
    - intros [(x & Hx & Hjoin) Hac]. exists x. split; [|exact Hjoin].
      apply pop_first_between_elem; [exact Hdist|]. split; [exact Hx|].
      intros Hxj. apply Hac. unfold joins in Hxj.
      destruct Hjoin as [[<- <-]|[<- <-]], Hxj as [[H1 H2]|[H1 H2]];
        first [tauto | lia]. }
  split; [|split; [|split]].
  - apply ledger_consistent_alt.
    cbn [particles bonds set_particles set_bonds]. split; [|split].
    + intros a c p Hp'. rewrite Hpop.
      apply list_lookup_insert_Some in Hp' as [(<- & <- & _)|(Haj & Hp')].
      * cbn [p_bonds with_bonds].
        rewrite elem_of_list_remove_first by exact (Hnodup j p_j Hpj).
        rewrite (Hadj j c p_j Hpj). split; [|intros [H Hn]; split; [exact H|]].
        -- intros [H Hc]. split; [exact H|]. intros [[-> _]|[_ ->]]; done.
        -- intros ->. apply Hn. right. done.
      * apply list_lookup_insert_Some in Hp' as [(<- & <- & _)|(Hai & Hp')].
        -- cbn [p_bonds with_bonds].
           rewrite elem_of_list_remove_first by exact (Hnodup i p_i Hpi).
           rewrite (Hadj i c p_i Hpi).
           split; [|intros [H Hn]; split; [exact H|]].
           ++ intros [H Hc]. split; [exact H|]. intros [[_ ->]|[-> _]]; done.
           ++ intros ->. apply Hn. left. done.
        -- rewrite (Hadj a c p Hp'). split; [|tauto].
           intros H. split; [exact H|]. intros [[-> _]|[-> _]]; done.
    + apply pop_first_between_distinct. exact Hdist.
    + intros a p Hp'.
      apply list_lookup_insert_Some in Hp' as [(<- & <- & _)|(Haj & Hp')].
      * cbn [p_bonds with_bonds]. apply NoDup_list_remove_first.
        exact (Hnodup j p_j Hpj).
      * apply list_lookup_insert_Some in Hp' as [(<- & <- & _)|(Hai & Hp')].
        -- cbn [p_bonds with_bonds]. apply NoDup_list_remove_first.
           exact (Hnodup i p_i Hpi).
        -- exact (Hnodup a p Hp').
  - rewrite Hpop. intros [_ Hn]. apply Hn. left. done.
  - intros p Hp'. rewrite list_lookup_insert_ne in Hp' by congruence.
    rewrite list_lookup_insert_eq in Hp' by exact Hi. injection Hp' as <-.
    cbn [p_bonds with_bonds].
    rewrite elem_of_list_remove_first by exact (Hnodup i p_i Hpi). tauto.
  - intros p Hp'.
    rewrite list_lookup_insert_eq in Hp' by (rewrite length_insert; exact Hj).
    injection Hp' as <-. cbn [p_bonds with_bonds].
    rewrite elem_of_list_remove_first by exact (Hnodup j p_j Hpj). tauto.
Qed.

Lemma bonded_in_ledger_singleton (b : Bond) (i j : nat) :
  bonded_in_ledger [b] i j ↔ joins i j b.
Proof.
  unfold bonded_in_ledger, joins. split.
  - intros (x & Hx & H). apply list_elem_of_singleton in Hx as ->. exact H.
  - intros H. exists b. split; [left | exact H].
Qed.

Lemma overfull_first_bond_consistent : ledger_consistent overfull.s_1.
Proof.
  apply ledger_consistent_alt. split; [|split].
  - intros i j p Hp. cbn [bonds overfull.s_1].
    rewrite bonded_in_ledger_singleton. unfold joins.
    cbn [b_i b_j overfull.b_01].
    destruct i as [|[|[|i]]]; cbn in Hp; try discriminate Hp;
      injection Hp as <-; cbn [p_bonds with_bonds overfull.p_2];
      rewrite ?list_elem_of_singleton, ?elem_of_nil; lia.
  - cbn. split; [|done]. intros y Hy. apply elem_of_nil in Hy. contradiction.
  - intros i p Hp.
    destruct i as [|[|[|i]]]; cbn in Hp; try discriminate Hp;
      injection Hp as <-; cbn [p_bonds with_bonds overfull.p_2];
      first [apply NoDup_singleton | apply NoDup_nil; exact Logic.I].
Qed.

Lemma remove_bond_between_keeps_ledger_witness :
  let s := overfull.s_1 in
  ∃ s' : Sim,
    chemistry.remove_bond_between 0 1 s = (s', Ok tt) ∧
    ledger_consistent s' ∧
    ¬ bonded_in_ledger (bonds s') 0 1 ∧
    (∀ p : Particle, particles s' !! 0%nat = Some p → 1%nat ∉ p_bonds p) ∧
    (∀ p : Particle, particles s' !! 1%nat = Some p → 0%nat ∉ p_bonds p).
Proof.
  apply remove_bond_between_keeps_ledger.
  - lia.
  - cbn. lia.
  - cbn. lia.
  - exact overfull_first_bond_consistent.
Defined.

(** ** Reactions *)

Lemma electroneg_bound (t : nat) (e : R) :
  chemistry.ELECTRONEG !! t = Some e → 1 <= e <= 3.1.
Proof.
  destruct t as [|[|[|[|[|t]]]]]; cbn; intros H; try discriminate H;
    injection H as <-; lra.
Qed.

Lemma weakest_fold_above (ps : list Particle) (e_j : R) (l : list nat)
    (acc : option nat * R) :
  Forall (fun k =>
            ∃ (p_k : Particle) (e_k : R),
              ps !! k = Some p_k ∧
              chemistry.ELECTRONEG !! p_type p_k = Some e_k ∧
              e_j <= e_k + 0.10) l →
  e_j <= acc.2 + 0.10 →
  ∃ r : option nat * R,
    fold_res l acc (chemistry.weakest_step ps) = Ok r ∧ e_j <= r.2 + 0.10.
Proof.
  intros Hl. revert acc.
  induction Hl as [|k l (p_k & e_k & Hp & He & Hle) _ IH]; intros acc Hacc;
    cbn [fold_res].
  - exists acc. done.
  - assert (Hstep : chemistry.weakest_step ps k acc =
                    Ok (if decide (e_k < acc.2) then (Some k, e_k) else acc)).
    { unfold chemistry.weakest_step, py_index. rewrite Hp.
      cbn [mbind Res_bind]. rewrite He. reflexivity. }
    rewrite Hstep. cbn [mbind Res_bind]. apply IH.
    destruct (decide _); cbn [snd]; lra.
Qed.

(** X22.  [reaction_substitution] displaces a partner of [i] only for a more
    electronegative newcomer: below temperature 1.05, for a particle [i]
    without bonds, or when the electronegativity of [j] is not more than 0.10
    above that of every partner of [i], it returns [False] and changes
    nothing, not even the position of the random source. *)
Theorem reaction_substitution_threshold (i j : nat) (T : R) (s : Sim)
    (p_i p_j : Particle) (e_j : R) :
  particles s !! i = Some p_i →
  particles s !! j = Some p_j →
  chemistry.ELECTRONEG !! p_type p_j = Some e_j →
  T < 1.05 ∨ p_bonds p_i = [] ∨
  Forall (fun k =>
            ∃ (p_k : Particle) (e_k : R),
              particles s !! k = Some p_k ∧
              chemistry.ELECTRONEG !! p_type p_k = Some e_k ∧
              e_j <= e_k + 0.10) (p_bonds p_i) →
  chemistry.reaction_substitution i j T s = (s, Ok false).
Proof.
  intros Hpi Hpj He Hcases. unfold chemistry.reaction_substitution.
  destruct (decide (T < 1.05)) as [|HT]; [reflexivity|].
  erewrite bind_eval by (apply get_particle_eval; exact Hpi). cbn beta.
  erewrite bind_eval by (apply get_particle_eval; exact Hpj). cbn beta.
  destruct (decide (length (p_bonds p_i) = 0%nat)) as [|Hlen]; [reflexivity|].
  destruct Hcases as [HT'|[Hnil|Hall]]; [contradiction | |].
  { rewrite Hnil in Hlen. contradiction. }
  erewrite bind_eval by (unfold liftR, py_index; rewrite He; reflexivity).
  cbn beta.
  destruct (weakest_fold_above (particles s) e_j (p_bonds p_i) (None, 999) Hall)
    as ([weakest_k weakest_en] & Hfold & Hle).
  { cbn [snd]. pose proof (electroneg_bound _ _ He). lra. }
  erewrite bind_eval by (cbn beta; rewrite Hfold; reflexivity).
  cbn beta iota. cbn [snd] in Hle.
  destruct weakest_k as [k|]; [|reflexivity].
  rewrite decide_False by lra. reflexivity.
Qed.

Lemma reaction_substitution_threshold_witness :
  chemistry.reaction_substitution 1 0 1.2 substitution.s_1
  = (substitution.s_1, Ok false).
Proof.
  apply (reaction_substitution_threshold 1 0 1.2 substitution.s_1
           (mkParticle 2 20 0 0 1 [0%nat]) (mkParticle 21 20 0 0 0 [1%nat]) 1.0);
    [reflexivity | reflexivity | reflexivity |].
  right. right. constructor; [|constructor].
  exists (mkParticle 21 20 0 0 0 [1%nat]), 1.0.
  split; [reflexivity|]. split; [reflexivity|]. lra.
Defined.




(** X24.  A bond that is not over-stretched does not break while the relative
    speed of its ends is low: at a non-negative temperature, with the wrapped
    distance within the break distance of its order and the squared relative
    speed at most [8.4 * T * order], [try_break_bond] returns [False],
    whatever the type of the bond and the number of bonds of its ends. *)
Theorem try_break_bond_holds (bond : Bond) (ps : list Particle) (T : R)
    (p_i p_j : Particle) :
  ps !! b_i bond = Some p_i →
  ps !! b_j bond = Some p_j →
  0 <= T →
  wrapped_distance p_i p_j <=
    b_length bond * physics.BOND_BREAK_THRESHOLD
    * (1 + 0.2 * (INR (b_order bond) - 1)) →
  (p_vx p_j - p_vx p_i) * (p_vx p_j - p_vx p_i)
  + (p_vy p_j - p_vy p_i) * (p_vy p_j - p_vy p_i)
    <= 8.4 * T * INR (b_order bond) →
  chemistry.try_break_bond bond ps T = Ok false.
Proof.
  intros Hpi Hpj HT Hdist Hslow.
  pose proof (wrapped_distance_unfold p_i p_j) as Hwd.
  unfold chemistry.try_break_bond, py_index. rewrite Hpi, Hpj.
  cbn [mbind Res_bind]. destruct (physics.wrap _ _) as [dx dy].
  rewrite <- Hwd. rewrite decide_False by lra.
  set (n := INR (length (p_bonds p_i) `min` length (p_bonds p_j))).
  assert (Hn : 0 <= n) by apply pos_INR.
  assert (Ho : 0 <= INR (b_order bond)) by apply pos_INR.
  assert (HTo : 0 <= T * INR (b_order bond)) by (apply Rmult_le_pos; lra).
  rewrite decide_False; [reflexivity|].
  set (relv2 := (p_vx p_j - p_vx p_i) * (p_vx p_j - p_vx p_i)
                + (p_vy p_j - p_vy p_i) * (p_vy p_j - p_vy p_i)) in *.
  assert (Hbase : ∀ base : R,
             8.4 <= base → ¬ relv2 > base * (1.0 + 0.2 * n) * T * INR (b_order bond)).
  { intros base Hb.
    assert (8.4 <= base * (1.0 + 0.2 * n)) by nra.
    assert (8.4 * (T * INR (b_order bond))
            <= base * (1.0 + 0.2 * n) * (T * INR (b_order bond)))
      by (apply Rmult_le_compat_r; lra).
    intros Hgt. lra. }
  destruct (decide (b_type bond = covalent)), (decide _);
    apply Hbase; lra.
Qed.

Lemma try_break_bond_holds_witness :
  chemistry.try_break_bond bonded_pair.b_01
    [bonded_pair.p_0; bonded_pair.p_1] 0.5 = Ok false.
Proof.
  apply (try_break_bond_holds bonded_pair.b_01 _ 0.5
           bonded_pair.p_0 bonded_pair.p_1); [reflexivity | reflexivity | lra | |].
  - unfold wrapped_distance. rewrite wrap_near by num.
    unfold norm2. cbn [fst snd bonded_pair.p_0 bonded_pair.p_1 p_x p_y].
    replace ((115 - 100) * (115 - 100) + (100 - 100) * (100 - 100))
      with (15 * 15) by lra.
    rewrite sqrt_square by lra. num.
  - num.
Defined.

(** ** The angular forces of the cold regime *)








